(** * Jira MCP server: the text/ADF transforms, the tools and their handlers

    A shallow embedding of [convertToADF], [convertADFToMarkdown] (with
    [processNode], [processTable], [processListItem]) and [getJiraFields],
    of the tool definitions, the validators of the arguments and the
    handler of a tool call, and the properties stated about them.

    Conventions of the embedding.
    - A JavaScript string is a [string]: each [ascii] stands for the UTF-16
      code unit of the same number, so the strings covered are those over
      U+0000..U+00FF.  [String.length] is then the [.length] of the source.
    - A JavaScript value ([any]) is a [value]: the JSON values plus
      [undefined].  Numbers are the integers that a double holds exactly
      and prints in decimal, those below 2^53 in magnitude.
    - A call either returns or raises: [result].  The limits of a runtime,
      the depth of its stack and the length of its longest string, are not
      part of the embedding: the statements about every document or every
      text hold for the inputs that stay within them. *)

From Stdlib Require Import String Ascii ZArith DecimalString.
From stdpp Require Import base list gmap strings.

Local Open Scope string_scope.

Set Warnings "-register-all".

(** ** Strings *)

Module Str.

Definition LF : ascii := "010"%char.
Definition CR : ascii := "013"%char.

(** The one-character string ["\n"]. *)
Definition nl : string := String LF "".

(** White space and line terminators among the code units below 256:
    TAB, LF, VT, FF, CR, SP and NBSP.  This is what [trim] strips. *)
Definition is_space (c : ascii) : bool :=
  let n := nat_of_ascii c in
  (Nat.leb 9 n && Nat.leb n 13) || Nat.eqb n 32 || Nat.eqb n 160.

(** What [.] of a regular expression refuses (no [s] flag). *)
Definition is_line_terminator (c : ascii) : bool :=
  Ascii.eqb c LF || Ascii.eqb c CR.

Definition is_digit (c : ascii) : bool :=
  let n := nat_of_ascii c in Nat.leb 48 n && Nat.leb n 57.

Fixpoint trimStart (s : string) : string :=
  match s with
  | String c r => if is_space c then trimStart r else s
  | EmptyString => EmptyString
  end.

(** [trimEnd] keeps a character when it is not white space or when
    something is kept after it. *)
Fixpoint trimEnd (s : string) : string :=
  match s with
  | String c r =>
      match trimEnd r with
      | EmptyString => if is_space c then EmptyString else String c EmptyString
      | r' => String c r'
      end
  | EmptyString => EmptyString
  end.

Definition trim (s : string) : string := trimEnd (trimStart s).

Fixpoint startsWith (s p : string) : bool :=
  match p, s with
  | EmptyString, _ => true
  | String c p', String d s' => Ascii.eqb d c && startsWith s' p'
  | String _ _, EmptyString => false
  end.

Fixpoint last_char (s : string) : option ascii :=
  match s with
  | EmptyString => None
  | String c EmptyString => Some c
  | String _ r => last_char r
  end.

(** [s.endsWith(c)] for a one-character [c]. *)
Definition endsWithChar (s : string) (c : ascii) : bool :=
  match last_char s with
  | Some d => Ascii.eqb d c
  | None => false
  end.

(** [s.substring(n)]. *)
Fixpoint substring_from (n : nat) (s : string) : string :=
  match n, s with
  | O, _ => s
  | S n', String _ r => substring_from n' r
  | S _, EmptyString => EmptyString
  end.

(** [s.split(c)] for a one-character separator: never the empty list. *)
Fixpoint split (sep : ascii) (s : string) : list string :=
  match s with
  | EmptyString => [EmptyString]
  | String c r =>
      if Ascii.eqb c sep then EmptyString :: split sep r
      else match split sep r with
           | l :: ls => String c l :: ls
           | [] => [String c EmptyString]
           end
  end.

(** [Array.prototype.join] on an array of strings. *)
Definition join (sep : string) (l : list string) : string :=
  String.concat sep l.

(** [s.replace(/c/g, by)] for a one-character pattern. *)
Fixpoint replaceAll (c : ascii) (by_ : string) (s : string) : string :=
  match s with
  | EmptyString => EmptyString
  | String d r =>
      if Ascii.eqb d c then by_ ++ replaceAll c by_ r
      else String d (replaceAll c by_ r)
  end.

(** [s.repeat(n)]. *)
Fixpoint repeat (s : string) (n : nat) : string :=
  match n with
  | O => EmptyString
  | S n' => s ++ repeat s n'
  end.

Fixpoint take_while (p : ascii -> bool) (s : string) : string :=
  match s with
  | String c r => if p c then String c (take_while p r) else EmptyString
  | EmptyString => EmptyString
  end.

Fixpoint drop_while (p : ascii -> bool) (s : string) : string :=
  match s with
  | String c r => if p c then drop_while p r else s
  | EmptyString => EmptyString
  end.

(** Decimal rendering of a number, as in a template literal. *)
Definition of_Z (z : Z) : string := NilZero.string_of_int (Z.to_int z).
Definition of_nat (n : nat) : string := of_Z (Z.of_nat n).

End Str.

(** ** Values *)

(** The property names the program reads or writes. *)
Inductive key :=
| K_version | K_type | K_content | K_text | K_marks | K_attrs
| K_level | K_language | K_alt | K_src | K_href.

(** An object, as far as the program can observe it: the value of each of
    these own properties, [undefined] when the property is absent.  None of
    the names is defined on [Object.prototype], [Array.prototype] or the
    wrappers of the primitives, so reading one from an array or from a
    primitive gives [undefined]. *)
Record props (A : Type) := mkProps {
  p_version : A; p_type : A; p_content : A; p_text : A; p_marks : A;
  p_attrs : A; p_level : A; p_language : A; p_alt : A; p_src : A; p_href : A }.

Arguments mkProps {A}.
Arguments p_version {A}.
Arguments p_type {A}.
Arguments p_content {A}.
Arguments p_text {A}.
Arguments p_marks {A}.
Arguments p_attrs {A}.
Arguments p_level {A}.
Arguments p_language {A}.
Arguments p_alt {A}.
Arguments p_src {A}.
Arguments p_href {A}.

Inductive value :=
| VUndefined
| VNull
| VBool (b : bool)
| VNum (n : Z)
| VStr (s : string)
| VArr (items : list value)
| VObj (p : props value).

Definition get_prop {A} (k : key) (p : props A) : A :=
  match k with
  | K_version => p_version p | K_type => p_type p | K_content => p_content p
  | K_text => p_text p | K_marks => p_marks p | K_attrs => p_attrs p
  | K_level => p_level p | K_language => p_language p | K_alt => p_alt p
  | K_src => p_src p | K_href => p_href p
  end.

Definition set_prop {A} (k : key) (x : A) (p : props A) : props A :=
  let '(mkProps v t c tx m a l lg al s h) := p in
  match k with
  | K_version => mkProps x t c tx m a l lg al s h
  | K_type => mkProps v x c tx m a l lg al s h
  | K_content => mkProps v t x tx m a l lg al s h
  | K_text => mkProps v t c x m a l lg al s h
  | K_marks => mkProps v t c tx x a l lg al s h
  | K_attrs => mkProps v t c tx m x l lg al s h
  | K_level => mkProps v t c tx m a x lg al s h
  | K_language => mkProps v t c tx m a l x al s h
  | K_alt => mkProps v t c tx m a l lg x s h
  | K_src => mkProps v t c tx m a l lg al x h
  | K_href => mkProps v t c tx m a l lg al s x
  end.

Definition no_props : props value :=
  mkProps VUndefined VUndefined VUndefined VUndefined VUndefined VUndefined
          VUndefined VUndefined VUndefined VUndefined VUndefined.

(** An object literal [{k1: v1, k2: v2, ...}]. *)
Definition obj (fields : list (key * value)) : value :=
  VObj (fold_left (fun p kv => set_prop kv.1 kv.2 p) fields no_props).

(** [o.k] for an [o] that is neither [null] nor [undefined]. *)
Definition prop (k : key) (o : value) : value :=
  match o with
  | VObj p => get_prop k p
  | _ => VUndefined
  end.

Definition nullish (v : value) : bool :=
  match v with
  | VUndefined | VNull => true
  | _ => false
  end.

(** ToBoolean. *)
Definition truthy (v : value) : bool :=
  match v with
  | VUndefined | VNull => false
  | VBool b => b
  | VNum n => negb (n =? 0)%Z
  | VStr s => negb (s =? "")
  | VArr _ | VObj _ => true
  end.

(** [a || b] *)
Definition or_else (a b : value) : value := if truthy a then a else b.

(** [v === "lit"] *)
Definition is_string (v : value) (lit : string) : bool :=
  match v with
  | VStr s => (s =? lit)
  | _ => false
  end.

(** ToString, as applied by a template literal and by
    [Array.prototype.join] to a value that is not [null] or [undefined].
    A number is printed in decimal, as JavaScript prints the integers of
    the embedding (it turns to the exponent form from 10^21 on). *)
Fixpoint ToString (v : value) : string :=
  match v with
  | VUndefined => "undefined"
  | VNull => "null"
  | VBool true => "true"
  | VBool false => "false"
  | VNum n => Str.of_Z n
  | VStr s => s
  | VArr l => Str.join "," (map (fun x => if nullish x then "" else ToString x) l)
  | VObj _ => "[object Object]"
  end.

(** ** Outcomes *)

Inductive JsError := TypeError | RangeError.

(** A call returns ([Ok]) or raises ([Throw]).  [Unsupported] marks the one
    place where a call leaves the fragment of the language embedded here:
    the conversion of a string to a number. *)
Inductive result (A : Type) :=
| Ok (a : A)
| Throw (e : JsError)
| Unsupported.

Arguments Ok {A}.
Arguments Throw {A}.
Arguments Unsupported {A}.

Definition bind {A B} (m : result A) (f : A -> result B) : result B :=
  match m with
  | Ok a => f a
  | Throw e => Throw e
  | Unsupported => Unsupported
  end.

Notation "'let*' x ':=' m 'in' k" := (bind m (fun x => k))
  (at level 10, x name, m at level 100, k at level 200).

(** [l.map(f)], left to right; the first exception ends it. *)
Definition mapM {A B} (f : A -> result B) : list A -> result (list B) :=
  fix go l :=
    match l with
    | [] => Ok []
    | x :: r => let* y := f x in let* ys := go r in Ok (y :: ys)
    end.

(** [for (const x of l) acc = f(acc, x)]. *)
Definition foldM {A St} (f : St -> A -> result St) : list A -> St -> result St :=
  fix go l s :=
    match l with
    | [] => Ok s
    | x :: r => let* s' := f s x in go r s'
    end.

(** ** convertToADF *)

Inductive list_type := bullet | ordered.

#[global] Instance list_type_eq_dec : EqDecision list_type.
Proof. solve_decision. Defined.

(** The variables of the loop.  [currentList] aliases an object that is
    also an element of [content]: it is kept as the index of that element. *)
Record enc_state := mkEnc {
  content : list value;
  currentList : option nat;
  currentListType : option list_type }.

Definition text_node (s : string) : value :=
  obj [(K_type, VStr "text"); (K_text, VStr s)].

Definition paragraph_node (s : string) : value :=
  obj [(K_type, VStr "paragraph"); (K_content, VArr [text_node s])].

Definition listItem_node (s : string) : value :=
  obj [(K_type, VStr "listItem"); (K_content, VArr [paragraph_node s])].

Definition heading_node (s : string) : value :=
  obj [(K_type, VStr "heading"); (K_attrs, obj [(K_level, VNum 2)]);
       (K_content, VArr [text_node s])].

Definition list_node (t : list_type) (items : list value) : value :=
  obj [(K_type, VStr (match t with bullet => "bulletList" | ordered => "orderedList" end));
       (K_content, VArr items)].

Definition doc_node (c : list value) : value :=
  obj [(K_version, VNum 1); (K_type, VStr "doc"); (K_content, VArr c)].

(** [s.match(re)] for the pattern of numbered lines: from the start, one
    or more digits (group 1), a dot, a space, then as many characters other
    than line terminators as follow (group 2).  The digits are greedy and
    the next character must be the dot, so no backtracking is needed. *)
Definition numberedMatch (s : string) : option (string * string) :=
  let digits := Str.take_while Str.is_digit s in
  match digits, Str.drop_while Str.is_digit s with
  | String _ _, String "." (String " " r) =>
      Some (digits, Str.take_while (fun c => negb (Str.is_line_terminator c)) r)
  | _, _ => None
  end.

(** [currentList.content.push(item)] *)
Definition push_item (item : value) (st : enc_state) : result enc_state :=
  match currentList st with
  | None => Throw TypeError
  | Some k =>
      match content st !! k with
      | Some (VObj p) =>
          match p_content p with
          | VArr items =>
              Ok (mkEnc (<[k := VObj (set_prop K_content (VArr (items ++ [item])) p)]> (content st))
                        (currentList st) (currentListType st))
          | _ => Throw TypeError
          end
      | _ => Throw TypeError
      end
  end.

(** [if (currentListType !== t) { currentList = {...}; content.push(currentList);
    currentListType = t }] *)
Definition open_list (t : list_type) (st : enc_state) : enc_state :=
  if decide (currentListType st = Some t) then st
  else mkEnc (content st ++ [list_node t []]) (Some (length (content st))) (Some t).

(** [content.push(node)] *)
Definition push_block (node : value) (st : enc_state) : enc_state :=
  mkEnc (content st ++ [node]) (currentList st) (currentListType st).

(** The condition of the heading arm, as it is written. *)
Definition is_heading (lines : list string) (i : nat) (line nextLine : string) : bool :=
  Nat.ltb 0 (String.length (Str.trim line))
  && ((Str.trim nextLine =? "") || Nat.eqb i (length lines - 1))
  && negb (Str.endsWithChar (Str.trim line) ".")
  && negb (Str.endsWithChar (Str.trim line) "?")
  && negb (Str.endsWithChar (Str.trim line) "!")
  && Nat.ltb (String.length (Str.trim line)) 50.

(** One turn of the loop, [i < lines.length].  [lines[i + 1] || ""] is the
    empty string beyond the last line. *)
Definition loop_body (lines : list string) (i : nat) (st : enc_state) : result enc_state :=
  let line := default "" (lines !! i) in
  let nextLine := default "" (lines !! (i + 1)) in
  (* empty line: currentList = null; currentListType = null; continue *)
  if Str.trim line =? "" then
    Ok (mkEnc (content st) None None)
  (* bullet point *)
  else if Str.startsWith (Str.trim line) "- " then
    let listItem := Str.substring_from 2 (Str.trim line) in
    push_item (listItem_node listItem) (open_list bullet st)
  else
    (* numbered list: the item is the second group of the match *)
    match numberedMatch (Str.trim line) with
    | Some (_, listItem) =>
        push_item (listItem_node listItem) (open_list ordered st)
    | None =>
        (* heading, else regular paragraph; neither touches currentList *)
        if is_heading lines i line nextLine then
          Ok (push_block (heading_node (Str.trim line)) st)
        else
          Ok (push_block (paragraph_node line) st)
    end.

(** [for (let i = from; i < from + n; i++) st = body(i, st)] *)
Definition for_loop {St} (body : nat -> St -> result St) (from n : nat) (st : St) : result St :=
  foldM (fun st i => body i st) (seq from n) st.

Definition convertToADF (text : string) : result value :=
  let lines := Str.split Str.LF text in
  let* st := for_loop (loop_body lines) 0 (length lines) (mkEnc [] None None) in
  Ok (doc_node (content st)).

(** ** convertADFToMarkdown *)

(** [o?.k] *)
Definition opt_chain (k : key) (o : value) : value :=
  if nullish o then VUndefined else prop k o.

(** [typeof v === 'object'] *)
Definition typeof_object (v : value) : bool :=
  match v with
  | VNull | VArr _ | VObj _ => true
  | _ => false
  end.

Definition mapiM {A B} (f : nat -> A -> result B) : nat -> list A -> result (list B) :=
  fix go i l :=
    match l with
    | [] => Ok []
    | x :: r => let* y := f i x in let* ys := go (S i) r in Ok (y :: ys)
    end.

(** The three ways a test of [o.content] followed by a call of an array
    method on it can go, for an [o] that is not [null] or [undefined]:
    the property is falsy ([absent]), it is an array ([seq]), or it is
    truthy and has no such method ([other]). *)
Definition content_case {R} (o : value) (absent : R) (seq : list value -> R) (other : R) : R :=
  match o with
  | VObj p =>
      match p_content p with
      | VArr l => seq l
      | c => if truthy c then other else absent
      end
  | _ => absent
  end.

(** [o.content ? o.content.map(f).join(sep) : ''] *)
Definition map_join (f : value -> result string) (sep : string) (o : value) : result string :=
  content_case o (Ok "")
    (fun l => let* ss := mapM f l in Ok (Str.join sep ss))
    (Throw TypeError).

(** The count taken by [String.prototype.repeat]: its argument through
    ToNumber and ToIntegerOrInfinity; a negative count is a RangeError.
    ToNumber of an object goes through ["[object Object]"] to NaN, which
    counts as 0; of a string or an array it parses a numeric literal, which
    is not embedded.  The largest length of a string, which the language
    leaves to the runtime, is not modelled. *)
Definition repeat_count (v : value) : result nat :=
  match v with
  | VUndefined | VNull | VObj _ => Ok 0
  | VBool b => Ok (if b then 1 else 0)
  | VNum n => if (n <? 0)%Z then Throw RangeError else Ok (Z.to_nat n)
  | VStr _ | VArr _ => Unsupported
  end.

(** One turn of the loop over [node.marks]. *)
Definition apply_mark (text : string) (mark : value) : result string :=
  if nullish mark then Throw TypeError else
  let type := prop K_type mark in
  if is_string type "strong" then Ok ("**" ++ text ++ "**")
  else if is_string type "em" then Ok ("*" ++ text ++ "*")
  else if is_string type "code" then Ok ("`" ++ text ++ "`")
  else if is_string type "strike" then Ok ("~~" ++ text ++ "~~")
  else if is_string type "link" then
    Ok ("[" ++ text ++ "]("
        ++ ToString (or_else (opt_chain K_href (prop K_attrs mark)) (VStr "")) ++ ")")
  else Ok text.

(** [if (node.marks) for (const mark of node.marks) ...].  An array is
    iterated; a string is iterated character by character, and a character
    has no [type]; any other truthy value is not iterable. *)
Definition apply_marks (text : string) (marks : value) : result string :=
  if truthy marks then
    match marks with
    | VArr l => foldM apply_mark l text
    | VStr _ => Ok text
    | _ => Throw TypeError
    end
  else Ok text.

(** The body of [processListItem], over the function it calls on the
    children. *)
Definition processListItem_body (processNode : value -> result string)
    (node : value) (listType : list_type) (index : option nat) : result string :=
  if nullish node then Throw TypeError else
  let* content := map_join processNode "" node in
  let prefix :=
    match listType with
    | bullet => "- "
    | ordered => match index with Some i => Str.of_nat i | None => "undefined" end ++ ". "
    end in
  Ok (prefix ++ Str.replaceAll Str.LF (Str.nl ++ "  ") content).

Definition table_line (row : list string) : string :=
  "| " ++ Str.join " | " row ++ " |".

(** The body of [processTable]. *)
Definition processTable_body (processNode : value -> result string)
    (node : value) : result string :=
  content_case node (Ok "")
    (fun rows =>
       match rows with
       | [] => Ok ""
       | _ =>
         let* tableRows :=
           foldM (fun tableRows row =>
                    if nullish row then Throw TypeError else
                    content_case row (Ok tableRows)
                      (fun row_content =>
                         let* cells :=
                           foldM (fun cells cell =>
                                    if nullish cell then Throw TypeError else
                                    let* cellContent := map_join processNode "" cell in
                                    Ok (cells ++ [Str.replaceAll "|" "\|" cellContent])%list)
                                 row_content [] in
                         Ok (tableRows ++ [cells])%list)
                      (Ok tableRows))
                 rows [] in
         match tableRows with
         | [] => Ok ""
         | headerRow :: bodyRows =>
             let separator := map (fun _ => "---") headerRow in
             let markdownRows :=
               table_line headerRow :: table_line separator :: map table_line bodyRows in
             Ok (Str.join Str.nl markdownRows)
         end
       end)
    (Ok "").

(** The arms of [switch (node.type)]. *)
Inductive node_type :=
| T_doc | T_paragraph | T_text | T_heading | T_bulletList | T_orderedList
| T_listItem | T_codeBlock | T_blockquote | T_rule | T_table | T_image
| T_hardBreak | T_default.

Definition switch_type (type : value) : node_type :=
  if is_string type "doc" then T_doc
  else if is_string type "paragraph" then T_paragraph
  else if is_string type "text" then T_text
  else if is_string type "heading" then T_heading
  else if is_string type "bulletList" then T_bulletList
  else if is_string type "orderedList" then T_orderedList
  else if is_string type "listItem" then T_listItem
  else if is_string type "codeBlock" then T_codeBlock
  else if is_string type "blockquote" then T_blockquote
  else if is_string type "rule" then T_rule
  else if is_string type "table" then T_table
  else if is_string type "image" then T_image
  else if is_string type "hardBreak" then T_hardBreak
  else T_default.

(** [processNode] returns a string in every case but one: a [text] node
    without marks returns [node.text] as it is.  Every caller joins the
    results, which applies ToString; the embedding applies it at once. *)
Fixpoint processNode (node : value) : result string :=
  if negb (truthy node) || negb (truthy (prop K_type node)) then Ok "" else
  match switch_type (prop K_type node) with
  | T_doc =>
      map_join processNode (Str.nl ++ Str.nl) node
  | T_paragraph =>
      map_join processNode "" node
  | T_text =>
      let text := ToString (or_else (prop K_text node) (VStr "")) in
      apply_marks text (prop K_marks node)
  | T_heading =>
      let level := or_else (opt_chain K_level (prop K_attrs node)) (VNum 1) in
      let* count := repeat_count level in
      let headingMarker := Str.repeat "#" count in
      let* headingContent := map_join processNode "" node in
      Ok (headingMarker ++ " " ++ headingContent)
  | T_bulletList =>
      content_case node (Ok "")
        (fun l =>
           let* ss := mapM (fun item => processListItem_body processNode item bullet None) l in
           Ok (Str.join Str.nl ss))
        (Throw TypeError)
  | T_orderedList =>
      content_case node (Ok "")
        (fun l =>
           let* ss := mapiM (fun index item =>
                               processListItem_body processNode item ordered (Some (index + 1)))
                            0 l in
           Ok (Str.join Str.nl ss))
        (Throw TypeError)
  | T_listItem =>
      map_join processNode Str.nl node
  | T_codeBlock =>
      let language := ToString (or_else (opt_chain K_language (prop K_attrs node)) (VStr "")) in
      let* code := map_join processNode Str.nl node in
      Ok ("```" ++ language ++ Str.nl ++ code ++ Str.nl ++ "```")
  | T_blockquote =>
      let* quoteContent := map_join processNode (Str.nl ++ Str.nl) node in
      Ok (Str.join Str.nl (map (fun line => "> " ++ line) (Str.split Str.LF quoteContent)))
  | T_rule =>
      Ok "---"
  | T_table =>
      processTable_body processNode node
  | T_image =>
      let alt := ToString (or_else (opt_chain K_alt (prop K_attrs node)) (VStr "")) in
      let src := ToString (or_else (opt_chain K_src (prop K_attrs node)) (VStr "")) in
      Ok ("![" ++ alt ++ "](" ++ src ++ ")")
  | T_hardBreak =>
      Ok Str.nl
  | T_default =>
      map_join processNode "" node
  end.

Definition processListItem : value -> list_type -> option nat -> result string :=
  processListItem_body processNode.

Definition processTable : value -> result string :=
  processTable_body processNode.

Definition convertADFToMarkdown (adf : value) : result string :=
  if negb (truthy adf) || negb (typeof_object adf) then Ok "" else
  let content := or_else (prop K_content adf) adf in
  match content with
  | VArr l =>
      let* ss := mapM processNode l in
      Ok (Str.trim (Str.join (Str.nl ++ Str.nl) ss))
  | _ => Ok ""
  end.

Definition render_after_encode (text : string) : result string :=
  let* doc := convertToADF text in convertADFToMarkdown doc.

(** ** getJiraFields *)

(** The own properties of the object literal [FIELD_SETS]. *)
Definition FIELD_SETS : gmap string (list string) :=
  <["basic" := ["summary"; "description"; "status"]]>
  (<["navigable" := ["*navigable"; "Rank"]]>
  (<["full" := ["*navigable"; "id"; "key"; "summary"; "description"; "status";
                "assignee"; "reporter"; "created"; "updated"; "resolutiondate";
                "parent"; "subtasks"; "issuelinks"; "comment"; "worklog"; "Rank"]]>
   ∅)).

(** [FIELD_SETS] is an object literal, so its prototype is
    [Object.prototype], and a read [FIELD_SETS[k]] that finds no own
    property [k] goes on to the members of the prototype.  These are their
    names; all of them are functions, but [__proto__], an accessor that
    gives the prototype object. *)
Definition Object_prototype_names : list string :=
  [ "constructor"; "hasOwnProperty"; "isPrototypeOf"; "propertyIsEnumerable";
    "toLocaleString"; "toString"; "valueOf"; "__proto__";
    "__defineGetter__"; "__defineSetter__"; "__lookupGetter__"; "__lookupSetter__" ].

(** What a property read on [FIELD_SETS] gives. *)
Inductive member :=
| Fields (names : list string)
| Inherited (name : string)
| NoMember.

Definition FIELD_SETS_get (k : string) : member :=
  match FIELD_SETS !! k with
  | Some names => Fields names
  | None => if existsb (String.eqb k) Object_prototype_names then Inherited k else NoMember
  end.

(** [fieldSet] is [None] for an argument that is [undefined], which takes
    the default of the parameter.  An array and a member of the prototype
    are truthy, so [||] goes to its right side for [NoMember] only. *)
Definition getJiraFields (fieldSet : option string) : member :=
  let fieldSet := default "navigable" fieldSet in
  match FIELD_SETS_get fieldSet with
  | NoMember => FIELD_SETS_get "navigable"
  | m => m
  end.

(** ** The tools and their schemas *)

Module Tools.

(** The double quote, for the descriptions that hold one. *)
Definition dq : string := String "034" "".

(** A member of [properties]: [enum] and [items] are absent from most. *)
Record property_schema := mkProperty {
  ps_type : string;
  ps_enum : option (list string);
  ps_items : option string;
  ps_description : string }.

Record input_schema := mkSchema {
  schema_type : string;
  properties : list (string * property_schema);
  required : list string }.

Record tool_definition := mkTool {
  description : string;
  inputSchema : input_schema }.

Definition string_property (description : string) : property_schema :=
  mkProperty "string" None None description.

Definition string_array_property (description : string) : property_schema :=
  mkProperty "array" None (Some "string") description.

Definition fieldSet_property : property_schema :=
  mkProperty "string" (Some ["basic"; "navigable"; "full"]) None
    "Optional field set to determine which fields to include in the response (default: 'navigable')".

(** The object literal [toolDefinitions], its members in the order they
    are written, which is the order [Object.entries] gives them in. *)
Definition toolDefinitions : list (string * tool_definition) :=
  [ ("jira_delete_issue",
     mkTool "Delete a Jira issue or subtask"
       (mkSchema "object"
          [("issueKey", string_property "Jira issue key to delete (e.g., 'PROJECT-123')")]
          ["issueKey"]));
    ("jira_get_issues",
     mkTool "Get all issues and subtasks for a Jira project with optional JQL filtering"
       (mkSchema "object"
          [("projectKey",
            string_property ("Jira project key (e.g., " ++ dq ++ "PP" ++ dq ++ " or "
                             ++ dq ++ "TEST" ++ dq ++ ")"));
           ("jql", string_property "Optional Jira Query Language (JQL) to filter issues");
           ("fieldSet", fieldSet_property)]
          ["projectKey"]));
    ("jira_update_issue",
     mkTool "Update an existing Jira issue's fields"
       (mkSchema "object"
          [("issueKey", string_property "Jira issue key to update (e.g., 'PROJECT-123')");
           ("summary", string_property "New summary/title for the Jira issue");
           ("description", string_property "New description for the Jira issue");
           ("assignee", string_property "Email of new assignee for the Jira issue");
           ("status", string_property "New status for the Jira issue");
           ("priority", string_property "New priority for the Jira issue")]
          ["issueKey"]));
    ("jira_list_fields",
     mkTool "List all available fields in Jira for issue creation and updates"
       (mkSchema "object" [] []));
    ("jira_list_issue_types",
     mkTool "List all available Jira issue types with optional project filtering"
       (mkSchema "object"
          [("projectKey",
            string_property "Optional Jira project key to filter issue types by project")]
          []));
    ("jira_list_link_types",
     mkTool "List all available Jira issue link types (e.g., blocks, is blocked by)"
       (mkSchema "object" [] []));
    ("jira_get_user",
     mkTool "Get a Jira user's account ID by their email address"
       (mkSchema "object"
          [("email", string_property "Jira user's email address")]
          ["email"]));
    ("jira_create_issue",
     mkTool "Create a new issue in Jira with specified fields"
       (mkSchema "object"
          [("projectKey",
            string_property ("Jira project key (e.g., " ++ dq ++ "PP" ++ dq ++ " or "
                             ++ dq ++ "TEST" ++ dq ++ ")"));
           ("summary", string_property "Summary/title for the new Jira issue");
           ("issueType",
            string_property ("Type of Jira issue (e.g., " ++ dq ++ "Task" ++ dq ++ ", "
                             ++ dq ++ "Bug" ++ dq ++ ", " ++ dq ++ "Story" ++ dq ++ ")"));
           ("description", string_property "Detailed description for the new Jira issue");
           ("assignee", string_property "Email of the assignee for the new Jira issue");
           ("labels", string_array_property "Array of labels to apply to the new Jira issue");
           ("components",
            string_array_property "Array of Jira component names to include in the issue");
           ("priority", string_property "Priority level for the new Jira issue")]
          ["projectKey"; "summary"; "issueType"]));
    ("jira_create_issue_link",
     mkTool "Create a link between two Jira issues (e.g., blocks, relates to)"
       (mkSchema "object"
          [("inwardIssueKey",
            string_property "Key of the inward Jira issue (e.g., blocked issue 'PROJECT-123')");
           ("outwardIssueKey",
            string_property "Key of the outward Jira issue (e.g., blocking issue 'PROJECT-456')");
           ("linkType",
            string_property "Type of Jira issue link (e.g., 'blocks', 'relates to')")]
          ["inwardIssueKey"; "outwardIssueKey"; "linkType"]));
    ("jira_read_issue",
     mkTool "Read a single Jira issue, providing detailed information about the issue"
       (mkSchema "object"
          [("issueKey", string_property "Jira issue key to read (e.g., 'PROJECT-123')");
           ("fieldSet", fieldSet_property)]
          ["issueKey"])) ].

(** An element of the answer to a [ListTools] request: [{name, ...def}]. *)
Record tool := mkListed {
  name : string;
  tool_description : string;
  tool_inputSchema : input_schema }.

(** The handler of [ListToolsRequestSchema]. *)
Definition listTools : list tool :=
  map (fun entry => mkListed entry.1 (description entry.2) (inputSchema entry.2))
      toolDefinitions.

End Tools.

(** ** The arguments of a tool call and their validation *)

(** [request.params.arguments], of type [unknown] for the validators: a
    plain object, given by its own properties, or any other value.  The
    names read from it ([issueKey], [projectKey], [summary], [issueType],
    [email], [fieldSet], [inwardIssueKey], [outwardIssueKey], [linkType])
    are not defined on [Object.prototype] nor on [Array.prototype], so a
    read finds an own property or gives [undefined]. *)
Inductive arguments :=
| ArgsValue (v : value)
| ArgsObject (fields : gmap string value).

(** ToBoolean and [typeof args === "object"]. *)
Definition args_truthy (args : arguments) : bool :=
  match args with
  | ArgsValue v => truthy v
  | ArgsObject _ => true
  end.

Definition args_typeof_object (args : arguments) : bool :=
  match args with
  | ArgsValue v => typeof_object v
  | ArgsObject _ => true
  end.

(** [args === null] *)
Definition args_is_null (args : arguments) : bool :=
  match args with
  | ArgsValue VNull => true
  | _ => false
  end.

(** [args.k], and [const { k } = args], for [args] other than [null] and
    [undefined]. *)
Definition arg (k : string) (args : arguments) : value :=
  match args with
  | ArgsObject fields => default VUndefined (fields !! k)
  | ArgsValue _ => VUndefined
  end.

Inductive ErrorCode := InvalidParams | MethodNotFound.

(** [new McpError(code, message)], the one exception the handlers raise
    themselves. *)
Inductive McpError := mkMcpError (code : ErrorCode) (message : string).

(** A validator returns [true] or raises. *)
Inductive outcome (A : Type) :=
| Returns (a : A)
| Raises (e : McpError).

Arguments Returns {A}.
Arguments Raises {A}.

(** [m; k]: [k] runs when [m] has returned. *)
Definition and_then {A B} (m : outcome A) (k : outcome B) : outcome B :=
  match m with
  | Returns _ => k
  | Raises e => Raises e
  end.

(** [typeof v !== "string" || v.length === 0] *)
Definition not_a_filled_string (v : value) : bool :=
  match v with
  | VStr s => Nat.eqb (String.length s) 0
  | _ => true
  end.

(** [v !== undefined] *)
Definition defined (v : value) : bool :=
  match v with
  | VUndefined => false
  | _ => true
  end.

(** [typeof v !== "string"] *)
Definition not_a_string (v : value) : bool :=
  match v with
  | VStr _ => false
  | _ => true
  end.

(** The first test of every validator. *)
Definition must_be_an_object (args : arguments) : outcome bool :=
  if negb (args_typeof_object args) || args_is_null args
  then Raises (mkMcpError InvalidParams "Arguments must be an object")
  else Returns true.

Definition validateDeleteIssueArgs (args : arguments) : outcome bool :=
  and_then (must_be_an_object args)
    (let issueKey := arg "issueKey" args in
     if not_a_filled_string issueKey
     then Raises (mkMcpError InvalidParams "Issue key is required and must be a string")
     else Returns true).

Definition validateCreateIssueArgs (args : arguments) : outcome bool :=
  and_then (must_be_an_object args)
    (let projectKey := arg "projectKey" args in
     let summary := arg "summary" args in
     let issueType := arg "issueType" args in
     if not_a_filled_string projectKey
     then Raises (mkMcpError InvalidParams "Project key is required and must be a string")
     else if not_a_filled_string summary
     then Raises (mkMcpError InvalidParams "Summary is required and must be a string")
     else if not_a_filled_string issueType
     then Raises (mkMcpError InvalidParams "Issue type is required and must be a string")
     else Returns true).

Definition validateGetUserArgs (args : arguments) : outcome bool :=
  and_then (must_be_an_object args)
    (let email := arg "email" args in
     if not_a_filled_string email
     then Raises (mkMcpError InvalidParams "Email is required and must be a string")
     else Returns true).

Definition validateGetIssuesArgs (args : arguments) : outcome bool :=
  and_then (must_be_an_object args)
    (let projectKey := arg "projectKey" args in
     let fieldSet := arg "fieldSet" args in
     if not_a_filled_string projectKey
     then Raises (mkMcpError InvalidParams "Project key is required and must be a string")
     else if defined fieldSet && negb (is_string fieldSet "basic")
             && negb (is_string fieldSet "full") && negb (is_string fieldSet "navigable")
     then Raises (mkMcpError InvalidParams
                    "Field set must be either 'basic', 'full', or 'navigable'")
     else Returns true).

Definition validateUpdateIssueArgs (args : arguments) : outcome bool :=
  and_then (must_be_an_object args)
    (let issueKey := arg "issueKey" args in
     if not_a_filled_string issueKey
     then Raises (mkMcpError InvalidParams "Issue key is required and must be a string")
     else Returns true).

Definition validateCreateIssueLinkArgs (args : arguments) : outcome bool :=
  and_then (must_be_an_object args)
    (let inwardIssueKey := arg "inwardIssueKey" args in
     let outwardIssueKey := arg "outwardIssueKey" args in
     let linkType := arg "linkType" args in
     if not_a_filled_string inwardIssueKey
     then Raises (mkMcpError InvalidParams "Inward issue key is required and must be a string")
     else if not_a_filled_string outwardIssueKey
     then Raises (mkMcpError InvalidParams "Outward issue key is required and must be a string")
     else if not_a_filled_string linkType
     then Raises (mkMcpError InvalidParams "Link type is required and must be a string")
     else Returns true).

Definition validateReadIssueArgs (args : arguments) : outcome bool :=
  and_then (must_be_an_object args)
    (let issueKey := arg "issueKey" args in
     let fieldSet := arg "fieldSet" args in
     if not_a_filled_string issueKey
     then Raises (mkMcpError InvalidParams "Issue key is required and must be a string")
     else if defined fieldSet && negb (is_string fieldSet "basic")
             && negb (is_string fieldSet "navigable") && negb (is_string fieldSet "full")
     then Raises (mkMcpError InvalidParams
                    "Field set must be either 'basic', 'navigable', or 'full'")
     else Returns true).

Definition validateListIssueTypesArgs (args : arguments) : outcome bool :=
  and_then (must_be_an_object args)
    (let projectKey := arg "projectKey" args in
     if defined projectKey && not_a_string projectKey
     then Raises (mkMcpError InvalidParams "Project key must be a string")
     else Returns true).

(** ** The handler of a tool call, up to its first call of Jira *)

(** The cases of [switch (request.params.name)]. *)
Inductive tool_case :=
| jira_list_fields | jira_list_link_types | jira_list_issue_types | jira_get_issues
| jira_update_issue | jira_get_user | jira_read_issue | jira_create_issue
| jira_delete_issue | jira_create_issue_link.

(** [if (!request.params.arguments || typeof request.params.arguments !== "object")
    throw ...], the test that opens every case but two. *)
Definition arguments_are_required (args : arguments) : outcome bool :=
  if negb (args_truthy args) || negb (args_typeof_object args)
  then Raises (mkMcpError InvalidParams "Arguments are required")
  else Returns true.

(** What the handler of [CallToolRequestSchema] does with the name and the
    arguments of the request before any call of the Jira client: the case
    that goes on, or the exception raised. *)
Definition checked_case (name : string) (args : arguments) : outcome tool_case :=
  if name =? "jira_list_fields" then Returns jira_list_fields
  else if name =? "jira_list_link_types" then Returns jira_list_link_types
  else if name =? "jira_list_issue_types" then
    and_then (arguments_are_required args)
      (and_then (validateListIssueTypesArgs args) (Returns jira_list_issue_types))
  else if name =? "jira_get_issues" then
    and_then (arguments_are_required args)
      (and_then (validateGetIssuesArgs args) (Returns jira_get_issues))
  else if name =? "jira_update_issue" then
    and_then (arguments_are_required args)
      (and_then (validateUpdateIssueArgs args) (Returns jira_update_issue))
  else if name =? "jira_get_user" then
    and_then (arguments_are_required args)
      (and_then (validateGetUserArgs args) (Returns jira_get_user))
  else if name =? "jira_read_issue" then
    and_then (arguments_are_required args)
      (and_then (validateReadIssueArgs args) (Returns jira_read_issue))
  else if name =? "jira_create_issue" then
    and_then (arguments_are_required args)
      (and_then (validateCreateIssueArgs args) (Returns jira_create_issue))
  else if name =? "jira_delete_issue" then
    and_then (arguments_are_required args)
      (and_then (validateDeleteIssueArgs args) (Returns jira_delete_issue))
  else if name =? "jira_create_issue_link" then
    and_then (arguments_are_required args)
      (and_then (validateCreateIssueLinkArgs args) (Returns jira_create_issue_link))
  else Raises (mkMcpError MethodNotFound ("Unknown tool: " ++ name)).

(** [a ?? b] *)
Definition coalesce (a b : value) : value := if nullish a then b else a.

(** [getJiraFields(args.fieldSet ?? 'navigable')], in the cases
    [jira_get_issues] and [jira_read_issue].  An argument that is
    [undefined] takes the default of the parameter; any other is used as a
    property key, which is its ToString. *)
Definition requested_fields (args : arguments) : member :=
  match coalesce (arg "fieldSet" args) (VStr "navigable") with
  | VUndefined => getJiraFields None
  | fieldSet => getJiraFields (Some (ToString fieldSet))
  end.

(** *** Vocabulary: arguments that follow a schema *)

(** A value of the type a member of [properties] declares. *)
Definition fits (ps : Tools.property_schema) (v : value) : bool :=
  match v with
  | VStr s =>
      (Tools.ps_type ps =? "string")
      && match Tools.ps_enum ps with
         | Some allowed => existsb (String.eqb s) allowed
         | None => true
         end
  | VArr items =>
      (Tools.ps_type ps =? "array")
      && forallb (fun item => match item with VStr _ => true | _ => false end) items
  | _ => false
  end.

(** [fields] has a string that is not empty under each required name, and
    what it has under a declared name is of the declared type. *)
Definition follows (schema : Tools.input_schema) (fields : gmap string value) : bool :=
  forallb (fun k => negb (not_a_filled_string (default VUndefined (fields !! k))))
          (Tools.required schema)
  && forallb (fun entry =>
                match fields !! entry.1 with
                | Some v => negb (defined v) || fits entry.2 v
                | None => true
                end)
             (Tools.properties schema).

(** ** The handlers and the Jira client *)

(** *** Values received from Jira *)

(** What a method of the client resolves to: parsed JSON, or [undefined]
    for an answer without a body.  An object holds each name once. *)
Inductive json :=
| JUndefined
| JNull
| JBool (b : bool)
| JNum (n : Z)
| JStr (s : string)
| JArr (items : list json)
| JObj (members : list (string * json)).

Definition jnullish (v : json) : bool :=
  match v with
  | JUndefined | JNull => true
  | _ => false
  end.

Definition jtruthy (v : json) : bool :=
  match v with
  | JUndefined | JNull => false
  | JBool b => b
  | JNum n => negb (n =? 0)%Z
  | JStr s => negb (s =? "")
  | JArr _ | JObj _ => true
  end.

(** [typeof v === 'object'] *)
Definition jtypeof_object (v : json) : bool :=
  match v with
  | JNull | JArr _ | JObj _ => true
  | _ => false
  end.

(** The own property [k] of an object, [undefined] when it has none. *)
Fixpoint own (k : string) (members : list (string * json)) : json :=
  match members with
  | [] => JUndefined
  | (k', v) :: rest => if k =? k' then v else own k rest
  end.

(** [v.k], for the names the handlers read ([length] apart, none of them
    is defined on a prototype): a TypeError on [null] and [undefined]. *)
Definition jget (k : string) (v : json) : result json :=
  match v with
  | JUndefined | JNull => Throw TypeError
  | JObj members => Ok (own k members)
  | JArr items => Ok (if k =? "length" then JNum (Z.of_nat (length items)) else JUndefined)
  | JStr s => Ok (if k =? "length" then JNum (Z.of_nat (String.length s)) else JUndefined)
  | JBool _ | JNum _ => Ok JUndefined
  end.

(** [v?.k] *)
Definition jget_optional (k : string) (v : json) : result json :=
  if jnullish v then Ok JUndefined else jget k v.

(** [v[0]] *)
Definition jfirst (v : json) : result json :=
  match v with
  | JUndefined | JNull => Throw TypeError
  | JArr items => Ok (default JUndefined (head items))
  | JStr (String c _) => Ok (JStr (String c ""))
  | JStr "" => Ok JUndefined
  | JObj members => Ok (own "0" members)
  | JBool _ | JNum _ => Ok JUndefined
  end.

(** [v > 0]: the comparison of a number; of [undefined] (NaN) and [null]
    (0) it is false; a string, an array or an object would be converted to
    a number first, which is not embedded. *)
Definition greater_than_zero (v : json) : result bool :=
  match v with
  | JNum n => Ok (0 <? n)%Z
  | JBool b => Ok b
  | JUndefined | JNull => Ok false
  | JStr _ | JArr _ | JObj _ => Unsupported
  end.

(** [v === 0] *)
Definition is_zero (v : json) : bool :=
  match v with
  | JNum n => (n =? 0)%Z
  | _ => false
  end.

(** [a === b], and the comparison made by [includes], for values taken
    from two different answers: an object or an array of one is never the
    same object as one of the other. *)
Definition strict_equal (a b : json) : bool :=
  match a, b with
  | JUndefined, JUndefined | JNull, JNull => true
  | JBool x, JBool y => Bool.eqb x y
  | JNum x, JNum y => (x =? y)%Z
  | JStr x, JStr y => (x =? y)
  | _, _ => false
  end.

(** [toLowerCase] on the code units below 256: the letters A to Z, and
    U+00C0 to U+00DE but the multiplication sign U+00D7. *)
Definition lower_char (c : ascii) : ascii :=
  let n := nat_of_ascii c in
  if (Nat.leb 65 n && Nat.leb n 90) || (Nat.leb 192 n && Nat.leb n 214)
     || (Nat.leb 216 n && Nat.leb n 222)
  then ascii_of_nat (n + 32) else c.

Fixpoint toLowerCase (s : string) : string :=
  match s with
  | String c r => String (lower_char c) (toLowerCase r)
  | EmptyString => EmptyString
  end.

(** [v.toLowerCase()]: only a string has the method. *)
Definition jtoLowerCase (v : json) : result string :=
  match v with
  | JStr s => Ok (toLowerCase s)
  | _ => Throw TypeError
  end.

(** The same for a value of the arguments, under [?.]: [undefined] for
    [null] and [undefined]. *)
Definition toLowerCase_optional (v : value) : result json :=
  match v with
  | VUndefined | VNull => Ok JUndefined
  | VStr s => Ok (JStr (toLowerCase s))
  | _ => Throw TypeError
  end.

(** [array.find(test)]: the first element that passes, else [undefined]. *)
Definition jfind (test : json -> result bool) : list json -> result json :=
  fix go l :=
    match l with
    | [] => Ok JUndefined
    | x :: r => let* found := test x in if found then Ok x else go r
    end.

(** [array.filter(test)] *)
Definition jfilter (test : json -> result bool) : list json -> result (list json) :=
  fix go l :=
    match l with
    | [] => Ok []
    | x :: r =>
        let* keep := test x in
        let* rest := go r in
        Ok (if keep then x :: rest else rest)
    end.

(** The elements of [v] when a call of an array method on it is possible:
    anything but an array has no [map], [filter] or [find]. *)
Definition jarray (v : json) : result (list json) :=
  match v with
  | JArr items => Ok items
  | _ => Throw TypeError
  end.

(** The name of a property that the renderer reads. *)
Definition key_of_name (k : string) : option key :=
  if k =? "version" then Some K_version
  else if k =? "type" then Some K_type
  else if k =? "content" then Some K_content
  else if k =? "text" then Some K_text
  else if k =? "marks" then Some K_marks
  else if k =? "attrs" then Some K_attrs
  else if k =? "level" then Some K_level
  else if k =? "language" then Some K_language
  else if k =? "alt" then Some K_alt
  else if k =? "src" then Some K_src
  else if k =? "href" then Some K_href
  else None.

(** A value of Jira as [convertADFToMarkdown] sees it: of an object, the
    properties it reads. *)
Fixpoint to_value (v : json) : value :=
  match v with
  | JUndefined => VUndefined
  | JNull => VNull
  | JBool b => VBool b
  | JNum n => VNum n
  | JStr s => VStr s
  | JArr items => VArr (map to_value items)
  | JObj members =>
      VObj ((fix props_of (ms : list (string * json)) : props value :=
               match ms with
               | [] => no_props
               | (k, x) :: rest =>
                   match key_of_name k with
                   | Some key => set_prop key (to_value x) (props_of rest)
                   | None => props_of rest
                   end
               end) members)
  end.

(** [o.k = x] on an object that has the property [k]. *)
Fixpoint assign (k : string) (x : json) (members : list (string * json))
    : list (string * json) :=
  match members with
  | [] => [(k, x)]
  | (k', v) :: rest => if k =? k' then (k, x) :: rest else (k', v) :: assign k x rest
  end.

(** *** Calls, answers and outcomes *)

(** What the handlers build: the bodies of their requests and what they
    serialise in their results.  A member whose value is [undefined] is
    kept, as it is in the object literal. *)
Inductive data :=
| OfArguments (v : value)
| OfJira (v : json)
| Text (s : string)
| Flag (b : bool)
| Number (n : Z)
| FieldNames (names : member)
| Object (members : list (string * data))
| Items (items : list data).

(** The methods of the Jira client that the handlers call. *)
Inductive jira_call :=
| listFields
| listIssueLinkTypes
| listIssueTypes
| getProject (projectKey : value)
| searchJira (jql : string) (options : data)
| searchUsers (options : data)
| listTransitions (issueKey : value)
| transitionIssue (issueKey : value) (transition : data)
| updateIssue (issueKey : value) (update : data)
| getIssue (issueKey : value) (fields : member)
| addNewIssue (issue : data)
| deleteIssue (issueKey : value)
| issueLink (link : data).

(** The name of the method called. *)
Definition method_name (c : jira_call) : string :=
  match c with
  | listFields => "listFields"
  | listIssueLinkTypes => "listIssueLinkTypes"
  | listIssueTypes => "listIssueTypes"
  | getProject _ => "getProject"
  | searchJira _ _ => "searchJira"
  | searchUsers _ => "searchUsers"
  | listTransitions _ => "listTransitions"
  | transitionIssue _ _ => "transitionIssue"
  | updateIssue _ _ => "updateIssue"
  | getIssue _ _ => "getIssue"
  | addNewIssue _ => "addNewIssue"
  | deleteIssue _ => "deleteIssue"
  | issueLink _ => "issueLink"
  end.

(** The reason of a rejection, as far as the handler looks at it: whether
    it is an [Error], and then its message. *)
Inductive reason :=
| AnError (message : string)
| NotAnError.

(** How the promise of a call settles. *)
Inductive reply :=
| Resolves (v : json)
| Rejects (r : reason).

(** What is thrown inside the handler. *)
Inductive thrown :=
| ThrownMcp (e : McpError)
| ThrownJs (e : JsError)
| Rejection (r : reason).

(** A computation that awaits calls of the client: it returns, throws,
    leaves the embedded fragment, or makes a call and goes on with the way
    its promise settles. *)
Inductive run (A : Type) :=
| Done (a : A)
| Raise (t : thrown)
| Outside
| Await (c : jira_call) (k : reply -> run A).

Arguments Done {A}.
Arguments Raise {A}.
Arguments Outside {A}.
Arguments Await {A}.

Fixpoint run_bind {A B} (f : A -> run B) (m : run A) : run B :=
  match m with
  | Done a => f a
  | Raise t => Raise t
  | Outside => Outside
  | Await c k => Await c (fun r => run_bind f (k r))
  end.

#[global] Instance run_mbind : MBind run := @run_bind.
#[global] Instance run_mret : MRet run := @Done.

(** [await jira.method(...)]: a rejection is thrown where it is awaited. *)
Definition await (c : jira_call) : run json :=
  Await c (fun r => match r with
                    | Resolves v => Done v
                    | Rejects e => Raise (Rejection e)
                    end).

(** A computation without calls, inside a handler. *)
Definition now {A} (m : result A) : run A :=
  match m with
  | Ok a => Done a
  | Throw e => Raise (ThrownJs e)
  | Unsupported => Outside
  end.

(** [try { m } catch (error) { handler(error) }] *)
Fixpoint try_catch {A} (m : run A) (handler : thrown -> run A) : run A :=
  match m with
  | Done a => Done a
  | Raise t => handler t
  | Outside => Outside
  | Await c k => Await c (fun r => try_catch (k r) handler)
  end.

(** The text of a result: a serialisation [JSON.stringify(d, null, 2)], a
    string, or [Operation failed: ] followed by the message of what was
    caught.  Serialisation and the messages of exceptions belong to the
    runtime and to the libraries, and are kept as they are named here. *)
Inductive result_text :=
| Stringified (d : data)
| Plain (s : string)
| OperationFailed (t : thrown).

(** [{ content: [{ type: "text", text }], isError }]; [isError] is left
    out of a result that is not an error. *)
Record tool_result := mkToolResult {
  result_text_of : result_text;
  isError : bool }.

Definition success (d : data) : tool_result := mkToolResult (Stringified d) false.

(** [convertToADF(v)]: [split] is a method of strings only. *)
Definition convertToADF_of (v : value) : result value :=
  match v with
  | VStr s => convertToADF s
  | _ => Throw TypeError
  end.

(** *** The cases of the switch, after validation *)

(** [DEFAULT_PROJECT.KEY] and [DEFAULT_MANAGER.EMAIL] of the
    configuration. *)
Definition DEFAULT_PROJECT_KEY : string := "CPG".
Definition DEFAULT_MANAGER_EMAIL : string := "ghsstephens@gmail.com".

(** What the handlers write to the error stream is left out. *)

Section Cases.

(** [JIRA_HOST] of the configuration, a string that is not empty. *)
Variable JIRA_HOST : string.

Variable args : arguments.

Definition case_list_fields : run tool_result :=
  response ← await listFields;
  mret (success (OfJira response)).

Definition case_list_link_types : run tool_result :=
  response ← await listIssueLinkTypes;
  mret (success (OfJira response)).

(** [{ id: type.id, name: type.name, description: type.description,
    subtask: type.subtask }] *)
Definition issue_type_summary (type : json) : result data :=
  let* id := jget "id" type in
  let* name := jget "name" type in
  let* description := jget "description" type in
  let* subtask := jget "subtask" type in
  Ok (Object [("id", OfJira id); ("name", OfJira name);
              ("description", OfJira description); ("subtask", OfJira subtask)]).

(** The body of the inner [try]: the types of [allIssueTypes] whose [id]
    is among those of the project, or all of them for a project without
    [issueTypes]. *)
Definition project_issue_types (allIssueTypes project : json) : result json :=
  let* issueTypes := jget_optional "issueTypes" project in
  if jtruthy issueTypes then
    let* types := jarray issueTypes in
    let* projectIssueTypeIds := mapM (jget "id") types in
    let* all := jarray allIssueTypes in
    let* kept := jfilter (fun type =>
                            let* id := jget "id" type in
                            Ok (existsb (strict_equal id) projectIssueTypeIds))
                         all in
    Ok (JArr kept)
  else Ok allIssueTypes.

Definition case_list_issue_types : run tool_result :=
  response ←
    (if truthy (arg "projectKey" args) then
       allIssueTypes ← await listIssueTypes;
       try_catch
         (project ← await (getProject (arg "projectKey" args));
          now (project_issue_types allIssueTypes project))
         (fun _ => mret allIssueTypes)
     else await listIssueTypes);
  types ← now (jarray response);
  summaries ← now (mapM issue_type_summary types);
  mret (success (Items summaries)).

(** [issue.fields?.description] *)
Definition description_of (issue : json) : result json :=
  let* fields := jget "fields" issue in
  jget_optional "description" fields.

(** The body of the loop over [response.issues].  A description that is
    truthy is a property of an object [fields], itself a property of an
    object [issue]: the assignment replaces it there. *)
Definition convert_description (issue : json) : result json :=
  let* description := description_of issue in
  if jtruthy description && jtypeof_object description then
    let* markdown := convertADFToMarkdown (to_value description) in
    match issue with
    | JObj issue_members =>
        match own "fields" issue_members with
        | JObj fields_members =>
            Ok (JObj (assign "fields"
                        (JObj (assign "description" (JStr markdown) fields_members))
                        issue_members))
        | _ => Ok issue
        end
    | _ => Ok issue
    end
  else Ok issue.

Definition case_get_issues : run tool_result :=
  let jql :=
    if truthy (arg "jql" args)
    then "project = " ++ ToString (arg "projectKey" args) ++ " AND " ++ ToString (arg "jql" args)
    else "project = " ++ ToString (arg "projectKey" args) in
  response ← await (searchJira jql (Object [("maxResults", Number 100);
                                            ("fields", FieldNames (requested_fields args))]));
  issues ← now (jget "issues" response);
  issues ← match issues with
           | JArr items => converted ← now (mapM convert_description items); mret (JArr converted)
           | _ => mret issues
           end;
  mret (success (OfJira issues)).

(** The statements of the case [jira_update_issue], one after the other;
    [updateFields] is the object that the first three and the fifth add
    to. *)
Definition set_summary (updateFields : list (string * data)) : list (string * data) :=
  if truthy (arg "summary" args)
  then (updateFields ++ [("summary", OfArguments (arg "summary" args))])%list
  else updateFields.

Definition set_description (updateFields : list (string * data))
    : run (list (string * data)) :=
  if truthy (arg "description" args) then
    description ← now (convertToADF_of (arg "description" args));
    mret (updateFields ++ [("description", OfArguments description)])%list
  else mret updateFields.

Definition set_assignee (updateFields : list (string * data))
    : run (list (string * data)) :=
  if truthy (arg "assignee" args) then
    users ← await (searchUsers (Object [("query", OfArguments (arg "assignee" args));
                                        ("includeActive", Flag true);
                                        ("maxResults", Number 1)]));
    found ← now (if jtruthy users
                 then let* length := jget "length" users in greater_than_zero length
                 else Ok false);
    if (found : bool) then
      accountId ← now (let* user := jfirst users in jget "accountId" user);
      mret (updateFields ++ [("assignee", Object [("accountId", OfJira accountId)])])%list
    else mret updateFields
  else mret updateFields.

(** The test of [find]: the names are compared in lower case. *)
Definition names_status (t : json) : result bool :=
  let* name := jget "name" t in
  let* name := jtoLowerCase name in
  let* status := toLowerCase_optional (arg "status" args) in
  Ok (strict_equal (JStr name) status).

Definition change_status : run unit :=
  if truthy (arg "status" args) then
    transitions ← await (listTransitions (arg "issueKey" args));
    transition ← now (let* list := jget "transitions" transitions in
                      let* list := jarray list in
                      jfind names_status list);
    if jtruthy transition then
      id ← now (jget "id" transition);
      _ ← await (transitionIssue (arg "issueKey" args)
                   (Object [("transition", Object [("id", OfJira id)])]));
      mret tt
    else mret tt
  else mret tt.

Definition set_priority (updateFields : list (string * data)) : list (string * data) :=
  if truthy (arg "priority" args)
  then (updateFields ++ [("priority", Object [("name", OfArguments (arg "priority" args))])])%list
  else updateFields.

Definition send_update (updateFields : list (string * data)) : run unit :=
  if Nat.ltb 0 (length updateFields) then
    _ ← await (updateIssue (arg "issueKey" args) (Object [("fields", Object updateFields)]));
    mret tt
  else mret tt.

Definition updated : tool_result :=
  success
    (Object [("message", Text "Issue updated successfully");
             ("issue",
              Object [("key", OfArguments (arg "issueKey" args));
                      ("url", Text ("https://" ++ JIRA_HOST ++ "/browse/"
                                    ++ ToString (arg "issueKey" args)))])]).

Definition case_update_issue : run tool_result :=
  updateFields ← set_description (set_summary []);
  updateFields ← set_assignee updateFields;
  _ ← change_status;
  _ ← send_update (set_priority updateFields);
  mret updated.

Definition case_get_user : run tool_result :=
  response ← await (searchUsers (Object [("query", OfArguments (arg "email" args));
                                         ("includeActive", Flag true);
                                         ("maxResults", Number 1)]));
  none ← now (if negb (jtruthy response) then Ok true
              else let* length := jget "length" response in Ok (is_zero length));
  if (none : bool) then
    mret (mkToolResult (Plain ("No user found with email: " ++ ToString (arg "email" args))) true)
  else
    user ← now (jfirst response);
    accountId ← now (jget "accountId" user);
    displayName ← now (jget "displayName" user);
    emailAddress ← now (jget "emailAddress" user);
    mret (success (Object [("accountId", OfJira accountId);
                           ("displayName", OfJira displayName);
                           ("emailAddress", OfJira emailAddress)])).

Definition case_read_issue : run tool_result :=
  issue ← await (getIssue (arg "issueKey" args) (requested_fields args));
  mret (success (OfJira issue)).

(** [args.components?.map((name) => ({ name }))] *)
Definition components_of (components : value) : result data :=
  match components with
  | VUndefined | VNull => Ok (OfArguments VUndefined)
  | VArr names => Ok (Items (map (fun name => Object [("name", OfArguments name)]) names))
  | _ => Throw TypeError
  end.

Definition case_create_issue : run tool_result :=
  let projectKey := coalesce (arg "projectKey" args) (VStr DEFAULT_PROJECT_KEY) in
  let assignee := coalesce (arg "assignee" args) (VStr DEFAULT_MANAGER_EMAIL) in
  description ← now (if truthy (arg "description" args)
                     then let* doc := convertToADF_of (arg "description" args) in
                          Ok (OfArguments doc)
                     else Ok (OfArguments VUndefined));
  components ← now (components_of (arg "components" args));
  response ← await (addNewIssue
    (Object [("fields",
      Object [("project", Object [("key", OfArguments projectKey)]);
              ("summary", OfArguments (arg "summary" args));
              ("issuetype", Object [("name", OfArguments (arg "issueType" args))]);
              ("description", description);
              ("assignee", Object [("accountId", OfArguments assignee)]);
              ("labels", OfArguments (arg "labels" args));
              ("components", components);
              ("priority", if truthy (arg "priority" args)
                           then Object [("name", OfArguments (arg "priority" args))]
                           else OfArguments VUndefined);
              ("parent", if truthy (arg "parent" args)
                         then Object [("key", OfArguments (arg "parent" args))]
                         else OfArguments VUndefined)])]));
  id ← now (jget "id" response);
  key ← now (jget "key" response);
  mret (success
          (Object [("message", Text "Issue created successfully");
                   ("issue",
                    Object [("id", OfJira id); ("key", OfJira key);
                            ("url", Text ("https://" ++ JIRA_HOST ++ "/browse/"
                                          ++ ToString (to_value key)))])])).

Definition case_delete_issue : run tool_result :=
  _ ← await (deleteIssue (arg "issueKey" args));
  mret (success (Object [("message", Text "Issue deleted successfully");
                         ("issueKey", OfArguments (arg "issueKey" args))])).

Definition case_create_issue_link : run tool_result :=
  _ ← await (issueLink
               (Object [("inwardIssue", Object [("key", OfArguments (arg "inwardIssueKey" args))]);
                        ("outwardIssue", Object [("key", OfArguments (arg "outwardIssueKey" args))]);
                        ("type", Object [("name", OfArguments (arg "linkType" args))])]));
  mret (success
          (Object [("message", Text "Issue link created successfully");
                   ("link",
                    Object [("inward", OfArguments (arg "inwardIssueKey" args));
                            ("outward", OfArguments (arg "outwardIssueKey" args));
                            ("type", OfArguments (arg "linkType" args))])])).

Definition case_body (c : tool_case) : run tool_result :=
  match c with
  | jira_list_fields => case_list_fields
  | jira_list_link_types => case_list_link_types
  | jira_list_issue_types => case_list_issue_types
  | jira_get_issues => case_get_issues
  | jira_update_issue => case_update_issue
  | jira_get_user => case_get_user
  | jira_read_issue => case_read_issue
  | jira_create_issue => case_create_issue
  | jira_delete_issue => case_delete_issue
  | jira_create_issue_link => case_create_issue_link
  end.

End Cases.

(** The handler of [CallToolRequestSchema]: the checks of the case, then
    its body, all of it inside [try]; what is caught becomes a result. *)
Definition callTool (JIRA_HOST : string) (name : string) (args : arguments) : run tool_result :=
  try_catch
    (match checked_case name args with
     | Returns c => case_body JIRA_HOST args c
     | Raises e => Raise (ThrownMcp e)
     end)
    (fun error => Done (mkToolResult (OperationFailed error) true)).

(** *** Running a handler against a client *)

(** A client answers a call knowing the calls made before it. *)
Definition client := list jira_call -> jira_call -> reply.

Inductive ending (A : Type) :=
| Returned (a : A)
| Threw (t : thrown)
| LeftFragment.

Arguments Returned {A}.
Arguments Threw {A}.
Arguments LeftFragment {A}.

(** The calls made, in order, and how the computation ends. *)
Fixpoint exec {A} (jira : client) (made : list jira_call) (m : run A)
    : list jira_call * ending A :=
  match m with
  | Done a => (made, Returned a)
  | Raise t => (made, Threw t)
  | Outside => (made, LeftFragment)
  | Await c k => exec jira (made ++ [c])%list (k (jira made c))
  end.

(** *** Vocabulary: the calls a computation makes *)

(** The member [k] of an object that a handler has built. *)
Definition member_of (k : string) (d : data) : option data :=
  match d with
  | Object members => snd <$> find (fun entry => String.eqb k entry.1) members
  | _ => None
  end.

(** The methods called by [m], in order, are among [allowed], in order. *)
Definition calls_among {A} (jira : client) (m : run A) (allowed : list string) : Prop :=
  forall made, exists more,
    (exec jira made m).1 = (made ++ more)%list /\ sublist (map method_name more) allowed.

(** The methods of the client written in each case, in the order they are
    written. *)
Definition methods_of (c : tool_case) : list string :=
  match c with
  | jira_list_fields => ["listFields"]
  | jira_list_link_types => ["listIssueLinkTypes"]
  | jira_list_issue_types => ["listIssueTypes"; "getProject"]
  | jira_get_issues => ["searchJira"]
  | jira_update_issue => ["searchUsers"; "listTransitions"; "transitionIssue"; "updateIssue"]
  | jira_get_user => ["searchUsers"]
  | jira_read_issue => ["getIssue"]
  | jira_create_issue => ["addNewIssue"]
  | jira_delete_issue => ["deleteIssue"]
  | jira_create_issue_link => ["issueLink"]
  end.

(** ** Vocabulary of the statements *)

(** *** Nodes used as examples *)

Definition container_node (type : string) (kids : list value) : value :=
  obj [(K_type, VStr type); (K_content, VArr kids)].

Definition hardBreak_node : value := obj [(K_type, VStr "hardBreak")].

Definition mark_node (type : string) : value := obj [(K_type, VStr type)].

Definition text_with_marks (s : string) (marks : list value) : value :=
  obj [(K_type, VStr "text"); (K_text, VStr s); (K_marks, VArr marks)].

(** A table of plain cells, as the tracker sends it: rows of cells, each
    cell holding one paragraph. *)
Definition table_node (rows : list (list string)) : value :=
  container_node "table"
    (map (fun row => container_node "tableRow"
                       (map (fun s => container_node "tableCell" [paragraph_node s]) row))
         rows).

(** A quote of two paragraphs. *)
Definition blockquote_ab : value :=
  container_node "blockquote" [paragraph_node "a"; paragraph_node "b"].

(** A list item holding a paragraph and a nested list. *)
Definition nested_list_example : value :=
  list_node bullet
    [container_node "listItem"
       [paragraph_node "a";
        list_node bullet [listItem_node "b"; listItem_node "c"]]].

(** A short title, a blank line, a sentence. *)
Definition sample_text : string :=
  "Title" ++ Str.nl ++ Str.nl ++ "A longer sentence that ends here.".

(** *** Strings *)

Definition no_leading_space (s : string) : Prop :=
  match s with
  | String c _ => Str.is_space c = false
  | EmptyString => True
  end.

Definition no_trailing_space (s : string) : Prop :=
  match Str.last_char s with
  | Some c => Str.is_space c = false
  | None => True
  end.

(** [s] has no line feed: it is its only line. *)
Definition one_line (s : string) : Prop := Str.split Str.LF s = [s].

Fixpoint all_digits (s : string) : bool :=
  match s with
  | String c r => Str.is_digit c && all_digits r
  | EmptyString => true
  end.

(** *** Lines of the input text *)

Definition bullet_line (line : string) : Prop :=
  Str.startsWith (Str.trim line) "- " = true.

Definition bullet_text (line : string) : string :=
  Str.substring_from 2 (Str.trim line).


(** Line [i] is the last one, or the next one is blank. *)
Definition followed_by_blank_or_last (lines : list string) (i : nat) : bool :=
  match lines !! (i + 1) with
  | Some next => (Str.trim next =? "")
  | None => true
  end.

Definition no_terminal_punctuation (s : string) : bool :=
  negb (Str.endsWithChar s ".") && negb (Str.endsWithChar s "?")
  && negb (Str.endsWithChar s "!").

(** *** What convertToADF builds *)

(** The top-level nodes of a document made by [convertToADF]. *)
Inductive block : value -> Prop :=
| block_heading s : block (heading_node s)
| block_paragraph s : block (paragraph_node s)
| block_list t ss : ss <> [] -> block (list_node t (map listItem_node ss)).

(** Between two states of the loop an element of [content] stays as it is,
    or is a list that has received items at its end. *)
Definition grows (v v' : value) : Prop :=
  v' = v \/
  exists t ss more, v = list_node t (map listItem_node ss)
                    /\ v' = list_node t (map listItem_node (ss ++ more)).

Definition extends (c c' : list value) : Prop :=
  forall k v, c !! k = Some v -> exists v', c' !! k = Some v' /\ grows v v'.

(** When a list is open, [currentList] is the place of a list of that
    type in [content]. *)
Definition open_list_ok (st : enc_state) : Prop :=
  match currentListType st with
  | Some t => exists k ss, currentList st = Some k
                /\ content st !! k = Some (list_node t (map listItem_node ss))
                /\ ss <> []
  | None => True
  end.

Definition inv (st : enc_state) : Prop :=
  Forall block (content st) /\ open_list_ok st.

(** *** What convertADFToMarkdown takes *)

Definition returns {A} (m : result A) : Prop := exists a, m = Ok a.

(** What a row of a table gives to [tableRows]: the escaped renderings of
    its cells, or nothing when its [content] is not a sequence. *)
Definition row_cells (row : value) (rc : option (list string)) : Prop :=
  nullish row = false /\
  match rc with
  | Some cells =>
      exists cs texts,
        prop K_content row = VArr cs
        /\ Forall (fun cell => nullish cell = false) cs
        /\ mapM (map_join processNode "") cs = Ok texts
        /\ cells = map (Str.replaceAll "|" "\|") texts
  | None => forall cs, prop K_content row <> VArr cs
  end.

(** *** Lines, leaves, prefixes and marks *)

(** A blank line: nothing but white space. *)
Definition blank (line : string) : bool := (Str.trim line =? "").

(** The number of elements of [o.content]: for a block that [convertToADF]
    makes, its text leaves, one for a heading or a paragraph and one for
    each item of a list. *)
Definition leaves (o : value) : nat := content_case o 0 (@length value) 0.

Definition leaves_of (c : list value) : nat := list_sum (map leaves c).

(** [prefix] of [processListItem]; [index] is [None] when the argument is
    left out, as a bullet list does. *)
Definition item_prefix (listType : list_type) (index : option nat) : string :=
  match listType with
  | bullet => "- "
  | ordered => match index with Some i => Str.of_nat i | None => "undefined" end ++ ". "
  end.

(** The marks that change the text: the cases of [switch (mark.type)]. *)
Definition mark_recognized (mark : value) : bool :=
  is_string (prop K_type mark) "strong" || is_string (prop K_type mark) "em"
  || is_string (prop K_type mark) "code" || is_string (prop K_type mark) "strike"
  || is_string (prop K_type mark) "link".

(** A line of prose: not blank, not a list line, and ending, once trimmed,
    in [.], [?] or [!]. *)
Definition prose_line (line : string) : bool :=
  negb (blank line)
  && negb (Str.startsWith (Str.trim line) "- ")
  && match numberedMatch (Str.trim line) with Some _ => false | None => true end
  && negb (no_terminal_punctuation (Str.trim line)).

(** A numbered line, and the text of its item: the second group of the
    match. *)
Definition is_numbered (line : string) : bool :=
  match numberedMatch (Str.trim line) with Some _ => true | None => false end.

Definition numbered_text (line : string) : string :=
  match numberedMatch (Str.trim line) with Some (_, item) => item | None => "" end.

(** *** Runs of bullet lines *)






(** *** Objects of Jira after an assignment *)

(** [ms'] is [ms] after [o.k = x]: the same names in the same order, [x]
    under [k], and under every other name what [ms] has. *)
Definition replaces (k : string) (x : json) (ms ms' : list (string * json)) : Prop :=
  map fst ms' = map fst ms
  /\ own k ms' = x
  /\ forall k', k' <> k -> own k' ms' = own k' ms.

Arguments map_join : simpl never.
Arguments apply_marks : simpl never.
Arguments processListItem_body : simpl never.
Arguments processTable_body : simpl never.

Local Open Scope list_scope.

(** ** Checks of the embedding on small inputs *)

Example trim_ex : Str.trim ("  a b " ++ Str.nl)%string = "a b".
Proof. reflexivity. Qed.

Example split_ex : Str.split Str.LF ("a" ++ Str.nl ++ Str.nl ++ "b" ++ Str.nl)%string = ["a"; ""; "b"; ""].
Proof. reflexivity. Qed.

Example of_nat_ex : Str.of_nat 12 = "12" /\ Str.of_nat 0 = "0" /\ Str.of_Z (-3) = "-3".
Proof. repeat split. Qed.

Example convertToADF_bullets :
  convertToADF ("- a" ++ Str.nl ++ "- b")%string
  = Ok (doc_node [list_node bullet [listItem_node "a"; listItem_node "b"]]).
Proof. reflexivity. Qed.

Example convertToADF_heading_then_sentence :
  convertToADF ("Title" ++ Str.nl ++ Str.nl ++ "A longer sentence that ends here.")%string
  = Ok (doc_node [heading_node "Title"; paragraph_node "A longer sentence that ends here."]).
Proof. reflexivity. Qed.

(** The open list is an alias, not the last block: a bullet line after a
    paragraph line goes to the list opened before the paragraph. *)
Example convertToADF_list_stays_open :
  convertToADF ("- a" ++ Str.nl ++ "foo." ++ Str.nl ++ "- b")%string
  = Ok (doc_node [list_node bullet [listItem_node "a"; listItem_node "b"];
                  paragraph_node "foo."]).
Proof. reflexivity. Qed.

Example render_ordered : render_after_encode ("5. a" ++ Str.nl ++ "6. b")%string = Ok ("1. a" ++ Str.nl ++ "2. b")%string.
Proof. reflexivity. Qed.

Example getJiraFields_ex : getJiraFields (Some "basic") = Fields ["summary"; "description"; "status"]
  /\ getJiraFields (Some "bogus") = Fields ["*navigable"; "Rank"]
  /\ getJiraFields (Some "toString") = Inherited "toString".
Proof. vm_compute. auto. Qed.

Example unknown_type_concatenates :
  processNode (container_node "mention" [text_node "x"; text_node "y"]) = Ok "xy".
Proof. reflexivity. Qed.

(** Where the renderer raises: a list item that is [null], a negative
    level of a heading, a [marks] that cannot be iterated. *)
Example processNode_raises :
  processNode (list_node bullet [VNull]) = Throw TypeError
  /\ processNode (obj [(K_type, VStr "heading"); (K_attrs, obj [(K_level, VNum (-1))])])
     = Throw RangeError
  /\ processNode (obj [(K_type, VStr "text"); (K_text, VStr "x"); (K_marks, VNum 1)])
     = Throw TypeError.
Proof. repeat split. Qed.

(** The text of a numbered item stops at a carriage return inside the
    line, which the pattern does not cross. *)
Example numbered_item_stops_at_CR :
  numberedMatch ("12. a" ++ String Str.CR "b")%string = Some ("12", "a").
Proof. reflexivity. Qed.

(** ** Facts about strings *)

Lemma trimStart_no_leading_space s : no_leading_space (Str.trimStart s).
Proof.
  induction s as [|c s IH]; simpl; [done|].
  destruct (Str.is_space c) eqn:E; [done|]. simpl. done.
Qed.

Lemma trimEnd_no_trailing_space s : no_trailing_space (Str.trimEnd s).
Proof.
  unfold no_trailing_space. induction s as [|c s IH]; simpl; [done|].
  destruct (Str.trimEnd s) as [|d r] eqn:E.
  - destruct (Str.is_space c) eqn:Ec; simpl; done.
  - simpl in *. done.
Qed.

Lemma trimEnd_no_leading_space s : no_leading_space s -> no_leading_space (Str.trimEnd s).
Proof.
  destruct s as [|c s]; simpl; [done|]. intros Hc.
  destruct (Str.trimEnd s); [by rewrite Hc|done].
Qed.

Lemma trimStart_id s : no_leading_space s -> Str.trimStart s = s.
Proof. destruct s as [|c s]; simpl; [done|]. by intros ->. Qed.

Lemma trimEnd_id s : no_trailing_space s -> Str.trimEnd s = s.
Proof.
  unfold no_trailing_space. induction s as [|c s IH]; simpl; [done|].
  destruct s as [|d r].
  - simpl. by intros ->.
  - intros H. rewrite IH by done. done.
Qed.

Lemma trim_clean s : no_leading_space (Str.trim s) /\ no_trailing_space (Str.trim s).
Proof.
  unfold Str.trim. split.
  - apply trimEnd_no_leading_space, trimStart_no_leading_space.
  - apply trimEnd_no_trailing_space.
Qed.

Lemma trim_fixed s : no_leading_space s -> no_trailing_space s -> Str.trim s = s.
Proof. intros H1 H2. unfold Str.trim. rewrite trimStart_id by done. by apply trimEnd_id. Qed.

Lemma split_not_nil sep s : Str.split sep s <> [].
Proof.
  destruct s as [|c s]; simpl; [done|].
  destruct (Ascii.eqb c sep); [done|]. by destruct (Str.split sep s).
Qed.

Lemma one_line_cons c s :
  one_line (String c s) <-> Ascii.eqb c Str.LF = false /\ one_line s.
Proof.
  unfold one_line. simpl. destruct (Ascii.eqb c Str.LF) eqn:E.
  - split; [|by intros [? _]]. intros H. exfalso.
    pose proof (split_not_nil Str.LF s). destruct (Str.split Str.LF s); [done|discriminate].
  - pose proof (split_not_nil Str.LF s). destruct (Str.split Str.LF s) as [|l ls] eqn:Es; [done|].
    split.
    + intros H'. injection H' as -> ->. done.
    + intros [_ H']. by injection H' as -> ->.
Qed.

Lemma split_lines_one_line s : Forall one_line (Str.split Str.LF s).
Proof.
  induction s as [|c s IH]; simpl.
  - by constructor.
  - destruct (Ascii.eqb c Str.LF) eqn:E.
    + constructor; [done|done].
    + pose proof (split_not_nil Str.LF s).
      destruct (Str.split Str.LF s) as [|l ls]; [done|].
      apply Forall_cons in IH as [Hl Hls]. constructor; [|done].
      by apply one_line_cons.
Qed.

Lemma split_app_LF x s :
  one_line x -> Str.split Str.LF (x ++ String Str.LF s)%string = x :: Str.split Str.LF s.
Proof.
  induction x as [|c x IH]; intros H; simpl.
  - reflexivity.
  - apply one_line_cons in H as [Hc Hx]. rewrite Hc, IH by done. done.
Qed.

Lemma split_join xs :
  xs <> [] -> Forall one_line xs -> Str.split Str.LF (Str.join Str.nl xs) = xs.
Proof.
  induction xs as [|x xs IH]; [done|]. intros _ H.
  apply Forall_cons in H as [Hx Hxs]. destruct xs as [|y ys].
  - exact Hx.
  - change (Str.join Str.nl (x :: y :: ys))
      with (x ++ String Str.LF (Str.join Str.nl (y :: ys)))%string.
    rewrite split_app_LF by done. f_equal. by apply IH.
Qed.

Lemma one_line_app a b : one_line a -> one_line b -> one_line (a ++ b)%string.
Proof.
  induction a as [|c a IH]; simpl; [done|].
  intros [Hc Ha]%one_line_cons Hb. apply one_line_cons. split; [done|by apply IH].
Qed.

Lemma append_assoc_str (a b c : string) : ((a ++ b) ++ c = a ++ (b ++ c))%string.
Proof.
  induction a as [|x a IH]; [done|].
  change (String x ((a ++ b) ++ c) = String x (a ++ (b ++ c)))%string. by rewrite IH.
Qed.

Lemma last_char_app a b : b <> "" -> Str.last_char (a ++ b)%string = Str.last_char b.
Proof.
  intros Hb. induction a as [|x a IH]; simpl; [done|].
  rewrite IH. destruct (a ++ b)%string eqn:E; [|done].
  destruct a; simpl in E; [done|discriminate].
Qed.

(** A line that opens with the bullet marker is not blank. *)
Lemma startsWith_not_empty s p : p <> "" -> Str.startsWith s p = true -> (s =? "")%string = false.
Proof. intros Hp H. destruct s; [|done]. destruct p; [done|discriminate]. Qed.

Lemma startsWith_bullet s :
  Str.startsWith s "- " = true -> s = ("- " ++ Str.substring_from 2 s)%string.
Proof.
  destruct s as [|a [|b s]]; simpl; [done| |].
  - by rewrite andb_false_r.
  - intros H. apply andb_true_iff in H as [Ha H].
    apply andb_true_iff in H as [Hb _].
    apply Ascii.eqb_eq in Ha, Hb. by subst.
Qed.

Lemma startsWith_app p s : Str.startsWith (p ++ s)%string p = true.
Proof. induction p as [|c p IH]; simpl; [by destruct s|]. by rewrite Ascii.eqb_refl. Qed.


Lemma digit_not_LF c : Str.is_digit c = true -> Ascii.eqb c Str.LF = false.
Proof.
  intros H. apply Ascii.eqb_neq. intros ->. discriminate.
Qed.



Lemma digits_one_line d s : all_digits d = true -> one_line s -> one_line (d ++ s)%string.
Proof.
  intros Hd Hs. induction d as [|c d IH]; simpl in *; [done|].
  apply andb_true_iff in Hd as [Hc Hd]. apply one_line_cons.
  split; [by apply digit_not_LF|by apply IH].
Qed.

(** ** Facts about loops and outcomes *)

Lemma foldM_app {A St} (f : St -> A -> result St) l1 l2 s :
  foldM f (l1 ++ l2) s = let* s' := foldM f l1 s in foldM f l2 s'.
Proof.
  revert s. induction l1 as [|x l1 IH]; intros s; simpl; [done|].
  destruct (f s x); simpl; auto.
Qed.

Lemma foldM_snoc {A St} (f : St -> A -> result St) l x s :
  foldM f (l ++ [x]) s = let* s' := foldM f l s in f s' x.
Proof.
  revert s. induction l as [|y l IH]; intros s; simpl.
  - by destruct (f s x).
  - destruct (f s y); simpl; auto.
Qed.

Lemma for_loop_add {St} (body : nat -> St -> result St) from n m st :
  for_loop body from (n + m) st
  = let* st' := for_loop body from n st in for_loop body (from + n) m st'.
Proof. unfold for_loop. by rewrite seq_app, foldM_app. Qed.

Lemma for_loop_S {St} (body : nat -> St -> result St) from n st :
  for_loop body from (S n) st = let* st' := body from st in for_loop body (S from) n st'.
Proof. reflexivity. Qed.

Lemma for_loop_0 {St} (body : nat -> St -> result St) from st :
  for_loop body from 0 st = Ok st.
Proof. reflexivity. Qed.

Lemma returns_Ok {A} (a : A) : returns (Ok a).
Proof. by exists a. Qed.

Lemma mapM_returns {A B} (f : A -> result B) l :
  (forall x, In x l -> returns (f x)) -> returns (mapM f l).
Proof.
  induction l as [|x l IH]; intros H; simpl; [by eexists|].
  destruct (H x) as [y ->]; [by left|]. simpl.
  destruct IH as [ys ->]; [intros; apply H; by right|]. simpl. by eexists.
Qed.

(** ** The loop of convertToADF: what it keeps *)

Lemma grows_refl v : grows v v.
Proof. by left. Qed.

Lemma list_node_inj t t' l l' : list_node t l = list_node t' l' -> t = t' /\ l = l'.
Proof. destruct t, t'; intros H; inversion H; auto. Qed.

Lemma listItem_node_inj s s' : listItem_node s = listItem_node s' -> s = s'.
Proof. intros H; inversion H; auto. Qed.

Lemma map_listItem_inj l l' : map listItem_node l = map listItem_node l' -> l = l'.
Proof.
  revert l'; induction l as [|x l IH]; intros [|y l'] H; try discriminate; auto.
  simpl in H. inversion H; subst. f_equal; auto.
Qed.

Lemma grows_trans a b c : grows a b -> grows b c -> grows a c.
Proof.
  intros [->|(t & ss & m & -> & ->)] [->|(t' & ss' & m' & E & ->)]; try (by left).
  - right. eauto 6.
  - right. eauto 6.
  - apply list_node_inj in E as [<- E]. apply map_listItem_inj in E as <-.
    right. exists t, ss, (m ++ m')%list. by rewrite app_assoc.
Qed.

Lemma extends_refl c : extends c c.
Proof. intros k v H. eauto using grows_refl. Qed.

Lemma extends_trans a b c : extends a b -> extends b c -> extends a c.
Proof.
  intros H1 H2 k v H. destruct (H1 _ _ H) as (v' & H' & G).
  destruct (H2 _ _ H') as (v'' & H'' & G'). eauto using grows_trans.
Qed.

Lemma extends_app c l : extends c (c ++ l).
Proof.
  intros k v H. exists v. split; [|apply grows_refl].
  by apply lookup_app_l_Some.
Qed.

Lemma extends_insert c k v v' :
  c !! k = Some v -> grows v v' -> extends c (<[k := v']> c).
Proof.
  intros Hk G j w Hj. destruct (decide (j = k)) as [->|Hne].
  - exists v'. split.
    + apply list_lookup_insert_eq. by eapply lookup_lt_Some.
    + congruence.
  - exists w. split; [|apply grows_refl]. by rewrite list_lookup_insert_ne.
Qed.

Lemma grows_list t ss v' :
  grows (list_node t (map listItem_node ss)) v' ->
  exists more, v' = list_node t (map listItem_node (ss ++ more)).
Proof.
  intros [->|(t' & ss' & m & E & ->)].
  - exists []. by rewrite app_nil_r.
  - apply list_node_inj in E as [<- E]. apply map_listItem_inj in E as <-. eauto.
Qed.

Lemma grows_heading s v' : grows (heading_node s) v' -> v' = heading_node s.
Proof. intros [->|(t & ss & m & E & _)]; [done|]. destruct t; discriminate. Qed.

Lemma grows_paragraph s v' : grows (paragraph_node s) v' -> v' = paragraph_node s.
Proof. intros [->|(t & ss & m & E & _)]; [done|]. destruct t; discriminate. Qed.

Lemma push_item_list item st k t items :
  currentList st = Some k ->
  content st !! k = Some (list_node t items) ->
  push_item item st
  = Ok (mkEnc (<[k := list_node t (items ++ [item])]> (content st))
              (Some k) (currentListType st)).
Proof.
  intros Hk Hc. unfold push_item. rewrite Hk, Hc. reflexivity.
Qed.

Lemma list_step t s st :
  inv st ->
  exists k before c',
    push_item (listItem_node s) (open_list t st) = Ok (mkEnc c' (Some k) (Some t))
    /\ c' !! k = Some (list_node t (map listItem_node (before ++ [s])))
    /\ inv (mkEnc c' (Some k) (Some t))
    /\ extends (content st) c'
    /\ (currentListType st = Some t ->
        currentList st = Some k
        /\ content st !! k = Some (list_node t (map listItem_node before)))
    /\ (currentListType st <> Some t -> before = [] /\ k = length (content st))
    /\ (forall j, j <> k -> j < length (content st) -> c' !! j = content st !! j).
Proof.
  intros [Hb Ho].
  unfold open_list.
  destruct (decide (currentListType st = Some t)) as [Ht|Ht].
  - unfold open_list_ok in Ho. rewrite Ht in Ho.
    destruct Ho as (k & ss & Hk & Hc & Hne).
    exists k, ss, (<[k := list_node t (map listItem_node (ss ++ [s]))]> (content st)).
    assert (Hlt : k < length (content st)) by (by eapply lookup_lt_Some).
    rewrite (push_item_list _ _ _ _ _ Hk Hc), Ht.
    assert (E : (map listItem_node ss ++ [listItem_node s])%list
                = map listItem_node (ss ++ [s])) by (by rewrite map_app).
    rewrite E. split; [done|].
    split; [by apply list_lookup_insert_eq|].
    split; [|split; [|split; [done|split; [done|]]]].
    + split; simpl.
      * apply Forall_insert; [done|]. constructor. by destruct ss.
      * exists k, (ss ++ [s])%list. split; [done|]. split; [by apply list_lookup_insert_eq|].
        by destruct ss.
    + eapply extends_insert; [done|]. right. by exists t, ss, [s].
    + intros j Hj _. by apply list_lookup_insert_ne.
  - exists (length (content st)), [], (content st ++ [list_node t (map listItem_node [s])]).
    assert (Hl : (content st ++ [list_node t []]) !! length (content st) = Some (list_node t [])).
    { rewrite lookup_app_r by lia. by rewrite Nat.sub_diag. }
    rewrite (push_item_list (listItem_node s)
               (mkEnc (content st ++ [list_node t []]) (Some (length (content st))) (Some t))
               (length (content st)) t [] eq_refl Hl). simpl.
    assert (Hins : <[length (content st) := list_node t [listItem_node s]]>
                     (content st ++ [list_node t []])
                   = content st ++ [list_node t [listItem_node s]]).
    { rewrite insert_app_r_alt by lia. by rewrite Nat.sub_diag. }
    rewrite Hins. split; [done|].
    assert (Hl' : (content st ++ [list_node t [listItem_node s]]) !! length (content st)
                  = Some (list_node t [listItem_node s])).
    { rewrite lookup_app_r by lia. by rewrite Nat.sub_diag. }
    split; [done|]. split; [|split; [apply extends_app|split; [done|split; [done|]]]].
    + split; simpl.
      * apply Forall_app. split; [done|]. constructor; [|done].
        apply (block_list t [s]). done.
      * exists (length (content st)), [s]. done.
    + intros j _ Hj. by apply lookup_app_l.
Qed.


Lemma inv_init : inv (mkEnc [] None None).
Proof. split; simpl; [constructor|exact I]. Qed.

Lemma inv_push_block node st : inv st -> block node -> inv (push_block node st).
Proof.
  intros [Hb Ho] Hn. split; simpl.
  - apply Forall_app. split; [done|]. by constructor.
  - unfold open_list_ok in *. simpl. destruct (currentListType st); [|done].
    destruct Ho as (k & ss & Hk & Hc & Hne). exists k, ss.
    split; [done|]. split; [|done]. by apply lookup_app_l_Some.
Qed.

Section Loop.

(** The lines of the input, fixed during the loop. *)
Variable lines : list string.

Lemma loop_body_inv i st :
  inv st ->
  exists st', loop_body lines i st = Ok st' /\ inv st'
              /\ extends (content st) (content st').
Proof.
  intros Hinv. unfold loop_body.
  destruct (Str.trim (default "" (lines !! i)) =? "")%string.
  { eexists. split; [done|]. split; [|apply extends_refl].
    destruct Hinv. by split. }
  destruct (Str.startsWith _ _).
  { destruct (list_step bullet (Str.substring_from 2 (Str.trim (default "" (lines !! i)))) st Hinv)
      as (k & b & c' & -> & _ & Hi & He & _). eauto. }
  destruct (numberedMatch _) as [[d r]|].
  { destruct (list_step ordered r st Hinv) as (k & b & c' & -> & _ & Hi & He & _). eauto. }
  destruct (is_heading _ _ _ _).
  - eexists. split; [done|]. split; [|apply extends_app].
    apply inv_push_block; [done|constructor].
  - eexists. split; [done|]. split; [|apply extends_app].
    apply inv_push_block; [done|constructor].
Qed.

Lemma for_loop_inv from n st :
  inv st ->
  exists st', for_loop (loop_body lines) from n st = Ok st' /\ inv st'
              /\ extends (content st) (content st').
Proof.
  revert from st. induction n as [|n IH]; intros from st Hinv.
  - exists st. split; [done|]. split; [done|apply extends_refl].
  - rewrite for_loop_S.
    destruct (loop_body_inv from st Hinv) as (st1 & -> & H1 & E1). simpl.
    destruct (IH (S from) st1 H1) as (st' & -> & H' & E'). eauto using extends_trans.
Qed.

Lemma numberedMatch_not_bullet s :
  numberedMatch s <> None -> (s =? "") = false /\ Str.startsWith s "- " = false.
Proof.
  unfold numberedMatch. destruct s as [|c r]; simpl; [done|].
  destruct (Str.is_digit c) eqn:Hc; [|done]. intros _. split; [done|].
  replace (Ascii.eqb c "-") with false; [done|].
  symmetry. apply Ascii.eqb_neq. intros ->. discriminate.
Qed.




Lemma loop_body_bullet i line st :
  lines !! i = Some line -> bullet_line line ->
  loop_body lines i st = push_item (listItem_node (bullet_text line)) (open_list bullet st).
Proof.
  intros Hl Hb. unfold loop_body. rewrite Hl. simpl.
  rewrite (startsWith_not_empty _ "- ") by done. by rewrite Hb.
Qed.

Lemma bullet_run_open run : forall from st k acc,
  inv st ->
  currentListType st = Some bullet -> currentList st = Some k ->
  content st !! k = Some (list_node bullet (map listItem_node acc)) ->
  (forall j l, run !! j = Some l -> lines !! (from + j) = Some l) ->
  Forall bullet_line run ->
  exists st', for_loop (loop_body lines) from (length run) st = Ok st'
    /\ inv st' /\ extends (content st) (content st')
    /\ currentListType st' = Some bullet /\ currentList st' = Some k
    /\ content st' !! k = Some (list_node bullet (map listItem_node (acc ++ map bullet_text run))).
Proof.
  induction run as [|l run IH]; intros from st k acc Hinv Ht Hk Hc Hl Hb.
  - exists st. simpl. rewrite app_nil_r. split; [done|]. split; [done|].
    split; [apply extends_refl|done].
  - simpl length. rewrite for_loop_S.
    apply Forall_cons in Hb as [Hb1 Hb].
    rewrite (loop_body_bullet from l st); [|by rewrite <- (Hl 0 l eq_refl), Nat.add_0_r|done].
    destruct (list_step bullet (bullet_text l) st Hinv)
      as (k' & b & c' & -> & Hc' & Hi & He & Hsame & _ & _).
    destruct (Hsame Ht) as [Hk' Hcb]. simpl.
    assert (k' = k) as -> by congruence.
    assert (b = acc) as ->.
    { rewrite Hc in Hcb. assert (E : list_node bullet (map listItem_node acc)
                    = list_node bullet (map listItem_node b)) by congruence.
      apply list_node_inj in E as [_ E]. symmetry. by apply map_listItem_inj in E. }
    destruct (IH (S from) _ k (acc ++ [bullet_text l]) Hi eq_refl eq_refl Hc')
      as (st' & -> & Hi' & He' & Ht' & Hk'' & Hc''); [|done|].
    { intros j l' Hj. rewrite <- (Hl (S j) l' Hj). f_equal. lia. }
    exists st'. split; [done|]. split; [done|]. split; [by eapply extends_trans|].
    split; [done|]. split; [done|]. by rewrite <- app_assoc in Hc''.
Qed.

Lemma bullet_run run from st :
  inv st -> run <> [] ->
  (forall j l, run !! j = Some l -> lines !! (from + j) = Some l) ->
  Forall bullet_line run ->
  exists st' k before, for_loop (loop_body lines) from (length run) st = Ok st'
    /\ inv st' /\ extends (content st) (content st')
    /\ content st' !! k = Some (list_node bullet (map listItem_node (before ++ map bullet_text run)))
    /\ (currentListType st <> Some bullet -> before = [] /\ k = length (content st))
    /\ currentList st' = Some k /\ currentListType st' = Some bullet.
Proof.
  intros Hinv Hne Hl Hb. destruct run as [|l run]; [done|].
  apply Forall_cons in Hb as [Hb1 Hb]. simpl length. rewrite for_loop_S.
  rewrite (loop_body_bullet from l st); [|by rewrite <- (Hl 0 l eq_refl), Nat.add_0_r|done].
  destruct (list_step bullet (bullet_text l) st Hinv)
    as (k & b & c' & -> & Hc' & Hi & He & _ & Hfresh & _). simpl.
  destruct (bullet_run_open run (S from) _ k (b ++ [bullet_text l]) Hi eq_refl eq_refl Hc')
    as (st' & -> & Hi' & He' & Ht' & Hk' & Hc''); [|done|].
  { intros j l' Hj. rewrite <- (Hl (S j) l' Hj). f_equal. lia. }
  exists st', k, b. split; [done|]. split; [done|]. split; [by eapply extends_trans|].
  split; [by rewrite <- app_assoc in Hc''|]. done.
Qed.

End Loop.

Lemma convertToADF_blocks text :
  exists c, convertToADF text = Ok (doc_node c) /\ Forall block c.
Proof.
  unfold convertToADF.
  destruct (for_loop_inv (Str.split Str.LF text) 0 (length (Str.split Str.LF text))
              _ inv_init) as (st & -> & [Hb _] & _).
  simpl. eauto.
Qed.

(** The lines of the input from [i] on, after the state [st] reached at
    [i]: what is at a position of [content st] stays there, grown if it is
    a list. *)
Lemma convertToADF_from text i st :
  i <= length (Str.split Str.LF text) ->
  for_loop (loop_body (Str.split Str.LF text)) 0 i (mkEnc [] None None) = Ok st ->
  inv st ->
  exists c, convertToADF text = Ok (doc_node c) /\ extends (content st) c.
Proof.
  intros Hi Hst Hinv. unfold convertToADF.
  replace (length (Str.split Str.LF text)) with (i + (length (Str.split Str.LF text) - i)) by lia.
  rewrite for_loop_add, Hst. simpl.
  destruct (for_loop_inv (Str.split Str.LF text) i (length (Str.split Str.LF text) - i) st Hinv)
    as (st' & -> & _ & He).
  simpl. eauto.
Qed.

Lemma is_heading_spec lines i line :
  lines !! i = Some line -> Str.trim line <> "" ->
  is_heading lines i line (default "" (lines !! (i + 1)))
  = followed_by_blank_or_last lines i
    && no_terminal_punctuation (Str.trim line)
    && Nat.ltb (String.length (Str.trim line)) 50.
Proof.
  intros Hl Hne. unfold is_heading, followed_by_blank_or_last, no_terminal_punctuation.
  assert (Hlen : Nat.ltb 0 (String.length (Str.trim line)) = true).
  { destruct (Str.trim line); [done|reflexivity]. }
  rewrite Hlen. simpl.
  assert (Hi : i < length lines) by (by eapply lookup_lt_Some).
  destruct (lines !! (i + 1)) as [next|] eqn:Hn; simpl.
  - assert (i + 1 < length lines) by (by eapply lookup_lt_Some).
    replace (Nat.eqb i (length lines - 1)) with false
      by (symmetry; apply Nat.eqb_neq; lia).
    rewrite orb_false_r.
    by destruct (Str.trim next =? "")%string, (Str.endsWithChar _ "."),
         (Str.endsWithChar _ "?"), (Str.endsWithChar _ "!").
  - change (Str.trim "") with "". simpl.
    by destruct (Str.endsWithChar _ "."), (Str.endsWithChar _ "?"), (Str.endsWithChar _ "!").
Qed.



(** ** The renderer: its equations and where it returns *)

Lemma processNode_eq node :
  processNode node =
  if negb (truthy node) || negb (truthy (prop K_type node)) then Ok "" else
  match switch_type (prop K_type node) with
  | T_doc => map_join processNode (Str.nl ++ Str.nl)%string node
  | T_paragraph => map_join processNode "" node
  | T_text =>
      apply_marks (ToString (or_else (prop K_text node) (VStr ""))) (prop K_marks node)
  | T_heading =>
      let* count := repeat_count (or_else (opt_chain K_level (prop K_attrs node)) (VNum 1)) in
      let* headingContent := map_join processNode "" node in
      Ok (Str.repeat "#" count ++ " " ++ headingContent)%string
  | T_bulletList =>
      content_case node (Ok "")
        (fun l => let* ss := mapM (fun item => processListItem item bullet None) l in
                  Ok (Str.join Str.nl ss))
        (Throw TypeError)
  | T_orderedList =>
      content_case node (Ok "")
        (fun l => let* ss := mapiM (fun index item =>
                                      processListItem item ordered (Some (index + 1))) 0 l in
                  Ok (Str.join Str.nl ss))
        (Throw TypeError)
  | T_listItem => map_join processNode Str.nl node
  | T_codeBlock =>
      let* code := map_join processNode Str.nl node in
      Ok ("```" ++ ToString (or_else (opt_chain K_language (prop K_attrs node)) (VStr ""))
          ++ Str.nl ++ code ++ Str.nl ++ "```")%string
  | T_blockquote =>
      let* quoteContent := map_join processNode (Str.nl ++ Str.nl)%string node in
      Ok (Str.join Str.nl (map (fun line => "> " ++ line)%string (Str.split Str.LF quoteContent)))
  | T_rule => Ok "---"
  | T_table => processTable node
  | T_image =>
      Ok ("![" ++ ToString (or_else (opt_chain K_alt (prop K_attrs node)) (VStr ""))
          ++ "](" ++ ToString (or_else (opt_chain K_src (prop K_attrs node)) (VStr "")) ++ ")")%string
  | T_hardBreak => Ok Str.nl
  | T_default => map_join processNode "" node
  end.
Proof. destruct node; reflexivity. Qed.

Lemma content_case_seq {R} o l (a : R) f b :
  prop K_content o = VArr l -> content_case o a f b = f l.
Proof.
  destruct o as [| | | | | |p]; simpl; try discriminate. unfold content_case.
  by intros ->.
Qed.

Lemma content_case_absent {R} o (a : R) f b :
  truthy (prop K_content o) = false -> content_case o a f b = a.
Proof.
  destruct o as [| | | | | |p]; simpl; try done. unfold content_case.
  destruct (p_content p); simpl; try done; by intros ->.
Qed.

Lemma content_case_skip {R} o (a : R) f :
  (forall l, prop K_content o <> VArr l) -> content_case o a f a = a.
Proof.
  destruct o as [| | | | | |p]; simpl; try done. unfold content_case.
  destruct (p_content p) as [| | | | |l|]; simpl; try done.
  - by destruct b.
  - by destruct (negb _).
  - by destruct (negb _).
  - intros H. by destruct (H l).
Qed.

Lemma map_join_seq f sep o l ss :
  prop K_content o = VArr l -> mapM f l = Ok ss -> map_join f sep o = Ok (Str.join sep ss).
Proof. intros Hc Hm. unfold map_join. rewrite (content_case_seq o l) by done. by rewrite Hm. Qed.

Lemma map_join_absent f sep o :
  truthy (prop K_content o) = false -> map_join f sep o = Ok "".
Proof. intros H. unfold map_join. by rewrite content_case_absent. Qed.

Lemma text_node_render p :
  p_type p = VStr "text" ->
  processNode (VObj p)
  = apply_marks (ToString (or_else (p_text p) (VStr ""))) (p_marks p).
Proof. intros Ht. rewrite processNode_eq. simpl. by rewrite Ht. Qed.

Lemma set_marks_props x (p : props value) :
  p_type (set_prop K_marks x p) = p_type p
  /\ p_text (set_prop K_marks x p) = p_text p
  /\ p_marks (set_prop K_marks x p) = x.
Proof. by destruct p. Qed.

Lemma cells_fold f cs : forall texts acc,
  Forall (fun cell => nullish cell = false) cs ->
  mapM (map_join f "") cs = Ok texts ->
  foldM (fun cells cell =>
           if nullish cell then Throw TypeError else
           let* cellContent := map_join f "" cell in
           Ok (cells ++ [Str.replaceAll "|" "\|" cellContent]))
        cs acc
  = Ok (acc ++ map (Str.replaceAll "|" "\|") texts).
Proof.
  induction cs as [|c cs IH]; intros texts acc Hn Hm; simpl in *.
  - injection Hm as <-. by rewrite app_nil_r.
  - apply Forall_cons in Hn as [Hc Hn]. rewrite Hc.
    destruct (map_join f "" c) as [t| |]; simpl in *; try discriminate.
    destruct (mapM (map_join f "") cs) as [ts| |] eqn:E; simpl in *; try discriminate.
    injection Hm as <-. rewrite (IH ts) by done. simpl. by rewrite <- app_assoc.
Qed.

Lemma rows_fold rows : forall rcs acc,
  Forall2 row_cells rows rcs ->
  foldM (fun tableRows row =>
           if nullish row then Throw TypeError else
           content_case row (Ok tableRows)
             (fun row_content =>
                let* cells :=
                  foldM (fun cells cell =>
                           if nullish cell then Throw TypeError else
                           let* cellContent := map_join processNode "" cell in
                           Ok (cells ++ [Str.replaceAll "|" "\|" cellContent]))
                        row_content [] in
                Ok (tableRows ++ [cells]))
             (Ok tableRows))
        rows acc
  = Ok (acc ++ omap id rcs).
Proof.
  induction rows as [|row rows IH]; intros rcs acc H.
  - apply Forall2_nil_inv_l in H as ->. simpl. by rewrite app_nil_r.
  - apply Forall2_cons_inv_l in H as (rc & rcs' & [Hn Hrc] & Hrest & ->).
    simpl. rewrite Hn. destruct rc as [cells|].
    + destruct Hrc as (cs & texts & Hc & Hcn & Hm & ->).
      rewrite (content_case_seq row cs) by done.
      rewrite (cells_fold processNode cs texts []) by done. simpl.
      rewrite (IH rcs') by done. by rewrite <- app_assoc.
    + rewrite content_case_skip by done. simpl. by apply IH.
Qed.

(** What [processListItem] does with the children of an item: it renders
    them, concatenates the results and indents the lines after the first. *)
Lemma processListItem_concatenates item kids ss type idx :
  nullish item = false ->
  prop K_content item = VArr kids ->
  mapM processNode kids = Ok ss ->
  processListItem item type idx
  = Ok (match type with
        | bullet => "- "
        | ordered => match idx with Some i => Str.of_nat i | None => "undefined" end ++ ". "
        end ++ Str.replaceAll Str.LF (Str.nl ++ "  ") (Str.join "" ss))%string.
Proof.
  intros Hn Hc Hm. unfold processListItem, processListItem_body. rewrite Hn.
  by rewrite (map_join_seq _ _ _ kids ss).
Qed.

Lemma listItem_render t type idx :
  processListItem (listItem_node t) type idx
  = Ok (match type with
        | bullet => "- "
        | ordered => match idx with Some i => Str.of_nat i | None => "undefined" end ++ ". "
        end ++ Str.replaceAll Str.LF (Str.nl ++ "  ") t)%string.
Proof. by destruct t. Qed.

Lemma ordered_items_render texts : forall i,
  mapiM (fun index item => processListItem item ordered (Some (index + 1))) i
        (map listItem_node texts)
  = Ok (imap (fun j t => Str.of_nat (i + j + 1) ++ ". "
                         ++ Str.replaceAll Str.LF (Str.nl ++ "  ") t)%string texts).
Proof.
  induction texts as [|t texts IH]; intros i; [reflexivity|].
  cbn [map mapiM]. rewrite listItem_render. cbn [bind]. rewrite IH. cbn [bind].
  rewrite imap_cons, Nat.add_0_r. f_equal. f_equal.
  - apply append_assoc_str.
  - apply imap_ext. intros j x _. simpl. do 2 f_equal. lia.
Qed.

(** What [convertToADF] makes is rendered without an exception. *)
Lemma bullet_items_return texts :
  returns (mapM (fun item => processListItem item bullet None) (map listItem_node texts)).
Proof.
  induction texts as [|t texts IH]; [by eexists|].
  cbn [map mapM]. rewrite listItem_render. cbn [bind].
  destruct IH as [ss ->]. by eexists.
Qed.

Lemma block_returns v : block v -> returns (processNode v).
Proof.
  intros [s|s|t ss _].
  - exists ("## " ++ s)%string. by destruct s.
  - exists s. by destruct s.
  - rewrite processNode_eq. destruct t; simpl.
    + destruct (bullet_items_return ss) as [r ->]. by eexists.
    + rewrite (ordered_items_render ss 0). by eexists.
Qed.

Lemma block_shape v :
  block v ->
  In (prop K_type v) [VStr "heading"; VStr "paragraph"; VStr "bulletList"; VStr "orderedList"]
  /\ exists kids, prop K_content v = VArr kids /\ kids <> [].
Proof.
  intros [s|s|t ss Hne].
  - split; [by left|]. by eexists.
  - split; [right; by left|]. by eexists.
  - split; [destruct t; simpl; auto|].
    exists (map listItem_node ss). split; [by destruct t|]. by destruct ss.
Qed.

(** ** The properties *)

(** C1, on the code.  [convertADFToMarkdown] does not return a string for
    every value.  A paragraph whose [content] is a string makes it raise a
    TypeError (a string has no [map]), at the top level or inside a
    document, and so does every node that joins its children when its
    [content] is truthy and not a sequence; a list item, a table row, a
    table cell or a mark that is [null] raises a TypeError, and a negative
    level of a heading a RangeError.  The code guards the same situations
    where it meets them first: an argument that is not an object, or whose
    content is not a sequence, gives the empty string; a [null] node and a
    [null] child of a paragraph give the empty string; a table or a table
    row whose [content] is a string gives the empty string; a missing
    [content] gives the empty string, and for a heading, a code block and
    a quote an empty content inside their markers.  A node without [type]
    gives the empty string, its children are not rendered; a node of an
    unrecognized type gives the concatenation of its rendered children.
    [convertToADF] returns, for every string, a document of version 1
    whose content is made of headings, paragraphs and lists, none of them
    empty, and [convertADFToMarkdown] renders that document without
    raising; the empty string gives the document with no content. *)
Theorem convertADFToMarkdown_raises_on_string_content :
  convertADFToMarkdown (VArr [obj [(K_type, VStr "paragraph"); (K_content, VStr "x")]])
  = Throw TypeError
  /\ convertADFToMarkdown
       (obj [(K_type, VStr "doc");
             (K_content, VArr [obj [(K_type, VStr "paragraph"); (K_content, VStr "x")]])])
     = Throw TypeError
  /\ (forall node,
        truthy (prop K_type node) = true ->
        truthy (prop K_content node) = true ->
        (forall l, prop K_content node <> VArr l) ->
        In (switch_type (prop K_type node))
           [T_doc; T_paragraph; T_bulletList; T_orderedList; T_listItem;
            T_codeBlock; T_blockquote; T_default] ->
        processNode node = Throw TypeError)
  /\ processNode (obj [(K_type, VStr "bulletList"); (K_content, VArr [VNull])])
     = Throw TypeError
  /\ processNode (obj [(K_type, VStr "table"); (K_content, VArr [VNull])]) = Throw TypeError
  /\ processNode (obj [(K_type, VStr "table");
                       (K_content, VArr [obj [(K_type, VStr "tableRow");
                                              (K_content, VArr [VNull])]])])
     = Throw TypeError
  /\ processNode (obj [(K_type, VStr "text"); (K_text, VStr "x"); (K_marks, VArr [VNull])])
     = Throw TypeError
  /\ processNode (obj [(K_type, VStr "heading"); (K_attrs, obj [(K_level, VNum (-1))])])
     = Throw RangeError
  /\ (forall adf, truthy adf && typeof_object adf = false -> convertADFToMarkdown adf = Ok "")
  /\ (forall adf, (forall l, or_else (prop K_content adf) adf <> VArr l) ->
                  convertADFToMarkdown adf = Ok "")
  /\ processNode VNull = Ok ""
  /\ processNode (obj [(K_type, VStr "paragraph"); (K_content, VArr [VNull])]) = Ok ""
  /\ processNode (obj [(K_type, VStr "table"); (K_content, VStr "x")]) = Ok ""
  /\ processNode (obj [(K_type, VStr "table");
                       (K_content, VArr [obj [(K_type, VStr "tableRow");
                                              (K_content, VStr "x")]])])
     = Ok ""
  /\ (forall node,
        truthy (prop K_content node) = false ->
        In (switch_type (prop K_type node))
           [T_doc; T_paragraph; T_bulletList; T_orderedList; T_listItem; T_table; T_default] ->
        processNode node = Ok "")
  /\ processNode (obj [(K_type, VStr "heading")]) = Ok "# "
  /\ processNode (obj [(K_type, VStr "codeBlock")]) = Ok ("```" ++ Str.nl ++ Str.nl ++ "```")%string
  /\ processNode (obj [(K_type, VStr "blockquote")]) = Ok "> "
  /\ (forall node, truthy (prop K_type node) = false -> processNode node = Ok "")
  /\ processNode (obj [(K_content, VArr [obj [(K_type, VStr "text"); (K_text, VStr "x")]])])
     = Ok ""
  /\ (forall node kids ss,
        truthy (prop K_type node) = true ->
        switch_type (prop K_type node) = T_default ->
        prop K_content node = VArr kids ->
        mapM processNode kids = Ok ss ->
        processNode node = Ok (Str.join "" ss))
  /\ processNode (obj [(K_type, VStr "mention");
                       (K_content, VArr [obj [(K_type, VStr "text"); (K_text, VStr "x")];
                                         obj [(K_type, VStr "text"); (K_text, VStr "y")]])])
     = Ok "xy"
  /\ (forall text, exists doc c s,
        convertToADF text = Ok doc
        /\ prop K_version doc = VNum 1 /\ prop K_type doc = VStr "doc"
        /\ prop K_content doc = VArr c
        /\ Forall (fun node =>
                     In (prop K_type node)
                        [VStr "heading"; VStr "paragraph"; VStr "bulletList"; VStr "orderedList"]
                     /\ exists kids, prop K_content node = VArr kids /\ kids <> []) c
        /\ convertADFToMarkdown doc = Ok s)
  /\ convertToADF "" = Ok (obj [(K_version, VNum 1); (K_type, VStr "doc"); (K_content, VArr [])]).
Proof.
  repeat match goal with |- _ /\ _ => split end; try reflexivity.
  - intros node Ht Hc Hn Hin. rewrite processNode_eq, Ht.
    assert (Hnode : truthy node = true) by (by destruct node).
    rewrite Hnode. simpl negb. cbn [orb].
    assert (Hj : forall f sep, map_join f sep node = Throw TypeError).
    { intros f sep. unfold map_join, content_case.
      destruct node as [| | | | | |p]; try done. simpl in Hc, Hn.
      destruct (p_content p) as [| | | | |l|]; try done; try (by rewrite Hc).
      by destruct (Hn l). }
    assert (Hl : forall (a : result string) g, content_case node a g (Throw TypeError)
                                              = Throw TypeError).
    { intros a g. unfold content_case.
      destruct node as [| | | | | |p]; try done. simpl in Hc, Hn.
      destruct (p_content p) as [| | | | |l|]; try done; try (by rewrite Hc).
      by destruct (Hn l). }
    simpl in Hin.
    destruct (switch_type (prop K_type node));
      try (exfalso; repeat (destruct Hin as [Hin|Hin]; [discriminate|]); done);
      by rewrite ?Hj, ?Hl.
  - intros adf H. unfold convertADFToMarkdown.
    destruct (truthy adf), (typeof_object adf); done.
  - intros adf H. unfold convertADFToMarkdown.
    destruct (negb (truthy adf) || negb (typeof_object adf)); [done|].
    destruct (or_else (prop K_content adf) adf) as [| | | | |l|]; try done.
    by destruct (H l).
  - intros node Hc Hin. rewrite processNode_eq.
    destruct (negb (truthy node) || negb (truthy (prop K_type node))); [done|].
    simpl in Hin.
    destruct (switch_type _);
      try (exfalso; repeat (destruct Hin as [Hin|Hin]; [discriminate|]); done);
      try (by apply map_join_absent); try (by apply content_case_absent).
  - intros node H. rewrite processNode_eq, H. simpl. by rewrite orb_true_r.
  - intros node kids ss Ht Hs Hc Hm. rewrite processNode_eq, Ht, Hs.
    assert (Hn : truthy node = true) by (by destruct node).
    rewrite Hn. simpl. by apply (map_join_seq _ _ _ kids).
  - intros text. destruct (convertToADF_blocks text) as (c & Hc & Hb).
    assert (Hs : returns (mapM processNode c)).
    { apply mapM_returns. intros x Hin. apply block_returns.
      rewrite Forall_forall in Hb. apply Hb. by apply list_elem_of_In. }
    destruct Hs as [ss Hs].
    exists (doc_node c), c, (Str.trim (Str.join (Str.nl ++ Str.nl) ss)).
    split; [done|]. split; [done|]. split; [done|]. split; [done|]. split.
    + eapply Forall_impl; [exact Hb|]. apply block_shape.
    + unfold convertADFToMarkdown. simpl. by rewrite Hs.
Qed.

(** The turn of the loop for a line that is not blank and not a list
    line. *)
Lemma plain_line_turn (text : string) (i : nat) (line : string) :
  let lines := Str.split Str.LF text in
  let node :=
    if followed_by_blank_or_last lines i
       && no_terminal_punctuation (Str.trim line)
       && Nat.ltb (String.length (Str.trim line)) 50
    then heading_node (Str.trim line)
    else paragraph_node line in
  lines !! i = Some line ->
  Str.trim line <> "" ->
  Str.startsWith (Str.trim line) "- " = false ->
  numberedMatch (Str.trim line) = None ->
  exists st c,
    for_loop (loop_body lines) 0 i (mkEnc [] None None) = Ok st
    /\ loop_body lines i st = Ok (push_block node st)
    /\ convertToADF text = Ok (doc_node c)
    /\ c !! length (content st) = Some node.
Proof.
  intros lines node Hl Hne Hb Hn.
  destruct (for_loop_inv lines 0 i _ inv_init) as (st & Hst & Hinv & _).
  assert (Hbody : loop_body lines i st = Ok (push_block node st)).
  { unfold loop_body. rewrite Hl. simpl.
    apply String.eqb_neq in Hne. rewrite Hne, Hb, Hn.
    rewrite is_heading_spec by (by apply String.eqb_neq in Hne).
    subst node. by destruct (_ && _ && _). }
  assert (Hnode : block node) by (subst node; destruct (_ && _ && _); constructor).
  assert (Hi : i < length lines) by (by eapply lookup_lt_Some).
  destruct (convertToADF_from text (S i) (push_block node st)) as (c & Hc & He).
  { fold lines. lia. }
  { fold lines. replace (S i) with (i + 1) by lia.
    rewrite for_loop_add, Hst. simpl.
    unfold for_loop. simpl. by rewrite Hbody. }
  { by apply inv_push_block. }
  exists st, c. split; [done|]. split; [done|]. split; [done|].
  destruct (He (length (content st)) node) as (v' & Hv & G).
  { simpl. rewrite lookup_app_r by lia. by rewrite Nat.sub_diag. }
  rewrite Hv. f_equal. subst node.
  destruct (_ && _ && _); [by apply grows_heading|by apply grows_paragraph].
Qed.

(** C2.  Take line [i] of the input, not blank, not a bullet line and not a
    numbered line.  The turn of the loop for it appends exactly one node to
    the content and leaves the open list as it is, and that node is still
    at its place in the document returned.  When the line is the last one
    or the next line is blank, its trimmed form does not end in [.], [?]
    or [!], and its trimmed length is below 50, the node is a heading:
    type [heading], [attrs.level] 2, one text leaf holding the trimmed
    line.  Otherwise it is a paragraph: type [paragraph], no [attrs], one
    text leaf holding the line as it is, not trimmed.  The two are
    different nodes, so the line is a heading if and only if the three
    conditions hold.  So the line ["  Title  "] alone gives a heading with
    the text [Title], the line ["  It ends.  "] a paragraph that keeps its
    spaces, a line of 50 characters a paragraph and one of 49 a heading;
    [- Title] and [1. Title] give lists, not headings. *)
Theorem plain_line_becomes_heading_or_paragraph :
  let leaf := fun s => obj [(K_type, VStr "text"); (K_text, VStr s)] in
  let heading := fun s =>
    obj [(K_type, VStr "heading"); (K_attrs, obj [(K_level, VNum 2)]);
         (K_content, VArr [leaf s])] in
  let paragraph := fun s => obj [(K_type, VStr "paragraph"); (K_content, VArr [leaf s])] in
  let doc := fun c => obj [(K_version, VNum 1); (K_type, VStr "doc"); (K_content, VArr c)] in
  (forall text i line,
      let lines := Str.split Str.LF text in
      let node :=
        if followed_by_blank_or_last lines i
           && no_terminal_punctuation (Str.trim line)
           && Nat.ltb (String.length (Str.trim line)) 50
        then heading (Str.trim line)
        else paragraph line in
      lines !! i = Some line ->
      Str.trim line <> "" ->
      Str.startsWith (Str.trim line) "- " = false ->
      numberedMatch (Str.trim line) = None ->
      exists st c,
        for_loop (loop_body lines) 0 i (mkEnc [] None None) = Ok st
        /\ loop_body lines i st
           = Ok (mkEnc (content st ++ [node]) (currentList st) (currentListType st))
        /\ convertToADF text = Ok (doc c)
        /\ c !! length (content st) = Some node)
  /\ (forall s t,
        prop K_type (heading s) = VStr "heading"
        /\ prop K_level (prop K_attrs (heading s)) = VNum 2
        /\ prop K_content (heading s) = VArr [leaf s]
        /\ prop K_type (paragraph t) = VStr "paragraph"
        /\ prop K_attrs (paragraph t) = VUndefined
        /\ prop K_content (paragraph t) = VArr [leaf t]
        /\ prop K_type (leaf t) = VStr "text"
        /\ prop K_text (leaf t) = VStr t
        /\ prop K_marks (leaf t) = VUndefined
        /\ heading s <> paragraph t)
  /\ convertToADF "  Title  " = Ok (doc [heading "Title"])
  /\ convertToADF "  It ends.  " = Ok (doc [paragraph "  It ends.  "])
  /\ convertToADF ("  Title  " ++ Str.nl ++ "  Body " ++ Str.nl ++ Str.nl ++ " Done! ")%string
     = Ok (doc [paragraph "  Title  "; heading "Body"; paragraph " Done! "])
  /\ convertToADF "Why?" = Ok (doc [paragraph "Why?"])
  /\ convertToADF "- Title"
     = Ok (doc [obj [(K_type, VStr "bulletList");
                     (K_content, VArr [obj [(K_type, VStr "listItem");
                                            (K_content, VArr [paragraph "Title"])]])]])
  /\ convertToADF "1. Title"
     = Ok (doc [obj [(K_type, VStr "orderedList");
                     (K_content, VArr [obj [(K_type, VStr "listItem");
                                            (K_content, VArr [paragraph "Title"])]])]])
  /\ convertToADF "A line of exactly fifty characters, not fewer, now"
     = Ok (doc [paragraph "A line of exactly fifty characters, not fewer, now"])
  /\ String.length "A line of exactly fifty characters, not fewer, now" = 50
  /\ convertToADF "A line of forty-nine characters, just below fifty"
     = Ok (doc [heading "A line of forty-nine characters, just below fifty"])
  /\ String.length "A line of forty-nine characters, just below fifty" = 49.
Proof.
  intros leaf heading paragraph doc.
  split; [|split; [|repeat split]].
  - intros text i line lines node Hl Hne Hb Hn.
    exact (plain_line_turn text i line Hl Hne Hb Hn).
  - intros s t. repeat split. discriminate.
Qed.

Lemma plain_line_becomes_heading_or_paragraph_witness :
  let text := ("  Title  " ++ Str.nl ++ Str.nl ++ "  It ends here.  ")%string in
  let leaf := fun s => obj [(K_type, VStr "text"); (K_text, VStr s)] in
  exists st c,
    for_loop (loop_body (Str.split Str.LF text)) 0 2 (mkEnc [] None None) = Ok st
    /\ loop_body (Str.split Str.LF text) 2 st
       = Ok (mkEnc (content st
                    ++ [obj [(K_type, VStr "paragraph");
                             (K_content, VArr [leaf "  It ends here.  "])]])
                   (currentList st) (currentListType st))
    /\ convertToADF text
       = Ok (obj [(K_version, VNum 1); (K_type, VStr "doc"); (K_content, VArr c)])
    /\ c !! length (content st)
       = Some (obj [(K_type, VStr "paragraph"); (K_content, VArr [leaf "  It ends here.  "])]).
Proof.
  intros text leaf.
  apply (proj1 plain_line_becomes_heading_or_paragraph text 2 "  It ends here.  ");
    [reflexivity|discriminate|reflexivity|reflexivity].
Defined.



(** ** Runs of bullet lines and the list that receives them *)







Section Segments.

Variable lines : list string.




End Segments.






(** C5.  The marks of a text node wrap its text one after the other, in the
    order of [marks]: without marks the text is rendered as it is, and
    adding a mark at the end of [marks] wraps what the marks before it
    gave, with [**] for [strong], [*] for [em], a backquote for [code],
    [~~] for [strike] and, for [link], the text in square brackets followed
    by the [href] of [attrs] in parentheses, which is the empty string when
    [attrs] or [href] is absent.  So the text [x] with the marks [strong]
    then [em] renders as [***x***]; with [strong] then a link to [u], as
    the link whose text is [**x**]; with the link then [strong], as the
    link of [x] between [**] and [**]. *)
Theorem marks_wrap_in_order :
  let text := fun s marks =>
    obj [(K_type, VStr "text"); (K_text, VStr s); (K_marks, VArr marks)] in
  let mark := fun type => obj [(K_type, VStr type)] in
  let link := fun href =>
    obj [(K_type, VStr "link"); (K_attrs, obj [(K_href, VStr href)])] in
  processNode (text "x" [mark "strong"; mark "em"]) = Ok "***x***"
  /\ processNode (text "x" [mark "strong"]) = Ok "**x**"
  /\ processNode (text "x" [mark "em"; mark "code"]) = Ok "`*x*`"
  /\ processNode (text "x" [mark "code"; mark "em"]) = Ok "*`x`*"
  /\ processNode (text "x" [mark "strike"]) = Ok "~~x~~"
  /\ processNode (text "x" [link "http://a.example/b"]) = Ok "[x](http://a.example/b)"
  /\ processNode (text "x" [mark "strong"; link "u"]) = Ok "[**x**](u)"
  /\ processNode (text "x" [link "u"; mark "strong"]) = Ok "**[x](u)**"
  /\ processNode (text "x" [mark "link"]) = Ok "[x]()"
  /\ processNode (text "x" [obj [(K_type, VStr "link"); (K_attrs, obj [])]]) = Ok "[x]()"
  /\ processNode (text "x" [obj [(K_type, VStr "link"); (K_attrs, VNull)]]) = Ok "[x]()"
  /\ processNode (text "x" [link ""]) = Ok "[x]()"
  /\ (forall s, processNode (text s []) = Ok s)
  /\ (forall p marks m s,
        p_type p = VStr "text" -> p_marks p = VArr marks ->
        processNode (VObj p) = Ok s ->
        let rendered := processNode (VObj (set_prop K_marks (VArr (marks ++ [VObj m])) p)) in
        (p_type m = VStr "strong" -> rendered = Ok ("**" ++ s ++ "**")%string)
        /\ (p_type m = VStr "em" -> rendered = Ok ("*" ++ s ++ "*")%string)
        /\ (p_type m = VStr "code" -> rendered = Ok ("`" ++ s ++ "`")%string)
        /\ (p_type m = VStr "strike" -> rendered = Ok ("~~" ++ s ++ "~~")%string)
        /\ (p_type m = VStr "link" ->
            (forall a href, p_attrs m = VObj a -> p_href a = VStr href ->
                            rendered = Ok ("[" ++ s ++ "](" ++ href ++ ")")%string)
            /\ (forall a, p_attrs m = VObj a -> truthy (p_href a) = false ->
                          rendered = Ok ("[" ++ s ++ "]()")%string)
            /\ (nullish (p_attrs m) = true -> rendered = Ok ("[" ++ s ++ "]()")%string))).
Proof.
  intros text mark link.
  repeat match goal with |- _ /\ _ => split end; try reflexivity.
  { intros s. rewrite processNode_eq. simpl. unfold or_else. simpl. by destruct s. }
  intros p marks m s Ht Hm Hs rendered.
  assert (Hr : rendered = apply_mark s (VObj m)).
  { subst rendered. rewrite text_node_render in Hs by done.
    destruct (set_marks_props (VArr (marks ++ [VObj m])) p) as (E1 & E2 & E3).
    rewrite text_node_render by (by rewrite E1).
    rewrite E2, E3. rewrite Hm in Hs. unfold apply_marks in *. simpl in *.
    by rewrite foldM_snoc, Hs. }
  rewrite Hr. unfold apply_mark. simpl.
  split; [|split; [|split; [|split]]]; intros Hty; rewrite Hty; simpl; try reflexivity.
  split; [|split].
  - intros a href Ha Hh. rewrite Ha. unfold opt_chain. cbn [nullish prop get_prop].
    rewrite Hh. unfold or_else. simpl. by destruct href.
  - intros a Ha Hf. rewrite Ha. unfold opt_chain. cbn [nullish prop get_prop].
    unfold or_else. by rewrite Hf.
  - intros Hn. unfold opt_chain. by rewrite Hn.
Qed.

Lemma marks_wrap_in_order_witness :
  processNode (obj [(K_type, VStr "text"); (K_text, VStr "x");
                    (K_marks, VArr [obj [(K_type, VStr "strong")];
                                    obj [(K_type, VStr "link");
                                         (K_attrs, obj [(K_href, VStr "http://a.example/b")])]])])
  = Ok "[**x**](http://a.example/b)".
Proof.
  pose proof (proj2 (proj2 (proj2 (proj2 (proj2 (proj2 (proj2 (proj2 (proj2 (proj2
               (proj2 (proj2 (proj2 marks_wrap_in_order))))))))))))) as H.
  destruct (H (fold_left (fun p kv => set_prop kv.1 kv.2 p)
                 [(K_type, VStr "text"); (K_text, VStr "x");
                  (K_marks, VArr [obj [(K_type, VStr "strong")]])]
                 no_props)
              [obj [(K_type, VStr "strong")]]
              (fold_left (fun p kv => set_prop kv.1 kv.2 p)
                 [(K_type, VStr "link");
                  (K_attrs, obj [(K_href, VStr "http://a.example/b")])]
                 no_props)
              "**x**"
              eq_refl eq_refl eq_refl) as (_ & _ & _ & _ & Hlink).
  destruct (Hlink eq_refl) as (Hhref & _).
  exact (Hhref (fold_left (fun p kv => set_prop kv.1 kv.2 p)
                  [(K_href, VStr "http://a.example/b")] no_props)
               "http://a.example/b" eq_refl eq_refl).
Defined.

(** C6.  A table renders its rows as follows.  A row whose [content] is a
    sequence gives the renderings of its cells, each [|] in them written
    [\|]; a row whose [content] is not a sequence gives nothing.  The first
    row that gives something is the header line, a line with [---] for
    each of its cells follows it, then the other rows; every line is
    [| cell | cell |].  A table without rows renders as the empty string,
    and the table of the rows [H1, H2] and [a, b] renders as three lines. *)
Theorem table_rendering :
  let line := fun row : list string => ("| " ++ Str.join " | " row ++ " |")%string in
  (forall p rows rcs,
      p_content p = VArr rows -> Forall2 row_cells rows rcs ->
      processTable (VObj p)
      = Ok match omap id rcs with
           | [] => ""
           | header :: body =>
               Str.join Str.nl
                 (line header :: line (map (fun _ => "---") header) :: map line body)
           end)
  /\ (forall p, p_type p = VStr "table" -> processNode (VObj p) = processTable (VObj p))
  /\ processNode (table_node []) = Ok ""
  /\ processNode (table_node [["H1"; "H2"]; ["a"; "b"]])
     = Ok ("| H1 | H2 |" ++ Str.nl ++ "| --- | --- |" ++ Str.nl ++ "| a | b |")%string
  /\ length (Str.split Str.LF
               ("| H1 | H2 |" ++ Str.nl ++ "| --- | --- |" ++ Str.nl ++ "| a | b |")%string) = 3
  /\ processNode (table_node [["a|b"]])
     = Ok ("| a\|b |" ++ Str.nl ++ "| --- |")%string.
Proof.
  intros line. split; [|split; [|repeat split]].
  - intros p rows rcs Hc H. unfold processTable, processTable_body.
    rewrite (content_case_seq (VObj p) rows) by done.
    destruct rows as [|r rows].
    + by apply Forall2_nil_inv_l in H as ->.
    + rewrite (rows_fold (r :: rows) rcs []) by done. simpl.
      by destruct (omap id rcs).
  - intros p Ht. rewrite processNode_eq. simpl. by rewrite Ht.
Qed.

Lemma table_rendering_witness :
  processTable (table_node [["H1"; "H2"]; ["a"; "b"]])
  = Ok ("| H1 | H2 |" ++ Str.nl ++ "| --- | --- |" ++ Str.nl ++ "| a | b |")%string.
Proof.
  refine (proj1 table_rendering
            (fold_left (fun p kv => set_prop kv.1 kv.2 p)
               [(K_type, VStr "table");
                (K_content, VArr (map (fun row => container_node "tableRow"
                       (map (fun s => container_node "tableCell" [paragraph_node s]) row))
                                    [["H1"; "H2"]; ["a"; "b"]]))] no_props)
            _ [Some ["H1"; "H2"]; Some ["a"; "b"]] eq_refl _).
  repeat constructor; eexists _, _; repeat split; repeat constructor.
Defined.


(** Where [getJiraFields] goes to the navigable list: for every string
    outside [basic], [navigable] and [full] that is not the name of a
    member of [Object.prototype]; the name of such a member gives the
    member. *)
Theorem getJiraFields_lookup :
  (forall s, s <> "basic" -> s <> "navigable" -> s <> "full" ->
             ~ In s Object_prototype_names ->
             getJiraFields (Some s) = getJiraFields (Some "navigable"))
  /\ (forall s, In s Object_prototype_names -> getJiraFields (Some s) = Inherited s)
  /\ getJiraFields (Some "basic") = Fields ["summary"; "description"; "status"]
  /\ getJiraFields (Some "navigable") = Fields ["*navigable"; "Rank"]
  /\ getJiraFields (Some "full")
     = Fields ["*navigable"; "id"; "key"; "summary"; "description"; "status";
               "assignee"; "reporter"; "created"; "updated"; "resolutiondate";
               "parent"; "subtasks"; "issuelinks"; "comment"; "worklog"; "Rank"]
  /\ getJiraFields None = getJiraFields (Some "navigable").
Proof.
  split; [|split; [|by vm_compute]].
  - intros s H1 H2 H3 Hp. unfold getJiraFields at 1. simpl default. unfold FIELD_SETS_get at 1.
    assert (Hl : FIELD_SETS !! s = None).
    { unfold FIELD_SETS. rewrite !lookup_insert_ne by done. apply lookup_empty. }
    rewrite Hl.
    destruct (existsb (String.eqb s) Object_prototype_names) eqn:E.
    + apply existsb_exists in E as (x & Hin & Hx). apply String.eqb_eq in Hx as ->. done.
    + by vm_compute.
  - intros s Hin. simpl in Hin.
    repeat (destruct Hin as [<-|Hin]; [by vm_compute|]). done.
Qed.

Lemma getJiraFields_lookup_witness :
  getJiraFields (Some "bogus") = getJiraFields (Some "navigable").
Proof.
  apply (proj1 getJiraFields_lookup "bogus"); try discriminate.
  simpl. intros H. repeat (destruct H as [H|H]; [discriminate|]). done.
Defined.

(** C8 as it is stated does not hold: the children of a quote are joined by
    two newlines, not one, so a quote of the paragraphs [a] and [b] renders
    as the three lines [> a], [> ] and [> b]. *)
Lemma blockquote_joins_with_blank_lines :
  mapM processNode [paragraph_node "a"; paragraph_node "b"] = Ok ["a"; "b"]
  /\ processNode blockquote_ab
     = Ok ("> a" ++ Str.nl ++ "> " ++ Str.nl ++ "> b")%string
  /\ processNode blockquote_ab
     <> Ok (Str.join Str.nl (map (fun line => "> " ++ line)%string
                               (Str.split Str.LF (Str.join Str.nl ["a"; "b"])))).
Proof. split; [reflexivity|]. split; [reflexivity|]. vm_compute. discriminate. Qed.

(** C8, amended.  A quote renders as the renderings of its children joined
    by a blank line (two newlines), every line of that text then prefixed
    with ["> "]: the lines of the output are the lines of the joined text,
    each behind the prefix. *)
Theorem blockquote_rendering (p : props value) (kids : list value) (ss : list string) :
  p_type p = VStr "blockquote" ->
  p_content p = VArr kids ->
  mapM processNode kids = Ok ss ->
  let quoteContent := Str.join (Str.nl ++ Str.nl)%string ss in
  exists out,
    processNode (VObj p) = Ok out
    /\ out = Str.join Str.nl (map (fun line => "> " ++ line)%string
                                (Str.split Str.LF quoteContent))
    /\ Str.split Str.LF out
       = map (fun line => "> " ++ line)%string (Str.split Str.LF quoteContent)
    /\ Forall (fun line => Str.startsWith line "> " = true) (Str.split Str.LF out).
Proof.
  intros Ht Hc Hm quoteContent.
  exists (Str.join Str.nl (map (fun line => "> " ++ line)%string
                             (Str.split Str.LF quoteContent))).
  split.
  { rewrite processNode_eq. simpl. rewrite Ht. simpl.
    by rewrite (map_join_seq _ _ _ kids ss). }
  split; [reflexivity|].
  assert (Hs : Str.split Str.LF
                 (Str.join Str.nl (map (fun line => "> " ++ line)%string
                                     (Str.split Str.LF quoteContent)))
               = map (fun line => "> " ++ line)%string (Str.split Str.LF quoteContent)).
  { apply split_join.
    - pose proof (split_not_nil Str.LF quoteContent). by destruct (Str.split Str.LF quoteContent).
    - apply Forall_map. eapply Forall_impl; [apply split_lines_one_line|].
      intros line Hl. simpl. by apply (one_line_app "> "). }
  split; [exact Hs|]. rewrite Hs. apply Forall_map, Forall_forall.
  intros line _. simpl. apply (startsWith_app "> ").
Qed.

Lemma blockquote_rendering_witness :
  exists out,
    processNode blockquote_ab = Ok out
    /\ out = Str.join Str.nl (map (fun line => "> " ++ line)%string
                                (Str.split Str.LF (Str.join (Str.nl ++ Str.nl)%string ["a"; "b"])))
    /\ Str.split Str.LF out
       = map (fun line => "> " ++ line)%string
             (Str.split Str.LF (Str.join (Str.nl ++ Str.nl)%string ["a"; "b"]))
    /\ Forall (fun line => Str.startsWith line "> " = true) (Str.split Str.LF out).
Proof.
  apply (blockquote_rendering
           (fold_left (fun p kv => set_prop kv.1 kv.2 p)
              [(K_type, VStr "blockquote");
               (K_content, VArr [paragraph_node "a"; paragraph_node "b"])] no_props)
           [paragraph_node "a"; paragraph_node "b"] ["a"; "b"]); reflexivity.
Defined.

(** C9, on the code.  [processListItem], which renders the items of both
    kinds of list, joins the renderings of the children of the item with
    the empty string: an item of the paragraphs [a] and [b] renders as
    [- ab] where C9 gives [- a], newline, two spaces, [b], and a nested
    list starts on the line of the paragraph before it.  The [listItem] arm
    of [processNode], which the lists do not call, joins with a newline. *)
Theorem list_item_children_are_concatenated :
  processNode (list_node bullet
                 [container_node "listItem" [paragraph_node "a"; paragraph_node "b"]])
  = Ok "- ab"
  /\ processNode (container_node "listItem" [paragraph_node "a"; paragraph_node "b"])
     = Ok ("a" ++ Str.nl ++ "b")%string
  /\ processNode nested_list_example = Ok ("- a- b" ++ Str.nl ++ "  - c")%string
  /\ processNode (list_node ordered
                 [container_node "listItem" [paragraph_node "a"; paragraph_node "b"]])
     = Ok "1. ab".
Proof. repeat split. Qed.

(** C10.  What [convertADFToMarkdown] returns has no white space at its
    start or at its end: the join of the top-level blocks is trimmed.  A
    document whose only child is a [hardBreak] renders as the empty string,
    though a [hardBreak] renders as a newline; a [doc] node rendered by
    [processNode], inside a tree, is not trimmed. *)
Theorem rendered_markdown_is_trimmed :
  (forall adf s, convertADFToMarkdown adf = Ok s ->
                 no_leading_space s /\ no_trailing_space s /\ Str.trim s = s)
  /\ processNode hardBreak_node = Ok Str.nl
  /\ convertADFToMarkdown (doc_node [hardBreak_node]) = Ok ""
  /\ processNode (doc_node [hardBreak_node]) = Ok Str.nl
  /\ (forall kids ss, mapM processNode kids = Ok ss ->
        convertADFToMarkdown (doc_node kids)
        = Ok (Str.trim (Str.join (Str.nl ++ Str.nl)%string ss))
        /\ processNode (doc_node kids) = Ok (Str.join (Str.nl ++ Str.nl)%string ss)).
Proof.
  split; [|split; [reflexivity|split; [reflexivity|split; [reflexivity|]]]].
  - assert (Hempty : no_leading_space "" /\ no_trailing_space "" /\ Str.trim "" = "") by done.
    intros adf s. unfold convertADFToMarkdown.
    destruct (negb (truthy adf) || negb (typeof_object adf)); [by intros [= <-]|].
    destruct (or_else (prop K_content adf) adf); try (by intros [= <-]).
    destruct (mapM processNode items) as [ss| |]; simpl; try discriminate.
    intros [= <-]. destruct (trim_clean (Str.join (Str.nl ++ Str.nl)%string ss)).
    split; [done|]. split; [done|]. by apply trim_fixed.
  - intros kids ss Hm. split.
    + unfold convertADFToMarkdown. simpl. by rewrite Hm.
    + rewrite processNode_eq. simpl.
      by rewrite (map_join_seq _ _ _ kids ss).
Qed.

Lemma rendered_markdown_is_trimmed_witness :
  no_leading_space "a" /\ no_trailing_space "a" /\ Str.trim "a" = "a".
Proof.
  apply (proj1 rendered_markdown_is_trimmed (doc_node [paragraph_node " a "]) "a").
  reflexivity.
Defined.

(** ** Further properties: what convertToADF keeps of its input *)

Lemma leaves_list t items : leaves (list_node t items) = length items.
Proof. by destruct t. Qed.

Lemma leaves_of_app c d : leaves_of (c ++ d) = leaves_of c + leaves_of d.
Proof. unfold leaves_of. by rewrite map_app, list_sum_app. Qed.

Lemma leaves_of_insert c k v v' :
  c !! k = Some v -> leaves_of (<[k := v']> c) + leaves v = leaves_of c + leaves v'.
Proof.
  revert k; induction c as [|x c IH]; intros [|k] H; try discriminate.
  - injection H as ->. unfold leaves_of. simpl. lia.
  - simpl in H. specialize (IH _ H). unfold leaves_of in *. simpl. lia.
Qed.

(** What a turn for a list line does to [content]: it adds the item to the
    open list of that type, or appends a new list holding the item. *)
Lemma list_step_shape t s st :
  inv st ->
  exists k c',
    push_item (listItem_node s) (open_list t st) = Ok (mkEnc c' (Some k) (Some t))
    /\ ((exists before,
           currentListType st = Some t /\ currentList st = Some k
           /\ content st !! k = Some (list_node t (map listItem_node before))
           /\ c' = <[k := list_node t (map listItem_node (before ++ [s]))]> (content st))
        \/ (currentListType st <> Some t /\ k = length (content st)
            /\ c' = content st ++ [list_node t [listItem_node s]])).
Proof.
  intros [Hb Ho]. unfold open_list.
  destruct (decide (currentListType st = Some t)) as [Ht|Ht].
  - unfold open_list_ok in Ho. rewrite Ht in Ho.
    destruct Ho as (k & ss & Hk & Hc & Hne).
    exists k, (<[k := list_node t (map listItem_node (ss ++ [s]))]> (content st)).
    rewrite (push_item_list _ _ _ _ _ Hk Hc), Ht, map_app. split; [done|].
    left. exists ss. by rewrite map_app.
  - exists (length (content st)), (content st ++ [list_node t [listItem_node s]]).
    assert (Hl : (content st ++ [list_node t []]) !! length (content st) = Some (list_node t [])).
    { rewrite lookup_app_r by lia. by rewrite Nat.sub_diag. }
    rewrite (push_item_list (listItem_node s)
               (mkEnc (content st ++ [list_node t []]) (Some (length (content st))) (Some t))
               (length (content st)) t [] eq_refl Hl). simpl.
    rewrite insert_app_r_alt by lia. rewrite Nat.sub_diag. simpl. split; [done|].
    right. done.
Qed.

Lemma list_step_leaves t s st :
  inv st ->
  exists st', push_item (listItem_node s) (open_list t st) = Ok st'
    /\ leaves_of (content st') = S (leaves_of (content st)).
Proof.
  intros Hinv.
  destruct (list_step_shape t s st Hinv) as (k & c' & -> & [(b & _ & _ & Hk & ->)|(_ & _ & ->)]);
    eexists; (split; [done|]); simpl.
  - pose proof (leaves_of_insert _ _ _ (list_node t (map listItem_node (b ++ [s]))) Hk) as E.
    rewrite !leaves_list, !length_map, length_app in E. simpl in E. lia.
  - rewrite leaves_of_app.
    assert (E : leaves_of [list_node t [listItem_node s]] = 1) by (by destruct t).
    lia.
Qed.

Section Count.

Variable lines : list string.

Lemma loop_body_leaves i st :
  inv st ->
  exists st', loop_body lines i st = Ok st' /\ inv st'
    /\ leaves_of (content st')
       = leaves_of (content st) + (if blank (default "" (lines !! i)) then 0 else 1).
Proof.
  intros Hinv.
  destruct (loop_body_inv lines i st Hinv) as (st' & E & Hinv' & _).
  exists st'. split; [done|]. split; [done|].
  revert E. unfold loop_body, blank.
  destruct (Str.trim (default "" (lines !! i)) =? "") eqn:Hb.
  { intros [= <-]. simpl. lia. }
  destruct (Str.startsWith _ "- ").
  { destruct (list_step_leaves bullet (Str.substring_from 2 (Str.trim (default "" (lines !! i)))) st Hinv)
      as (st2 & -> & L). intros [= <-]. lia. }
  destruct (numberedMatch _) as [[d item]|].
  { destruct (list_step_leaves ordered item st Hinv) as (st2 & -> & L). intros [= <-]. lia. }
  destruct (is_heading _ _ _ _); intros [= <-]; simpl; rewrite leaves_of_app;
    unfold leaves_of at 2; simpl; lia.
Qed.

Lemma for_loop_leaves n : forall st,
  n <= length lines -> inv st ->
  exists st', for_loop (loop_body lines) 0 n st = Ok st' /\ inv st'
    /\ leaves_of (content st')
       = leaves_of (content st) + length (filter (fun l => negb (blank l)) (take n lines)).
Proof.
  induction n as [|n IH]; intros st Hn Hinv.
  - exists st. rewrite for_loop_0. simpl. split; [done|]. split; [done|]. lia.
  - destruct (IH st ltac:(lia) Hinv) as (st1 & E1 & Hinv1 & L1).
    destruct (loop_body_leaves n st1 Hinv1) as (st2 & E2 & Hinv2 & L2).
    exists st2. split.
    { replace (S n) with (n + 1) by lia.
      rewrite for_loop_add, E1. simpl. rewrite for_loop_S, E2. simpl. by rewrite for_loop_0. }
    split; [done|].
    destruct (lookup_lt_is_Some_2 lines n ltac:(lia)) as [l Hl].
    rewrite (take_S_r _ _ _ Hl), filter_app, length_app.
    rewrite Hl in L2. simpl in L2. rewrite L2, L1.
    rewrite filter_cons, filter_nil. destruct (blank l); simpl; lia.
Qed.

End Count.

Lemma convertToADF_leaves text :
  exists c, convertToADF text = Ok (doc_node c) /\ Forall block c
    /\ leaves_of c = length (filter (fun l => negb (blank l)) (Str.split Str.LF text)).
Proof.
  destruct (for_loop_leaves (Str.split Str.LF text) (length (Str.split Str.LF text))
              (mkEnc [] None None) ltac:(lia) inv_init) as (st & E & [Hb _] & L).
  exists (content st). unfold convertToADF. rewrite E. simpl.
  split; [done|]. split; [done|]. rewrite L. rewrite firstn_all. done.
Qed.

Lemma block_leaves v : block v -> 0 < leaves v.
Proof.
  intros [s|s|t ss Hne]; try (vm_compute; lia).
  rewrite leaves_list, length_map. destruct ss; [done|simpl; lia].
Qed.

Lemma doc_node_inj c c' : doc_node c = doc_node c' -> c = c'.
Proof. intros H. by inversion H. Qed.

Lemma filter_nonblank_nil (lines : list string) :
  length (filter (fun l => negb (blank l)) lines) = 0 <-> Forall (fun l => blank l = true) lines.
Proof.
  induction lines as [|l lines IH]; [done|].
  rewrite filter_cons. destruct (blank l) eqn:E; simpl.
  - rewrite IH. split; [by constructor|by inversion 1].
  - split; [done|]. inversion 1; congruence.
Qed.

(** X1.  [convertToADF] makes one text leaf for each line of the input
    that is not blank, and nothing for a blank line: counting one for a
    heading, one for a paragraph and one for each item of a list, the
    blocks of the document hold as many leaves as the input has lines that
    are not blank.  So the document has at most that many blocks. *)
Theorem convertToADF_one_leaf_per_line (text : string) :
  exists c,
    convertToADF text = Ok (doc_node c)
    /\ list_sum (map leaves c)
       = length (filter (fun line => negb (blank line)) (Str.split Str.LF text))
    /\ length c <= length (filter (fun line => negb (blank line)) (Str.split Str.LF text)).
Proof.
  destruct (convertToADF_leaves text) as (c & E & Hb & L).
  exists c. split; [done|]. split; [done|]. rewrite <- L. clear -Hb.
  induction Hb as [|v c Hv _ IH]; [done|].
  unfold leaves_of in *. simpl. pose proof (block_leaves v Hv). lia.
Qed.

(** X2.  [convertToADF] returns the document without content exactly when
    every line of the input is blank (the empty string is one such input). *)
Theorem convertToADF_empty_iff_blank (text : string) :
  convertToADF text = Ok (doc_node [])
  <-> Forall (fun line => Str.trim line = "") (Str.split Str.LF text).
Proof.
  destruct (convertToADF_leaves text) as (c & E & Hb & L).
  assert (Hiff : Forall (fun line => Str.trim line = "") (Str.split Str.LF text)
                 <-> Forall (fun l => blank l = true) (Str.split Str.LF text)).
  { apply Forall_proper; [|done]. intros l. unfold blank. symmetry. apply String.eqb_eq. }
  rewrite Hiff, <- filter_nonblank_nil, <- L, E. split.
  - intros [= ->]. done.
  - intros H. destruct Hb as [|v c Hv _]; [done|].
    pose proof (block_leaves v Hv). unfold leaves_of in H. simpl in H. lia.
Qed.

(** Lines of a string, and joining them again. *)

Lemma one_line_nil : one_line "".
Proof. done. Qed.

Lemma one_line_trimStart s : one_line s -> one_line (Str.trimStart s).
Proof.
  induction s as [|c s IH]; [done|]. intros H. simpl.
  destruct (Str.is_space c); [|done]. apply IH. by apply one_line_cons in H as [_ H].
Qed.

Lemma one_line_trimEnd s : one_line s -> one_line (Str.trimEnd s).
Proof.
  induction s as [|c s IH]; [done|]. intros H. apply one_line_cons in H as [Hc H].
  specialize (IH H). simpl. destruct (Str.trimEnd s) eqn:E.
  - destruct (Str.is_space c); [done|]. by apply one_line_cons.
  - by apply one_line_cons.
Qed.

Lemma one_line_trim s : one_line s -> one_line (Str.trim s).
Proof. intros H. by apply one_line_trimEnd, one_line_trimStart. Qed.

Lemma one_line_substring_from n : forall s, one_line s -> one_line (Str.substring_from n s).
Proof.
  induction n as [|n IH]; intros [|c s] H; try done.
  simpl. apply IH. by apply one_line_cons in H as [_ H].
Qed.

Lemma replaceAll_one_line by_ s : one_line s -> Str.replaceAll Str.LF by_ s = s.
Proof.
  induction s as [|c s IH]; [done|]. intros H. apply one_line_cons in H as [Hc H].
  simpl. rewrite Hc. f_equal. by apply IH.
Qed.

Lemma join_cons2 sep x y l : Str.join sep (x :: y :: l) = (x ++ sep ++ Str.join sep (y :: l))%string.
Proof. reflexivity. Qed.

Lemma join_split s : Str.join Str.nl (Str.split Str.LF s) = s.
Proof.
  induction s as [|c s IH]; [done|]. simpl.
  destruct (Ascii.eqb c Str.LF) eqn:E.
  - apply Ascii.eqb_eq in E as ->.
    pose proof (split_not_nil Str.LF s) as Hne.
    destruct (Str.split Str.LF s) as [|x l] eqn:Es; [done|].
    rewrite join_cons2, IH. reflexivity.
  - pose proof (split_not_nil Str.LF s) as Hne.
    destruct (Str.split Str.LF s) as [|x l] eqn:Es; [done|].
    destruct l as [|y l].
    + simpl in IH. simpl. by rewrite IH.
    + rewrite join_cons2 in *. rewrite <- IH. reflexivity.
Qed.

Lemma join_singleton sep s : Str.join sep [s] = s.
Proof. reflexivity. Qed.

Lemma last_char_None s : Str.last_char s = None -> s = "".
Proof.
  induction s as [|c s IH]; [done|]. simpl. destruct s; [done|]. intros H. by apply IH in H.
Qed.

Lemma last_char_join sep xs x :
  x <> "" -> Str.last_char (Str.join sep (xs ++ [x])) = Str.last_char x.
Proof.
  intros Hx. induction xs as [|y xs IH]; [done|].
  change ((y :: xs) ++ [x]) with (y :: (xs ++ [x])).
  destruct (xs ++ [x]) as [|z l] eqn:E; [by destruct xs|].
  rewrite join_cons2. rewrite <- append_assoc_str. rewrite last_char_app; [done|].
  intros H. rewrite H in IH. simpl in IH. symmetry in IH. by apply last_char_None in IH.
Qed.

Lemma bullet_run_exact lines run : forall from c k acc,
  c !! k = Some (list_node bullet (map listItem_node acc)) ->
  (forall j l, run !! j = Some l -> lines !! (from + j) = Some l) ->
  Forall bullet_line run ->
  for_loop (loop_body lines) from (length run) (mkEnc c (Some k) (Some bullet))
  = Ok (mkEnc (<[k := list_node bullet (map listItem_node (acc ++ map bullet_text run))]> c)
              (Some k) (Some bullet)).
Proof.
  induction run as [|l run IH]; intros from c k acc Hk Hl Hb.
  - simpl. rewrite for_loop_0, app_nil_r. by rewrite list_insert_id.
  - apply Forall_cons in Hb as [Hb1 Hb].
    simpl length. rewrite for_loop_S.
    rewrite (loop_body_bullet lines from l) by (try done; rewrite <- (Nat.add_0_r from); by apply Hl).
    unfold open_list. cbn [currentListType]. rewrite decide_True by done.
    rewrite (push_item_list _ _ k bullet (map listItem_node acc)) by done. simpl.
    rewrite (IH (S from) _ k (acc ++ [bullet_text l])).
    + rewrite list_insert_insert_eq. by rewrite <- app_assoc.
    + rewrite list_lookup_insert_eq by (by eapply lookup_lt_Some). by rewrite map_app.
    + intros j x Hj. replace (S from + j) with (from + S j) by lia. by apply Hl.
    + done.
Qed.

Lemma convertToADF_bullets_only text :
  Forall bullet_line (Str.split Str.LF text) ->
  convertToADF text
  = Ok (doc_node [list_node bullet (map listItem_node (map bullet_text (Str.split Str.LF text)))]).
Proof.
  intros Hb. unfold convertToADF.
  pose proof (split_not_nil Str.LF text) as Hne.
  destruct (Str.split Str.LF text) as [|l run] eqn:E; [done|].
  apply Forall_cons in Hb as [Hb1 Hb].
  simpl length. rewrite for_loop_S.
  rewrite (loop_body_bullet _ 0 l) by done.
  change (push_item (listItem_node (bullet_text l)) (open_list bullet (mkEnc [] None None)))
    with (Ok (mkEnc [list_node bullet (map listItem_node [bullet_text l])] (Some 0) (Some bullet))).
  cbn [bind].
  rewrite (bullet_run_exact (l :: run) run 1 _ 0 [bullet_text l]); try done.
Qed.

Lemma bullet_items_render texts :
  mapM (fun item => processListItem item bullet None) (map listItem_node texts)
  = Ok (map (fun t => "- " ++ Str.replaceAll Str.LF (Str.nl ++ "  ") t)%string texts).
Proof.
  induction texts as [|t texts IH]; [reflexivity|].
  cbn [map mapM]. rewrite listItem_render. cbn [bind]. rewrite IH. reflexivity.
Qed.

Lemma bullet_list_render texts :
  processNode (list_node bullet (map listItem_node texts))
  = Ok (Str.join Str.nl
          (map (fun t => "- " ++ Str.replaceAll Str.LF (Str.nl ++ "  ") t)%string texts)).
Proof.
  rewrite processNode_eq. simpl. by rewrite bullet_items_render.
Qed.

Lemma bullet_line_trim l :
  bullet_line l -> one_line l ->
  ("- " ++ Str.replaceAll Str.LF (Str.nl ++ "  ") (bullet_text l))%string = Str.trim l.
Proof.
  intros Hb H1. rewrite replaceAll_one_line.
  - symmetry. by apply startsWith_bullet.
  - by apply one_line_substring_from, one_line_trim.
Qed.

Lemma bullet_line_not_empty l : bullet_line l -> Str.trim l <> "".
Proof. unfold bullet_line. intros H E. by rewrite E in H. Qed.

Lemma no_trailing_space_join xs x :
  x <> "" -> no_trailing_space x -> no_trailing_space (Str.join Str.nl (xs ++ [x])).
Proof. intros Hx H. unfold no_trailing_space. by rewrite last_char_join. Qed.

Lemma no_leading_space_join sep x xs :
  x <> "" -> no_leading_space x -> no_leading_space (Str.join sep (x :: xs)).
Proof.
  intros Hx H. destruct x as [|c x]; [done|]. destruct xs; [done|]. by rewrite join_cons2.
Qed.

Lemma join_trimmed (xs : list string) :
  Forall (fun x => x <> "" /\ Str.trim x = x) xs ->
  Str.trim (Str.join Str.nl xs) = Str.join Str.nl xs.
Proof.
  intros H. destruct xs as [|x xs]; [done|].
  assert (Hc : forall y, Str.trim y = y -> no_leading_space y /\ no_trailing_space y).
  { intros y <-. apply trim_clean. }
  apply trim_fixed.
  - apply Forall_cons in H as [[Hx Ht] _]. apply no_leading_space_join; [done|]. by apply Hc.
  - destruct (exists_last (l := x :: xs) ltac:(done)) as (ys & y & E). rewrite E in *.
    apply Forall_app in H as [_ H]. apply Forall_cons in H as [[Hy Ht] _].
    apply no_trailing_space_join; [done|]. by apply Hc.
Qed.

Lemma convertADFToMarkdown_doc kids ss :
  mapM processNode kids = Ok ss ->
  convertADFToMarkdown (doc_node kids) = Ok (Str.trim (Str.join (Str.nl ++ Str.nl)%string ss)).
Proof. intros Hm. unfold convertADFToMarkdown. simpl. by rewrite Hm. Qed.

(** X3.  A text made of bullet lines only is rendered, after it is encoded,
    as its lines trimmed and joined by newlines; when no line has white
    space around it, rendering after encoding gives the text back. *)
Theorem bullet_text_round_trip (text : string) :
  Forall (fun line => Str.startsWith (Str.trim line) "- " = true) (Str.split Str.LF text) ->
  render_after_encode text = Ok (Str.join Str.nl (map Str.trim (Str.split Str.LF text)))
  /\ (Forall (fun line => Str.trim line = line) (Str.split Str.LF text) ->
      render_after_encode text = Ok text).
Proof.
  intros Hb.
  assert (E : render_after_encode text
              = Ok (Str.join Str.nl (map Str.trim (Str.split Str.LF text)))).
  { unfold render_after_encode. rewrite (convertToADF_bullets_only text Hb). cbn [bind].
    rewrite (convertADFToMarkdown_doc _
               [Str.join Str.nl
                  (map (fun t => "- " ++ Str.replaceAll Str.LF (Str.nl ++ "  ") t)%string
                       (map bullet_text (Str.split Str.LF text)))])
      by (cbn [mapM]; by rewrite bullet_list_render).
    rewrite join_singleton. rewrite map_map.
    assert (Hm : map (fun l => "- " ++ Str.replaceAll Str.LF (Str.nl ++ "  ") (bullet_text l))%string
                     (Str.split Str.LF text)
                 = map Str.trim (Str.split Str.LF text)).
    { apply map_ext_Forall. pose proof (split_lines_one_line text) as H1.
      revert H1 Hb. generalize (Str.split Str.LF text). intros ls H1 Hb.
      induction H1 as [|l ls Hl _ IH]; [done|]. apply Forall_cons in Hb as [? ?].
      constructor; [by apply bullet_line_trim|by apply IH]. }
    rewrite Hm. f_equal. apply join_trimmed. apply Forall_map.
    eapply Forall_impl; [exact Hb|]. intros l Hl. simpl.
    split; [by apply bullet_line_not_empty|]. apply trim_fixed; apply trim_clean. }
  split; [done|]. intros Ht. rewrite E. f_equal.
  rewrite <- (join_split text) at 2. f_equal.
  rewrite <- (map_id (Str.split Str.LF text)) at 2. apply map_ext_Forall.
  eapply Forall_impl; [exact Ht|]. done.
Qed.

Lemma bullet_text_round_trip_witness :
  render_after_encode ("- a" ++ Str.nl ++ "- b")%string = Ok ("- a" ++ Str.nl ++ "- b")%string.
Proof.
  apply (bullet_text_round_trip ("- a" ++ Str.nl ++ "- b")%string).
  - vm_compute. repeat constructor.
  - vm_compute. repeat constructor.
Defined.

(** ** Further properties: list items, marks and headings of the renderer *)

Lemma all_digits_uint d : all_digits (NilEmpty.string_of_uint d) = true.
Proof. induction d; simpl; try done. Qed.

Lemma all_digits_of_nat n : all_digits (Str.of_nat n) = true.
Proof.
  unfold Str.of_nat, Str.of_Z. destruct (Z.of_nat n) eqn:E; try lia; simpl.
  - done.
  - unfold NilZero.string_of_uint. destruct (Pos.to_uint p) eqn:Ep; try done;
      rewrite <- Ep; apply all_digits_uint.
Qed.

Lemma split_cons_other c s :
  Ascii.eqb c Str.LF = false ->
  Str.split Str.LF (String c s)
  = match Str.split Str.LF s with x :: rest => String c x :: rest | [] => [] end.
Proof.
  intros H. simpl. rewrite H. pose proof (split_not_nil Str.LF s).
  by destruct (Str.split Str.LF s).
Qed.

(** The lines of [s.replace(/\n/g, '\n  ')]: the first line of [s], then
    the other lines behind two spaces. *)
Lemma split_indent s :
  Str.split Str.LF (Str.replaceAll Str.LF (Str.nl ++ "  ") s)
  = match Str.split Str.LF s with
    | first :: rest => first :: map (fun line => "  " ++ line)%string rest
    | [] => []
    end.
Proof.
  induction s as [|c s IH]; [done|].
  change (Str.replaceAll Str.LF (Str.nl ++ "  ") (String c s))
    with (if Ascii.eqb c Str.LF
          then String Str.LF (String " " (String " " (Str.replaceAll Str.LF (Str.nl ++ "  ") s)))
          else String c (Str.replaceAll Str.LF (Str.nl ++ "  ") s)).
  destruct (Ascii.eqb c Str.LF) eqn:E.
  - apply Ascii.eqb_eq in E as ->.
    change (Str.split Str.LF (String Str.LF ?x)) with ("" :: Str.split Str.LF x).
    rewrite !split_cons_other by done. rewrite IH.
    change (Str.split Str.LF (String Str.LF s)) with ("" :: Str.split Str.LF s).
    pose proof (split_not_nil Str.LF s). by destruct (Str.split Str.LF s).
  - rewrite !split_cons_other by done. rewrite IH.
    pose proof (split_not_nil Str.LF s). by destruct (Str.split Str.LF s).
Qed.

Lemma split_prefix p s :
  one_line p ->
  Str.split Str.LF (p ++ s)%string
  = match Str.split Str.LF s with x :: rest => (p ++ x)%string :: rest | [] => [] end.
Proof.
  induction p as [|c p IH]; intros H.
  - change ("" ++ s)%string with s. by destruct (Str.split Str.LF s).
  - apply one_line_cons in H as [Hc H].
    change (String c p ++ s)%string with (String c (p ++ s)).
    rewrite split_cons_other by done. rewrite IH by done.
    by destruct (Str.split Str.LF s).
Qed.

Lemma one_line_item_prefix t i : one_line (item_prefix t i).
Proof.
  destruct t; [done|]. destruct i; [|done].
  apply digits_one_line; [apply all_digits_of_nat|done].
Qed.

(** X7.  [processListItem] puts the prefix of the item before the first
    line of the concatenated renderings of its children, and two spaces
    before each of their other lines. *)
Theorem list_item_lines_are_indented
    (item : value) (kids : list value) (ss : list string)
    (listType : list_type) (index : option nat) (first : string) (rest : list string) :
  nullish item = false ->
  prop K_content item = VArr kids ->
  mapM processNode kids = Ok ss ->
  Str.split Str.LF (Str.join "" ss) = first :: rest ->
  exists out,
    processListItem item listType index = Ok out
    /\ Str.split Str.LF out
       = (item_prefix listType index ++ first)%string
         :: map (fun line => "  " ++ line)%string rest.
Proof.
  intros Hn Hc Hm Hs.
  rewrite (processListItem_concatenates item kids ss listType index Hn Hc Hm).
  eexists. split; [reflexivity|].
  change (match listType with
          | bullet => "- "
          | ordered => (match index with Some i => Str.of_nat i | None => "undefined" end ++ ". ")%string
          end)
    with (item_prefix listType index).
  rewrite split_prefix by apply one_line_item_prefix.
  by rewrite split_indent, Hs.
Qed.

Lemma list_item_lines_are_indented_witness :
  exists out,
    processListItem (container_node "listItem"
                       [paragraph_node "a"; hardBreak_node; paragraph_node "b"])
                    ordered (Some 3) = Ok out
    /\ Str.split Str.LF out = ["3. a"; "  b"].
Proof.
  apply (list_item_lines_are_indented
           (container_node "listItem" [paragraph_node "a"; hardBreak_node; paragraph_node "b"])
           [paragraph_node "a"; hardBreak_node; paragraph_node "b"]
           ["a"; Str.nl; "b"] ordered (Some 3) "a" ["b"]); reflexivity.
Defined.

Lemma apply_mark_unrecognized text mark :
  nullish mark = false -> mark_recognized mark = false -> apply_mark text mark = Ok text.
Proof.
  unfold apply_mark, mark_recognized. intros -> H.
  repeat (apply orb_false_iff in H as [H ?]). by repeat match goal with E : _ = false |- _ => rewrite E; clear E end.
Qed.

Lemma foldM_recognized marks : forall text,
  Forall (fun mark => nullish mark = false) marks ->
  foldM apply_mark (filter (fun mark => mark_recognized mark) marks) text
  = foldM apply_mark marks text.
Proof.
  induction marks as [|m marks IH]; intros text Hn; [done|].
  apply Forall_cons in Hn as [Hm Hn]. rewrite filter_cons.
  destruct (mark_recognized m) eqn:E.
  - rewrite decide_True by done. simpl.
    destruct (apply_mark text m) as [t| |]; simpl; [by apply IH|done|done].
  - rewrite decide_False by (by intros H). simpl.
    rewrite (apply_mark_unrecognized text m Hm E). simpl. by apply IH.
Qed.

(** X8.  A mark whose type is not [strong], [em], [code], [strike] or
    [link] changes nothing: a text node renders as it does with the marks
    of these five types alone, in the same order. *)
Theorem unrecognized_marks_are_ignored (p : props value) (marks : list value) :
  p_type p = VStr "text" ->
  p_marks p = VArr marks ->
  Forall (fun mark => nullish mark = false) marks ->
  processNode (VObj (set_prop K_marks (VArr (filter (fun mark => mark_recognized mark) marks)) p))
  = processNode (VObj p).
Proof.
  intros Ht Hm Hn.
  destruct (set_marks_props (VArr (filter (fun mark => mark_recognized mark) marks)) p)
    as (E1 & E2 & E3).
  rewrite !text_node_render by (by rewrite ?E1).
  rewrite E2, E3, Hm. unfold apply_marks. simpl. by apply foldM_recognized.
Qed.

Lemma unrecognized_marks_are_ignored_witness :
  processNode (text_with_marks "x" [mark_node "strong"])
  = processNode (text_with_marks "x" [mark_node "underline"; mark_node "strong"; mark_node "textColor"]).
Proof.
  apply (unrecognized_marks_are_ignored
           (fold_left (fun p kv => set_prop kv.1 kv.2 p)
              [(K_type, VStr "text"); (K_text, VStr "x");
               (K_marks, VArr [mark_node "underline"; mark_node "strong"; mark_node "textColor"])]
              no_props)
           [mark_node "underline"; mark_node "strong"; mark_node "textColor"]);
    [reflexivity|reflexivity|repeat constructor].
Defined.

(** X6.  The marker of a heading is as many [#] as its level says, for
    every level from 1 to 1000: a level above 6 is not capped.  A level
    that is absent, [null] or 0 counts as 1; a negative level raises a
    RangeError, whatever the content is. *)
Theorem heading_marker_follows_level (p : props value) :
  p_type p = VStr "heading" ->
  (forall n, opt_chain K_level (p_attrs p) = VNum n -> (n < 0)%Z ->
             processNode (VObj p) = Throw RangeError)
  /\ (forall kids ss,
        p_content p = VArr kids -> mapM processNode kids = Ok ss ->
        (forall n, opt_chain K_level (p_attrs p) = VNum n -> (0 < n <= 1000)%Z ->
                   processNode (VObj p)
                   = Ok (Str.repeat "#" (Z.to_nat n) ++ " " ++ Str.join "" ss)%string)
        /\ (truthy (opt_chain K_level (p_attrs p)) = false ->
            processNode (VObj p) = Ok ("# " ++ Str.join "" ss)%string)).
Proof.
  intros Ht. split.
  - intros n Hl Hn. rewrite processNode_eq. simpl. rewrite Ht. simpl.
    rewrite Hl. unfold or_else. simpl.
    destruct (n =? 0)%Z eqn:E; [lia|]. simpl.
    destruct (n <? 0)%Z eqn:E'; [done|lia].
  - intros kids ss Hc Hm. split.
    + intros n Hl Hn. rewrite processNode_eq. simpl. rewrite Ht. simpl.
      rewrite Hl. unfold or_else. simpl.
      destruct (n =? 0)%Z eqn:E; [lia|]. simpl.
      destruct (n <? 0)%Z eqn:E'; [lia|]. simpl.
      by rewrite (map_join_seq _ _ _ kids ss).
    + intros Hf. rewrite processNode_eq. simpl. rewrite Ht. simpl.
      unfold or_else. rewrite Hf. simpl.
      by rewrite (map_join_seq _ _ _ kids ss).
Qed.

Lemma heading_marker_follows_level_witness :
  processNode (obj [(K_type, VStr "heading"); (K_attrs, obj [(K_level, VNum 7)]);
                    (K_content, VArr [obj [(K_type, VStr "text"); (K_text, VStr "x")]])])
  = Ok "####### x".
Proof.
  refine (proj1 (proj2 (heading_marker_follows_level
                          (fold_left (fun p kv => set_prop kv.1 kv.2 p)
                             [(K_type, VStr "heading"); (K_attrs, obj [(K_level, VNum 7)]);
                              (K_content, VArr [text_node "x"])]
                             no_props)
                          eq_refl)
                       [text_node "x"] ["x"] eq_refl eq_refl)
                7%Z eq_refl _).
  lia.
Defined.

(** ** Further properties: where headings and paragraphs come from *)

Section Keeps.

Variable lines : list string.
Variable Q : value -> Prop.
Hypothesis Q_list : forall t items, Q (list_node t items).

Lemma list_step_keeps t s st :
  inv st -> Forall Q (content st) ->
  exists st', push_item (listItem_node s) (open_list t st) = Ok st' /\ Forall Q (content st').
Proof.
  intros Hinv HQ.
  destruct (list_step_shape t s st Hinv) as (k & c' & -> & [(b & _ & _ & Hk & ->)|(_ & _ & ->)]);
    eexists; (split; [done|]); simpl.
  - by apply Forall_insert.
  - apply Forall_app. split; [done|]. by constructor.
Qed.

Lemma loop_body_keeps i line st :
  lines !! i = Some line ->
  (Str.trim line <> "" ->
   is_heading lines i line (default "" (lines !! (i + 1))) = true ->
   Q (heading_node (Str.trim line))) ->
  (Str.trim line <> "" -> Q (paragraph_node line)) ->
  inv st -> Forall Q (content st) ->
  exists st', loop_body lines i st = Ok st' /\ inv st' /\ Forall Q (content st').
Proof.
  intros Hl Hh Hp Hinv HQ.
  destruct (loop_body_inv lines i st Hinv) as (st' & E & Hinv' & _).
  exists st'. split; [done|]. split; [done|].
  assert (Hd : default "" (lines !! i) = line) by (by rewrite Hl).
  revert E. unfold loop_body. rewrite Hd.
  destruct (Str.trim line =? "") eqn:Hb.
  { by intros [= <-]. }
  apply String.eqb_neq in Hb.
  destruct (Str.startsWith _ "- ").
  { destruct (list_step_keeps bullet (Str.substring_from 2 (Str.trim line)) st Hinv HQ)
      as (st2 & -> & L). by intros [= <-]. }
  destruct (numberedMatch _) as [[d item]|].
  { destruct (list_step_keeps ordered item st Hinv HQ) as (st2 & -> & L). by intros [= <-]. }
  destruct (is_heading _ _ _ _) eqn:Eh; intros [= <-]; simpl;
    (apply Forall_app; split; [done|]); constructor; auto.
Qed.

End Keeps.

Lemma for_loop_keeps lines (Q : value -> Prop) :
  (forall t items, Q (list_node t items)) ->
  (forall i line, lines !! i = Some line -> Str.trim line <> "" ->
     is_heading lines i line (default "" (lines !! (i + 1))) = true ->
     Q (heading_node (Str.trim line))) ->
  (forall i line, lines !! i = Some line -> Str.trim line <> "" -> Q (paragraph_node line)) ->
  forall n, n <= length lines ->
  exists st, for_loop (loop_body lines) 0 n (mkEnc [] None None) = Ok st
    /\ inv st /\ Forall Q (content st).
Proof.
  intros Hl Hh Hp. induction n as [|n IH]; intros Hn.
  - exists (mkEnc [] None None). rewrite for_loop_0. split; [done|]. split; [apply inv_init|done].
  - destruct (IH ltac:(lia)) as (st1 & E1 & Hinv1 & HQ1).
    destruct (lookup_lt_is_Some_2 lines n ltac:(lia)) as [l Hln].
    destruct (loop_body_keeps lines Q Hl n l st1 Hln (Hh n l Hln) (Hp n l Hln) Hinv1 HQ1)
      as (st2 & E2 & Hinv2 & HQ2).
    exists st2. split; [|done].
    replace (S n) with (n + 1) by lia.
    rewrite for_loop_add, E1. simpl. rewrite for_loop_S, E2. simpl. by rewrite for_loop_0.
Qed.

Lemma heading_not_list s t items : heading_node s <> list_node t items.
Proof. by destruct t. Qed.

Lemma paragraph_not_list s t items : paragraph_node s <> list_node t items.
Proof. by destruct t. Qed.

Lemma heading_node_inj s s' : heading_node s = heading_node s' -> s = s'.
Proof. intros H. by inversion H. Qed.

Lemma paragraph_node_inj s s' : paragraph_node s = paragraph_node s' -> s = s'.
Proof. intros H. by inversion H. Qed.

Lemma is_heading_true lines i line next :
  is_heading lines i line next = true ->
  String.length (Str.trim line) < 50 /\ no_terminal_punctuation (Str.trim line) = true.
Proof.
  unfold is_heading, no_terminal_punctuation. intros H.
  repeat (apply andb_true_iff in H as [H ?]).
  split; [by apply Nat.ltb_lt|]. by repeat (apply andb_true_iff; split).
Qed.

(** X5.  In a document made by [convertToADF], the text of a heading is a
    line of the input trimmed, is not empty, is shorter than 50 characters
    and does not end in [.], [?] or [!]; the text of a paragraph is a line
    of the input as it is, and that line is not blank. *)
Theorem headings_and_paragraphs_come_from_lines (text : string) (c : list value) :
  convertToADF text = Ok (doc_node c) ->
  (forall s, In (heading_node s) c ->
     (exists line, In line (Str.split Str.LF text) /\ s = Str.trim line)
     /\ s <> "" /\ String.length s < 50
     /\ Str.endsWithChar s "." = false /\ Str.endsWithChar s "?" = false
     /\ Str.endsWithChar s "!" = false)
  /\ (forall s, In (paragraph_node s) c ->
        In s (Str.split Str.LF text) /\ Str.trim s <> "").
Proof.
  set (lines := Str.split Str.LF text).
  set (Q := fun v : value =>
    (forall s, v = heading_node s ->
       (exists line, In line lines /\ s = Str.trim line)
       /\ s <> "" /\ String.length s < 50
       /\ Str.endsWithChar s "." = false /\ Str.endsWithChar s "?" = false
       /\ Str.endsWithChar s "!" = false)
    /\ (forall s, v = paragraph_node s -> In s lines /\ Str.trim s <> "")).
  intros E.
  destruct (for_loop_keeps lines Q) with (n := length lines) as (st & Est & _ & HQ).
  - intros t items. split; intros s H; symmetry in H.
    + by apply heading_not_list in H.
    + by apply paragraph_not_list in H.
  - intros i line Hl Hne Hh. split; intros s H.
    + apply heading_node_inj in H as <-.
      apply is_heading_true in Hh as [Hlen Hp].
      unfold no_terminal_punctuation in Hp.
      repeat (apply andb_true_iff in Hp as [Hp ?]).
      split; [exists line; split; [by eapply list_elem_of_In, list_elem_of_lookup_2|done]|].
      repeat split; try done; by apply negb_true_iff.
    + discriminate.
  - intros i line Hl Hne. split; intros s H.
    + discriminate.
    + apply paragraph_node_inj in H as <-.
      split; [by eapply list_elem_of_In, list_elem_of_lookup_2|done].
  - done.
  - unfold convertToADF in E. fold lines in E. rewrite Est in E. simpl in E.
    injection E as E. subst c.
    rewrite Forall_forall in HQ.
    split; intros s Hs; apply list_elem_of_In in Hs; destruct (HQ _ Hs) as [H1 H2]; auto.
Qed.

Lemma headings_and_paragraphs_come_from_lines_witness :
  (forall s, In (heading_node s) [heading_node "Title"; paragraph_node "A longer sentence that ends here."] ->
     (exists line, In line (Str.split Str.LF sample_text) /\ s = Str.trim line)
     /\ s <> "" /\ String.length s < 50
     /\ Str.endsWithChar s "." = false /\ Str.endsWithChar s "?" = false
     /\ Str.endsWithChar s "!" = false)
  /\ (forall s, In (paragraph_node s) [heading_node "Title"; paragraph_node "A longer sentence that ends here."] ->
        In s (Str.split Str.LF sample_text) /\ Str.trim s <> "").
Proof.
  apply (headings_and_paragraphs_come_from_lines sample_text). reflexivity.
Defined.

Lemma loop_body_prose lines i line c :
  lines !! i = Some line -> prose_line line = true ->
  loop_body lines i (mkEnc c None None) = Ok (mkEnc (c ++ [paragraph_node line]) None None).
Proof.
  intros Hl Hp. unfold prose_line, blank in Hp.
  repeat (apply andb_true_iff in Hp as [Hp ?]).
  assert (Hd : default "" (lines !! i) = line) by (by rewrite Hl).
  unfold loop_body. rewrite Hd.
  apply negb_true_iff in Hp. rewrite Hp.
  match goal with H : negb (Str.startsWith _ _) = true |- _ =>
    apply negb_true_iff in H; rewrite H end.
  destruct (numberedMatch (Str.trim line)); [done|].
  assert (Hh : is_heading lines i line (default "" (lines !! (i + 1))) = false).
  { unfold is_heading. unfold no_terminal_punctuation in *.
    destruct (Str.endsWithChar (Str.trim line) "."), (Str.endsWithChar (Str.trim line) "?"),
      (Str.endsWithChar (Str.trim line) "!"); try done; simpl;
      rewrite ?andb_false_r; done. }
  by rewrite Hh.
Qed.

Lemma loop_body_blank lines i line st :
  lines !! i = Some line -> Str.trim line = "" ->
  loop_body lines i st = Ok (mkEnc (content st) None None).
Proof.
  intros Hl Hb. unfold loop_body. rewrite Hl. simpl. by rewrite Hb.
Qed.

Lemma for_loop_prose lines :
  Forall (fun line => Str.trim line = "" \/ prose_line line = true) lines ->
  forall n, n <= length lines ->
  for_loop (loop_body lines) 0 n (mkEnc [] None None)
  = Ok (mkEnc (map paragraph_node (filter (fun line => negb (blank line)) (take n lines)))
              None None).
Proof.
  intros Hp. induction n as [|n IH]; intros Hn; [by rewrite for_loop_0|].
  destruct (lookup_lt_is_Some_2 lines n ltac:(lia)) as [l Hl].
  replace (for_loop (loop_body lines) 0 (S n)) with (for_loop (loop_body lines) 0 (n + 1))
    by (f_equal; lia).
  rewrite for_loop_add, IH by lia. cbn [bind]. rewrite for_loop_S.
  rewrite (take_S_r _ _ _ Hl), filter_app, map_app, filter_cons, filter_nil.
  rewrite Forall_forall in Hp.
  destruct (Hp l (list_elem_of_lookup_2 _ _ _ Hl)) as [Hb|Hpr].
  - rewrite (loop_body_blank lines n l) by done. cbn [bind content]. rewrite for_loop_0.
    unfold blank. rewrite Hb. simpl. by rewrite app_nil_r.
  - rewrite (loop_body_prose lines n l) by done. cbn [bind]. rewrite for_loop_0.
    assert (Hnb : blank l = false).
    { unfold prose_line in Hpr. repeat (apply andb_true_iff in Hpr as [Hpr ?]).
      by apply negb_true_iff. }
    rewrite Hnb. done.
Qed.

Lemma paragraphs_render ls : mapM processNode (map paragraph_node ls) = Ok ls.
Proof.
  induction ls as [|s ls IH]; [done|].
  cbn [map mapM]. rewrite IH.
  assert (E : processNode (paragraph_node s) = Ok s).
  { rewrite processNode_eq. simpl. unfold or_else. simpl. by destruct s. }
  by rewrite E.
Qed.

(** X4.  When every line of the input is blank or a line of prose (not a
    list line, and ending in [.], [?] or [!] once trimmed),
    [convertToADF] makes one paragraph for each line that is not blank,
    holding the line as it is, and rendering after encoding gives these
    lines separated by blank lines, trimmed as a whole: the blank lines of
    the input are dropped and a single line break becomes a blank line. *)
Theorem prose_lines_become_paragraphs (text : string) :
  Forall (fun line => Str.trim line = "" \/ prose_line line = true) (Str.split Str.LF text) ->
  let kept := filter (fun line => negb (blank line)) (Str.split Str.LF text) in
  convertToADF text = Ok (doc_node (map paragraph_node kept))
  /\ render_after_encode text = Ok (Str.trim (Str.join (Str.nl ++ Str.nl)%string kept)).
Proof.
  intros Hp kept.
  assert (E : convertToADF text = Ok (doc_node (map paragraph_node kept))).
  { unfold convertToADF. rewrite (for_loop_prose _ Hp) by lia. by rewrite firstn_all. }
  split; [done|]. unfold render_after_encode. rewrite E. cbn [bind].
  apply convertADFToMarkdown_doc, paragraphs_render.
Qed.

Lemma prose_lines_become_paragraphs_witness :
  convertToADF ("One." ++ Str.nl ++ "Two?")%string
  = Ok (doc_node (map paragraph_node ["One."; "Two?"]))
  /\ render_after_encode ("One." ++ Str.nl ++ "Two?")%string
     = Ok (Str.trim (Str.join (Str.nl ++ Str.nl)%string ["One."; "Two?"])).
Proof.
  apply (prose_lines_become_paragraphs ("One." ++ Str.nl ++ "Two?")%string).
  repeat (constructor; [right; reflexivity|]). constructor.
Defined.

(** ** Further properties: blank lines at the end of the input *)

Lemma split_app_lines s t :
  Str.split Str.LF (s ++ String Str.LF t)%string = Str.split Str.LF s ++ Str.split Str.LF t.
Proof.
  induction s as [|c s IH]; [done|].
  change (String c s ++ String Str.LF t)%string with (String c (s ++ String Str.LF t)).
  simpl. rewrite IH. destruct (Ascii.eqb c Str.LF); [done|].
  pose proof (split_not_nil Str.LF s). by destruct (Str.split Str.LF s).
Qed.

Lemma for_loop_1 {St} (body : nat -> St -> result St) from st :
  for_loop body from 1 st = body from st.
Proof. unfold for_loop. simpl. by destruct (body from st). Qed.

(** A blank line after the last line changes no turn of the loop. *)
Lemma loop_body_blank_after lines b i st :
  Str.trim b = "" -> i < length lines ->
  loop_body (lines ++ [b]) i st = loop_body lines i st.
Proof.
  intros Hb Hi. unfold loop_body.
  rewrite (lookup_app_l lines [b] i Hi).
  assert (Hh : is_heading (lines ++ [b]) i (default "" (lines !! i))
                 (default "" ((lines ++ [b]) !! (i + 1)))
               = is_heading lines i (default "" (lines !! i)) (default "" (lines !! (i + 1)))).
  { unfold is_heading. rewrite length_app. simpl.
    destruct (decide (i + 1 < length lines)) as [Hlt|Hge].
    - rewrite (lookup_app_l lines [b] (i + 1) Hlt).
      replace (Nat.eqb i (length lines + 1 - 1)) with false by (symmetry; apply Nat.eqb_neq; lia).
      replace (Nat.eqb i (length lines - 1)) with false by (symmetry; apply Nat.eqb_neq; lia).
      done.
    - rewrite lookup_app_r by lia. replace (i + 1 - length lines) with 0 by lia. simpl.
      rewrite (lookup_ge_None_2 lines (i + 1)) by lia. simpl.
      rewrite Hb. change (Str.trim "") with "". simpl. done. }
  by rewrite Hh.
Qed.

Lemma for_loop_blank_after lines b n : forall st,
  Str.trim b = "" -> n <= length lines ->
  for_loop (loop_body (lines ++ [b])) 0 n st = for_loop (loop_body lines) 0 n st.
Proof.
  induction n as [|n IH]; intros st Hb Hn; [done|].
  replace (S n) with (n + 1) by lia. rewrite !for_loop_add. rewrite IH by (done || lia).
  destruct (for_loop (loop_body lines) 0 n st) as [st'| |]; simpl; try done.
  rewrite !for_loop_1. by rewrite loop_body_blank_after by (done || lia).
Qed.

(** X9.  A blank line at the end of the input, and so a newline at its
    end, does not change the document [convertToADF] returns. *)
Theorem trailing_blank_line_is_ignored (text blank_line : string) :
  Str.trim blank_line = "" ->
  one_line blank_line ->
  convertToADF (text ++ Str.nl ++ blank_line)%string = convertToADF text
  /\ convertToADF (text ++ Str.nl)%string = convertToADF text.
Proof.
  assert (G : forall b, Str.trim b = "" -> Str.split Str.LF b = [b] ->
                convertToADF (text ++ String Str.LF b)%string = convertToADF text).
  { intros b Hb H1. unfold convertToADF.
    rewrite split_app_lines, H1, length_app. simpl length.
    rewrite for_loop_add. rewrite for_loop_blank_after by done.
    destruct (for_loop (loop_body (Str.split Str.LF text)) 0 (length (Str.split Str.LF text))
                (mkEnc [] None None)) as [st| |]; simpl; try done.
    rewrite for_loop_1.
    rewrite (loop_body_blank _ _ b) by (try done; rewrite lookup_app_r by lia;
                                        by rewrite Nat.sub_diag).
    done. }
  intros Hb H1. split; [by apply G|]. by apply (G "").
Qed.

Lemma trailing_blank_line_is_ignored_witness :
  convertToADF ("- a" ++ Str.nl ++ "  ")%string = convertToADF "- a"
  /\ convertToADF ("- a" ++ Str.nl)%string = convertToADF "- a".
Proof.
  apply (trailing_blank_line_is_ignored "- a" "  "); reflexivity.
Defined.

(** ** Further properties: texts made of numbered lines *)

Lemma loop_body_numbered lines i line st :
  lines !! i = Some line -> is_numbered line = true ->
  loop_body lines i st
  = push_item (listItem_node (numbered_text line)) (open_list ordered st).
Proof.
  intros Hl Hn. unfold is_numbered, numbered_text in *.
  assert (Hd : default "" (lines !! i) = line) by (by rewrite Hl).
  unfold loop_body. rewrite Hd.
  destruct (numberedMatch (Str.trim line)) as [[d item]|] eqn:E; [|done].
  by destruct (numberedMatch_not_bullet (Str.trim line)) as [-> ->]; [by rewrite E|].
Qed.

Lemma numbered_run_exact lines run : forall from c k acc,
  c !! k = Some (list_node ordered (map listItem_node acc)) ->
  (forall j l, run !! j = Some l -> lines !! (from + j) = Some l) ->
  Forall (fun l => is_numbered l = true) run ->
  for_loop (loop_body lines) from (length run) (mkEnc c (Some k) (Some ordered))
  = Ok (mkEnc (<[k := list_node ordered (map listItem_node (acc ++ map numbered_text run))]> c)
              (Some k) (Some ordered)).
Proof.
  induction run as [|l run IH]; intros from c k acc Hk Hl Hb.
  - simpl. rewrite for_loop_0, app_nil_r. by rewrite list_insert_id.
  - apply Forall_cons in Hb as [Hb1 Hb].
    simpl length. rewrite for_loop_S.
    rewrite (loop_body_numbered lines from l)
      by (try done; rewrite <- (Nat.add_0_r from); by apply Hl).
    unfold open_list. cbn [currentListType]. rewrite decide_True by done.
    rewrite (push_item_list _ _ k ordered (map listItem_node acc)) by done. simpl.
    rewrite (IH (S from) _ k (acc ++ [numbered_text l])).
    + rewrite list_insert_insert_eq. by rewrite <- app_assoc.
    + rewrite list_lookup_insert_eq by (by eapply lookup_lt_Some). by rewrite map_app.
    + intros j x Hj. replace (S from + j) with (from + S j) by lia. by apply Hl.
    + done.
Qed.

Lemma convertToADF_numbered_only text :
  Forall (fun l => is_numbered l = true) (Str.split Str.LF text) ->
  convertToADF text
  = Ok (doc_node [list_node ordered
                    (map listItem_node (map numbered_text (Str.split Str.LF text)))]).
Proof.
  intros Hb. unfold convertToADF.
  pose proof (split_not_nil Str.LF text) as Hne.
  destruct (Str.split Str.LF text) as [|l run] eqn:E; [done|].
  apply Forall_cons in Hb as [Hb1 Hb].
  simpl length. rewrite for_loop_S.
  rewrite (loop_body_numbered _ 0 l) by done.
  change (push_item (listItem_node (numbered_text l)) (open_list ordered (mkEnc [] None None)))
    with (Ok (mkEnc [list_node ordered (map listItem_node [numbered_text l])]
                    (Some 0) (Some ordered))).
  cbn [bind].
  rewrite (numbered_run_exact (l :: run) run 1 _ 0 [numbered_text l]); try done.
Qed.

Lemma one_line_take_while s :
  one_line (Str.take_while (fun c => negb (Str.is_line_terminator c)) s).
Proof.
  induction s as [|c s IH]; [done|]. simpl.
  destruct (Str.is_line_terminator c) eqn:E; simpl; [done|].
  apply one_line_cons. split; [|done].
  unfold Str.is_line_terminator in E. by apply orb_false_iff in E as [E _].
Qed.

Lemma one_line_numbered_text line : one_line (numbered_text line).
Proof.
  unfold numbered_text, numberedMatch.
  repeat case_match; simplify_eq; try done; apply one_line_take_while.
Qed.

(** X23.  A text made of numbered lines only is encoded as one ordered
    list holding, for each line, the text that follows its number; it is
    rendered, after it is encoded, as these texts numbered from 1 in
    their order, whatever the numbers of the input were. *)
Theorem numbered_text_is_renumbered (text : string) :
  Forall (fun line => is_numbered line = true) (Str.split Str.LF text) ->
  let items := map numbered_text (Str.split Str.LF text) in
  convertToADF text = Ok (doc_node [list_node ordered (map listItem_node items)])
  /\ render_after_encode text
     = Ok (Str.trim (Str.join Str.nl
                       (imap (fun i item => Str.of_nat (i + 1) ++ ". " ++ item)%string items))).
Proof.
  intros Hn items.
  pose proof (convertToADF_numbered_only text Hn) as E. fold items in E.
  split; [done|]. unfold render_after_encode. rewrite E. cbn [bind].
  assert (Hr : processNode (list_node ordered (map listItem_node items))
               = Ok (Str.join Str.nl
                       (imap (fun i item => Str.of_nat (i + 1) ++ ". " ++ item)%string items))).
  { rewrite processNode_eq. simpl. rewrite (ordered_items_render items 0). simpl.
    do 2 f_equal. apply imap_ext. intros i item Hi. simpl.
    rewrite replaceAll_one_line; [done|].
    apply list_elem_of_lookup_2, list_elem_of_fmap in Hi as (l & -> & _).
    apply one_line_numbered_text. }
  rewrite (convertADFToMarkdown_doc _ [Str.join Str.nl
             (imap (fun i item => Str.of_nat (i + 1) ++ ". " ++ item)%string items)])
    by (cbn [mapM]; by rewrite Hr).
  by rewrite join_singleton.
Qed.

Lemma numbered_text_is_renumbered_witness :
  convertToADF ("7. a" ++ Str.nl ++ "7. b")%string
  = Ok (doc_node [list_node ordered (map listItem_node ["a"; "b"])])
  /\ render_after_encode ("7. a" ++ Str.nl ++ "7. b")%string
     = Ok (Str.trim (Str.join Str.nl ["1. a"; "2. b"])).
Proof.
  apply (numbered_text_is_renumbered ("7. a" ++ Str.nl ++ "7. b")%string).
  repeat constructor.
Defined.

(** ** Further properties: the tools and the validation of their arguments *)

(** The names under which the switch has a case. *)
Lemma checked_case_known name args :
  In name (map Tools.name Tools.listTools) ->
  checked_case name args <> Raises (mkMcpError MethodNotFound ("Unknown tool: " ++ name)%string)
  /\ forall msg, checked_case name args <> Raises (mkMcpError MethodNotFound msg).
Proof.
  intros H. simpl in H.
  assert (G : forall msg, checked_case name args <> Raises (mkMcpError MethodNotFound msg)).
  { intros msg.
    repeat (destruct H as [<-|H]; [
      unfold checked_case, arguments_are_required,
        validateListIssueTypesArgs, validateGetIssuesArgs, validateUpdateIssueArgs,
        validateGetUserArgs, validateReadIssueArgs, validateCreateIssueArgs,
        validateDeleteIssueArgs, validateCreateIssueLinkArgs, must_be_an_object, and_then;
      simpl; intros E; repeat case_match; simplify_eq |]).
    destruct H. }
  split; [apply G|exact G].
Qed.

Lemma checked_case_unknown name args :
  ~ In name (map Tools.name Tools.listTools) ->
  checked_case name args = Raises (mkMcpError MethodNotFound ("Unknown tool: " ++ name)%string).
Proof.
  intros H. simpl in H. unfold checked_case.
  repeat match goal with
  | |- context [(name =? ?s)%string] =>
      destruct (String.eqb_spec name s) as [->|_]; [exfalso; apply H; tauto|]
  end.
  reflexivity.
Qed.

(** X10.  The tools that a [ListTools] request is answered with are the
    names for which the handler of a tool call has a case: for any other
    name, and for no listed name, the call raises [MethodNotFound] with
    the message [Unknown tool: ] followed by the name.  The ten listed
    names are distinct. *)
Theorem advertised_tools_are_the_handled_ones (name : string) (args : arguments) :
  (In name (map Tools.name Tools.listTools)
   <-> forall message, checked_case name args <> Raises (mkMcpError MethodNotFound message))
  /\ (~ In name (map Tools.name Tools.listTools)
      <-> checked_case name args
          = Raises (mkMcpError MethodNotFound ("Unknown tool: " ++ name)%string))
  /\ NoDup (map Tools.name Tools.listTools)
  /\ length Tools.listTools = 10.
Proof.
  assert (Hdec : In name (map Tools.name Tools.listTools)
                 \/ ~ In name (map Tools.name Tools.listTools)).
  { destruct (decide (name ∈ map Tools.name Tools.listTools)) as [H|H];
      rewrite list_elem_of_In in H; auto. }
  split; [|split; [|split; [|reflexivity]]].
  - split.
    + intros H. by apply checked_case_known.
    + intros H. destruct Hdec as [|Hn]; [done|].
      exfalso. eapply H. by apply checked_case_unknown.
  - split.
    + apply checked_case_unknown.
    + intros E H. by apply (checked_case_known name args) in H as [H _].
  - compute_done.
Qed.

Ltac unfold_checks :=
  unfold checked_case, arguments_are_required,
    validateListIssueTypesArgs, validateGetIssuesArgs, validateUpdateIssueArgs,
    validateGetUserArgs, validateReadIssueArgs, validateCreateIssueArgs,
    validateDeleteIssueArgs, validateCreateIssueLinkArgs, must_be_an_object, and_then.

(** Past [arguments_are_required], the first test of a validator holds. *)
Lemma required_then_object args :
  arguments_are_required args = Returns true -> must_be_an_object args = Returns true.
Proof.
  unfold arguments_are_required, must_be_an_object.
  destruct (args_truthy args) eqn:Ht, (args_typeof_object args) eqn:Ho; simpl;
    try discriminate.
  intros _. assert (Hn : args_is_null args = false) by (by destruct args as [[]|]).
  by rewrite Hn.
Qed.

Lemma name_cases name :
  In name (map Tools.name Tools.listTools) ->
  name = "jira_delete_issue" \/ name = "jira_get_issues" \/ name = "jira_update_issue"
  \/ name = "jira_list_fields" \/ name = "jira_list_issue_types"
  \/ name = "jira_list_link_types" \/ name = "jira_get_user" \/ name = "jira_create_issue"
  \/ name = "jira_create_issue_link" \/ name = "jira_read_issue".
Proof. simpl. intuition auto. Qed.

(** X11.  In every case of the handler but [jira_list_fields] and
    [jira_list_link_types], arguments that are falsy or not an object are
    refused with [Arguments are required], also for [jira_list_issue_types]
    whose schema requires no property.  The message
    [Arguments must be an object] of the validators is never the outcome
    of a tool call, though a validator called on its own raises it.  The
    two cases named above do not look at the arguments. *)
Theorem missing_arguments_are_refused_before_validation :
  (forall name args,
      In name (map Tools.name Tools.listTools) ->
      name <> "jira_list_fields" -> name <> "jira_list_link_types" ->
      args_truthy args && args_typeof_object args = false ->
      checked_case name args = Raises (mkMcpError InvalidParams "Arguments are required"))
  /\ (forall name args,
        checked_case name args
        <> Raises (mkMcpError InvalidParams "Arguments must be an object"))
  /\ (forall args,
        checked_case "jira_list_fields" args = Returns jira_list_fields
        /\ checked_case "jira_list_link_types" args = Returns jira_list_link_types)
  /\ (forall v, typeof_object v = false \/ v = VNull ->
        validateListIssueTypesArgs (ArgsValue v)
        = Raises (mkMcpError InvalidParams "Arguments must be an object")).
Proof.
  split; [|split; [|split]].
  - intros name args Hin H1 H2 Hf.
    assert (Hr : arguments_are_required args
                 = Raises (mkMcpError InvalidParams "Arguments are required")).
    { unfold arguments_are_required.
      destruct (args_truthy args), (args_typeof_object args); done. }
    apply name_cases in Hin.
    destruct Hin as [->|[->|[->|[->|[->|[->|[->|[->|[->| ->]]]]]]]]]; try done;
      unfold checked_case; simpl; by rewrite Hr.
  - intros name args E.
    destruct (arguments_are_required args) as [[]|e] eqn:Hr.
    + apply required_then_object in Hr as Ho.
      revert E. unfold_checks. unfold arguments_are_required in Hr. rewrite Hr.
      unfold must_be_an_object in Ho. rewrite Ho.
      repeat case_match; intros; simplify_eq.
    + unfold arguments_are_required in Hr.
      destruct (negb (args_truthy args) || negb (args_typeof_object args)); discriminate.
    + revert E. unfold checked_case. rewrite Hr. simpl.
      unfold arguments_are_required in Hr.
      destruct (negb (args_truthy args) || negb (args_typeof_object args)); simplify_eq.
      repeat case_match; intros; simplify_eq.
  - done.
  - intros v [H| ->]; [|done].
    unfold validateListIssueTypesArgs, must_be_an_object. simpl. by rewrite H.
Qed.

Lemma missing_arguments_are_refused_before_validation_witness :
  checked_case "jira_list_issue_types" (ArgsValue VUndefined)
  = Raises (mkMcpError InvalidParams "Arguments are required").
Proof.
  apply (proj1 missing_arguments_are_refused_before_validation);
    [simpl; tauto|discriminate|discriminate|reflexivity].
Defined.

Lemma filled_string v :
  not_a_filled_string v = false <-> exists s, v = VStr s /\ s <> "".
Proof.
  split.
  - destruct v as [| | | |s| |]; try done. destruct s; [done|]. intros _. by eexists.
  - intros (s & -> & Hs). by destruct s.
Qed.

Lemma entry_cases name def :
  In (name, def) Tools.toolDefinitions ->
  exists i, i < 10 /\ Tools.toolDefinitions !! i = Some (name, def).
Proof.
  intros H. apply list_elem_of_In, list_elem_of_lookup_1 in H as [i Hi].
  exists i. split; [|done]. by apply lookup_lt_Some in Hi.
Qed.

Ltac each_tool H :=
  unfold Tools.toolDefinitions in H;
  repeat (destruct H as [H|H]; [injection H as <- <-|]); [..|destruct H].

Lemma accepted_arguments_follow_schema name def args c :
  In (name, def) Tools.toolDefinitions ->
  checked_case name args = Returns c ->
  Forall (fun k => exists s, arg k args = VStr s /\ s <> "")
         (Tools.required (Tools.inputSchema def))
  /\ Forall (fun entry =>
               forall allowed, Tools.ps_enum entry.2 = Some allowed ->
                 arg entry.1 args = VUndefined
                 \/ exists s, arg entry.1 args = VStr s /\ In s allowed)
            (Tools.properties (Tools.inputSchema def)).
Proof.
  intros Hin. each_tool Hin; unfold_checks; simpl;
    repeat case_match; intros; simplify_eq;
    (split; [repeat (apply List.Forall_cons; [cbv beta; by apply filled_string|]);
             apply List.Forall_nil|]);
    repeat (apply List.Forall_cons; [simpl; intros; simplify_eq|]);
    try apply List.Forall_nil.
  all: match goal with
       | H : defined ?v && _ && _ && _ = false |- _ =>
           destruct v as [| | | |s| |]; simpl in H; try discriminate; auto;
           right; exists s; split; [done|];
           repeat (apply andb_false_iff in H as [H|H]); try discriminate;
           apply negb_false_iff, String.eqb_eq in H; subst; simpl; tauto
       end.
Qed.

Lemma fits_fieldSet v :
  negb (defined v) || fits Tools.fieldSet_property v = true ->
  defined v && negb (is_string v "basic") && negb (is_string v "full")
    && negb (is_string v "navigable") = false
  /\ defined v && negb (is_string v "basic") && negb (is_string v "navigable")
       && negb (is_string v "full") = false.
Proof.
  destruct v as [| | | |s| |]; simpl; try done.
  destruct (s =? "basic"), (s =? "navigable"), (s =? "full"); done.
Qed.

Lemma fits_string d v :
  negb (defined v) || fits (Tools.string_property d) v = true ->
  defined v && not_a_string v = false.
Proof. by destruct v. Qed.

Lemma arguments_following_schema_are_accepted name def fields :
  In (name, def) Tools.toolDefinitions ->
  follows (Tools.inputSchema def) fields = true ->
  exists c, checked_case name (ArgsObject fields) = Returns c.
Proof.
  intros Hin. each_tool Hin; unfold follows; simpl; unfold_checks; simpl;
    rewrite ?andb_true_r; intros Hf;
    repeat match goal with
    | H : _ && _ = true |- _ => apply andb_true_iff in H as [? ?]
    | H : negb _ = true |- _ => apply negb_true_iff in H
    end;
    repeat match goal with
    | H : not_a_filled_string _ = false |- _ => rewrite H; clear H
    end; eauto.
  - destruct (fields !! "fieldSet") as [v|] eqn:E; simpl; eauto.
    match goal with H : negb (defined v) || _ = true |- _ =>
      apply fits_fieldSet in H as [-> _] end. eauto.
  - destruct (fields !! "projectKey") as [v|] eqn:E; simpl; eauto.
    match goal with H : negb (defined v) || _ = true |- _ =>
      apply fits_string in H as -> end. eauto.
  - destruct (fields !! "fieldSet") as [v|] eqn:E; simpl; eauto.
    match goal with H : negb (defined v) || _ = true |- _ =>
      apply fits_fieldSet in H as [_ ->] end. eauto.
Qed.

(** X12.  Validation agrees with the schema a tool is listed with.  When
    a call passes the checks of its case, each property the schema
    requires is a string that is not empty, and each property declared
    with an [enum] is absent or one of the values listed.  In the other
    direction, an object that holds a non-empty string under each required
    name, and a value of the declared type under each declared name it
    has, passes the checks. *)
Theorem validation_agrees_with_the_schema (name : string) (def : Tools.tool_definition) :
  In (name, def) Tools.toolDefinitions ->
  (forall args c,
      checked_case name args = Returns c ->
      Forall (fun k => exists s, arg k args = VStr s /\ s <> "")
             (Tools.required (Tools.inputSchema def))
      /\ Forall (fun entry =>
                   forall allowed, Tools.ps_enum entry.2 = Some allowed ->
                     arg entry.1 args = VUndefined
                     \/ exists s, arg entry.1 args = VStr s /\ In s allowed)
                (Tools.properties (Tools.inputSchema def)))
  /\ (forall fields,
        follows (Tools.inputSchema def) fields = true ->
        exists c, checked_case name (ArgsObject fields) = Returns c).
Proof.
  intros Hin. split.
  - intros args c. by apply accepted_arguments_follow_schema.
  - intros fields. by apply arguments_following_schema_are_accepted.
Qed.

Lemma validation_agrees_with_the_schema_witness :
  exists c,
    checked_case "jira_get_issues"
      (ArgsObject (<["projectKey" := VStr "PP"]> (<["fieldSet" := VStr "basic"]> ∅)))
    = Returns c.
Proof.
  refine (proj2 (validation_agrees_with_the_schema "jira_get_issues"
                   (Tools.mkTool
                      "Get all issues and subtasks for a Jira project with optional JQL filtering"
                      (Tools.mkSchema "object"
                         [("projectKey",
                           Tools.string_property
                             ("Jira project key (e.g., " ++ Tools.dq ++ "PP" ++ Tools.dq ++ " or "
                              ++ Tools.dq ++ "TEST" ++ Tools.dq ++ ")")%string);
                          ("jql", Tools.string_property
                                    "Optional Jira Query Language (JQL) to filter issues");
                          ("fieldSet", Tools.fieldSet_property)]
                         ["projectKey"])) _) _ _).
  - right. left. reflexivity.
  - vm_compute. reflexivity.
Defined.

Lemma requested_fields_checked args :
  (defined (arg "fieldSet" args) && negb (is_string (arg "fieldSet" args) "basic")
   && negb (is_string (arg "fieldSet" args) "full")
   && negb (is_string (arg "fieldSet" args) "navigable") = false) ->
  (arg "fieldSet" args = VUndefined
   /\ requested_fields args = Fields ["*navigable"; "Rank"])
  \/ (exists s names, arg "fieldSet" args = VStr s
        /\ FIELD_SETS !! s = Some names /\ requested_fields args = Fields names).
Proof.
  intros H. unfold requested_fields, coalesce.
  destruct (arg "fieldSet" args) as [| | | |s| |]; simpl in *; try discriminate.
  - left. split; [done|]. by vm_compute.
  - right. exists s.
    destruct (String.eqb_spec s "basic") as [E|_];
      [rewrite E; eexists; split; [done|]; by vm_compute|].
    destruct (String.eqb_spec s "full") as [E|_];
      [rewrite E; eexists; split; [done|]; by vm_compute|].
    destruct (String.eqb_spec s "navigable") as [E|_];
      [rewrite E; eexists; split; [done|]; by vm_compute|].
    done.
Qed.

(** X13.  In the cases [jira_get_issues] and [jira_read_issue], once the
    arguments have passed validation the fields requested from Jira are
    one of the three lists of [FIELD_SETS]: the list of [navigable] when
    [fieldSet] is absent, else the list written under the given name.  A
    member inherited from [Object.prototype] is never requested. *)
Theorem validated_field_set_selects_a_field_list (name : string) (args : arguments) (c : tool_case) :
  name = "jira_get_issues" \/ name = "jira_read_issue" ->
  checked_case name args = Returns c ->
  (arg "fieldSet" args = VUndefined
   /\ requested_fields args = Fields ["*navigable"; "Rank"])
  \/ (exists s names, arg "fieldSet" args = VStr s
        /\ FIELD_SETS !! s = Some names /\ requested_fields args = Fields names).
Proof.
  intros [-> | ->]; unfold_checks; simpl; repeat case_match; intros; simplify_eq.
  - by apply requested_fields_checked.
  - apply requested_fields_checked.
    match goal with H : defined _ && _ && _ && _ = false |- _ => revert H end.
    destruct (defined _), (is_string _ "basic"), (is_string _ "full"), (is_string _ "navigable");
      done.
Qed.

Lemma validated_field_set_selects_a_field_list_witness :
  (arg "fieldSet" (ArgsObject (<["issueKey" := VStr "PP-1"]> ∅)) = VUndefined
   /\ requested_fields (ArgsObject (<["issueKey" := VStr "PP-1"]> ∅))
      = Fields ["*navigable"; "Rank"])
  \/ (exists s names,
        arg "fieldSet" (ArgsObject (<["issueKey" := VStr "PP-1"]> ∅)) = VStr s
        /\ FIELD_SETS !! s = Some names
        /\ requested_fields (ArgsObject (<["issueKey" := VStr "PP-1"]> ∅)) = Fields names).
Proof.
  apply (validated_field_set_selects_a_field_list "jira_read_issue"
           (ArgsObject (<["issueKey" := VStr "PP-1"]> ∅)) jira_read_issue).
  - right. reflexivity.
  - vm_compute. reflexivity.
Defined.

(** *** Checks of the validators on small inputs *)

(** An empty string under a required name is refused; a property that is
    not required is not looked at, whatever the schema says of its type;
    an array is an object for the two tests on the arguments. *)
Example validators_ex :
  checked_case "jira_delete_issue" (ArgsObject (<["issueKey" := VStr ""]> ∅))
  = Raises (mkMcpError InvalidParams "Issue key is required and must be a string")
  /\ checked_case "jira_update_issue"
       (ArgsObject (<["issueKey" := VStr "PP-1"]> (<["description" := VNum 5]> ∅)))
     = Returns jira_update_issue
  /\ checked_case "jira_list_issue_types" (ArgsValue (VArr [])) = Returns jira_list_issue_types
  /\ checked_case "jira_get_user" (ArgsValue (VArr []))
     = Raises (mkMcpError InvalidParams "Email is required and must be a string")
  /\ checked_case "jira_read_issue"
       (ArgsObject (<["issueKey" := VStr "PP-1"]> (<["fieldSet" := VNull]> ∅)))
     = Raises (mkMcpError InvalidParams
                 "Field set must be either 'basic', 'navigable', or 'full'").
Proof. vm_compute. auto. Qed.

(** Without validation a [fieldSet] that names a member of
    [Object.prototype] would select that member. *)
Example requested_fields_ex :
  requested_fields (ArgsObject (<["fieldSet" := VStr "constructor"]> ∅))
  = Inherited "constructor"
  /\ requested_fields (ArgsObject (<["fieldSet" := VStr "full"]> ∅)) = getJiraFields (Some "full")
  /\ requested_fields (ArgsObject ∅) = getJiraFields None.
Proof. vm_compute. auto. Qed.

(** ** Further properties: the handlers and the calls they make *)

Lemma exec_bind {A B} (jira : client) (f : A -> run B) (m : run A) : forall made,
  exec jira made (m ≫= f)
  = match exec jira made m with
    | (made', Returned a) => exec jira made' (f a)
    | (made', Threw t) => (made', Threw t)
    | (made', LeftFragment) => (made', LeftFragment)
    end.
Proof.
  induction m as [a|t| |c k IH]; intros made; try reflexivity.
  simpl. apply IH.
Qed.

Lemma exec_try_catch {A} (jira : client) (h : thrown -> run A) (m : run A) : forall made,
  exec jira made (try_catch m h)
  = match exec jira made m with
    | (made', Threw t) => exec jira made' (h t)
    | r => r
    end.
Proof.
  induction m as [a|t| |c k IH]; intros made; try reflexivity.
  simpl. apply IH.
Qed.

Lemma exec_now {A} (jira : client) (m : result A) made :
  exec jira made (now m)
  = (made, match m with
           | Ok a => Returned a
           | Throw e => Threw (ThrownJs e)
           | Unsupported => LeftFragment
           end).
Proof. by destruct m. Qed.

Lemma exec_await (jira : client) c made :
  exec jira made (await c)
  = (made ++ [c], match jira made c with
                  | Resolves v => Returned v
                  | Rejects r => Threw (Rejection r)
                  end).
Proof. unfold await. simpl. by destruct (jira made c). Qed.

(** The calls already made stay where they are. *)
Lemma exec_extends {A} (jira : client) (m : run A) : forall made,
  exists more, (exec jira made m).1 = made ++ more.
Proof.
  induction m as [a|t| |c k IH]; intros made; try (exists []; simpl; by rewrite app_nil_r).
  simpl. destruct (IH (jira made c) (made ++ [c])) as [more ->].
  exists (c :: more). by rewrite <- app_assoc.
Qed.

(** X15.  The handler of a tool call never throws: what is thrown inside
    it (a failed validation, a TypeError or RangeError, a rejection by
    the Jira client) is caught and returned as a result with [isError],
    whose text is [Operation failed: ] and the message.  A call refused
    by the checks of its case reaches no method of the client; when the
    body of a case throws, the calls made until then have been made. *)
Theorem failures_become_results (JIRA_HOST name : string) (args : arguments) (jira : client) :
  (forall t, (exec jira [] (callTool JIRA_HOST name args)).2 <> Threw t)
  /\ (forall e, checked_case name args = Raises e ->
        exec jira [] (callTool JIRA_HOST name args)
        = ([], Returned (mkToolResult (OperationFailed (ThrownMcp e)) true)))
  /\ (forall c calls t,
        checked_case name args = Returns c ->
        exec jira [] (case_body JIRA_HOST args c) = (calls, Threw t) ->
        exec jira [] (callTool JIRA_HOST name args)
        = (calls, Returned (mkToolResult (OperationFailed t) true))).
Proof.
  split; [|split].
  - intros t. unfold callTool. rewrite exec_try_catch.
    destruct (exec jira [] _) as [made []]; simpl; congruence.
  - intros e He. unfold callTool. by rewrite He.
  - intros c calls t Hc He. unfold callTool. rewrite exec_try_catch, Hc, He. done.
Qed.

Section Update.

Variable JIRA_HOST : string.
Variable args : arguments.
Variable jira : client.

Lemma exec_set_description uf made :
  (exec jira made (set_description args uf)).1 = made.
Proof.
  unfold set_description. destruct (truthy (arg "description" args)); [|done].
  rewrite exec_bind, exec_now. by destruct (convertToADF_of _).
Qed.

Lemma exec_set_assignee uf made :
  (exec jira made (set_assignee args uf)).1 = made
  \/ exists options, (exec jira made (set_assignee args uf)).1 = made ++ [searchUsers options].
Proof.
  unfold set_assignee. destruct (truthy (arg "assignee" args)); [|by left].
  right. eexists. rewrite exec_bind, exec_await.
  destruct (jira made _) as [users|r]; [|done].
  rewrite exec_bind, exec_now.
  destruct (if jtruthy users then _ else _) as [[]| |]; try done.
  rewrite exec_bind, exec_now. by destruct (let* user := jfirst users in _).
Qed.

Lemma exec_change_status made :
  (exec jira made (change_status args)).1 = made
  \/ (exec jira made (change_status args)).1 = made ++ [listTransitions (arg "issueKey" args)]
  \/ exists transition,
       (exec jira made (change_status args)).1
       = made ++ [listTransitions (arg "issueKey" args);
                  transitionIssue (arg "issueKey" args) transition].
Proof.
  unfold change_status. destruct (truthy (arg "status" args)); [|by left].
  right. rewrite exec_bind, exec_await.
  destruct (jira made _) as [transitions|r]; [|by left].
  rewrite exec_bind, exec_now.
  destruct (let* list := jget "transitions" transitions in _) as [transition| |]; try (by left).
  destruct (jtruthy transition); [|by left].
  rewrite exec_bind, exec_now.
  destruct (jget "id" transition) as [id| |]; try (by left).
  right. eexists. rewrite exec_bind, exec_await. rewrite <- app_assoc. simpl.
  by destruct (jira _ _).
Qed.

Lemma exec_send_update uf made :
  (exec jira made (send_update args uf)).1 = made
  \/ (exec jira made (send_update args uf)).1
     = made ++ [updateIssue (arg "issueKey" args) (Object [("fields", Object uf)])].
Proof.
  unfold send_update. destruct (Nat.ltb 0 (length uf)); [|by left].
  right. rewrite exec_bind, exec_await. by destruct (jira _ _).
Qed.

End Update.

Lemma calls_among_bind {A B} jira (m : run A) (f : A -> run B) a1 a2 :
  calls_among jira m a1 -> (forall x, calls_among jira (f x) a2) ->
  calls_among jira (m ≫= f) (a1 ++ a2).
Proof.
  intros H1 H2 made. destruct (H1 made) as (t1 & E1 & S1).
  rewrite exec_bind. destruct (exec jira made m) as [made1 [x|t|]] eqn:E; simpl in E1; subst made1.
  - destruct (H2 x (made ++ t1)) as (t2 & E2 & S2).
    exists (t1 ++ t2). rewrite E2, app_assoc. split; [done|].
    rewrite map_app. by apply sublist_app.
  - exists t1. split; [done|]. by apply sublist_inserts_r.
  - exists t1. split; [done|]. by apply sublist_inserts_r.
Qed.

Lemma calls_among_ret {A} jira (a : A) : calls_among jira (mret a) [].
Proof. intros made. exists []. simpl. by rewrite app_nil_r. Qed.

Lemma calls_among_raise {A} jira t : calls_among jira (@Raise A t) [].
Proof. intros made. exists []. simpl. by rewrite app_nil_r. Qed.

Lemma calls_among_try_catch {A} jira (m : run A) h a1 a2 :
  calls_among jira m a1 -> (forall t, calls_among jira (h t) a2) ->
  calls_among jira (try_catch m h) (a1 ++ a2).
Proof.
  intros H1 H2 made. destruct (H1 made) as (t1 & E1 & S1).
  rewrite exec_try_catch.
  destruct (exec jira made m) as [made1 [x|t|]] eqn:E; simpl in E1; subst made1.
  - exists t1. split; [done|]. by apply sublist_inserts_r.
  - destruct (H2 t (made ++ t1)) as (t2 & E2 & S2).
    exists (t1 ++ t2). rewrite E2, app_assoc. split; [done|].
    rewrite map_app. by apply sublist_app.
  - exists t1. split; [done|]. by apply sublist_inserts_r.
Qed.

Lemma calls_among_cases {A} jira (m : run A) allowed (traces : list (list jira_call)) :
  (forall made, exists t, In t traces /\ (exec jira made m).1 = made ++ t) ->
  Forall (fun t => sublist (map method_name t) allowed) traces ->
  calls_among jira m allowed.
Proof.
  intros H F made. destruct (H made) as (t & Hin & E).
  exists t. split; [done|]. rewrite Forall_forall in F. by apply F, list_elem_of_In.
Qed.

Lemma update_issue_calls JIRA_HOST args jira :
  calls_among jira (case_update_issue JIRA_HOST args)
    ["searchUsers"; "listTransitions"; "transitionIssue"; "updateIssue"].
Proof.
  unfold case_update_issue.
  change ["searchUsers"; "listTransitions"; "transitionIssue"; "updateIssue"]
    with ([] ++ ["searchUsers"] ++ ["listTransitions"; "transitionIssue"]
          ++ ["updateIssue"] ++ []).
  apply calls_among_bind.
  { intros made. exists []. rewrite app_nil_r. split; [apply exec_set_description|done]. }
  intros uf. apply calls_among_bind.
  { intros made. destruct (exec_set_assignee args jira uf made) as [E|[o E]].
    - exists []. rewrite app_nil_r. split; [done|]. apply sublist_nil_l.
    - exists [searchUsers o]. split; [done|]. done. }
  intros uf'. apply calls_among_bind.
  { intros made. destruct (exec_change_status args jira made) as [E|[E|[tr E]]].
    - exists []. rewrite app_nil_r. split; [done|]. apply sublist_nil_l.
    - eexists. split; [exact E|]. simpl. apply sublist_skip, sublist_nil_l.
    - eexists. split; [exact E|]. done. }
  intros _. apply calls_among_bind.
  { intros made. destruct (exec_send_update args jira (set_priority args uf') made) as [E|E].
    - exists []. rewrite app_nil_r. split; [done|]. apply sublist_nil_l.
    - eexists. split; [exact E|]. done. }
  intros _. apply calls_among_ret.
Qed.

Lemma calls_among_now {A} jira (m : result A) : calls_among jira (now m) [].
Proof. intros made. exists []. rewrite exec_now, app_nil_r. done. Qed.

Lemma calls_among_await jira c : calls_among jira (await c) [method_name c].
Proof. intros made. exists [c]. rewrite exec_await. done. Qed.

Lemma calls_among_weaken {A} jira (m : run A) a1 a2 :
  sublist a1 a2 -> calls_among jira m a1 -> calls_among jira m a2.
Proof.
  intros S H made. destruct (H made) as (t & E & St). exists t. split; [done|].
  by etrans.
Qed.

(** A call, then statements that call nothing. *)
Lemma calls_among_one {A} jira c (f : json -> run A) :
  (forall x, calls_among jira (f x) []) ->
  calls_among jira (await c ≫= f) [method_name c].
Proof.
  intros H. change [method_name c] with ([method_name c] ++ []).
  apply calls_among_bind; [apply calls_among_await|done].
Qed.

Lemma calls_among_pure {A B} jira (m : result A) (f : A -> run B) allowed :
  (forall x, calls_among jira (f x) allowed) ->
  calls_among jira (now m ≫= f) allowed.
Proof.
  intros H. change allowed with ([] ++ allowed).
  apply calls_among_bind; [apply calls_among_now|done].
Qed.

Lemma case_calls JIRA_HOST args jira c :
  calls_among jira (case_body JIRA_HOST args c) (methods_of c).
Proof.
  destruct c; simpl.
  - apply calls_among_one. intros. apply calls_among_ret.
  - apply calls_among_one. intros. apply calls_among_ret.
  - unfold case_list_issue_types.
    change ["listIssueTypes"; "getProject"] with (["listIssueTypes"; "getProject"] ++ []).
    apply calls_among_bind.
    + destruct (truthy (arg "projectKey" args)).
      * change ["listIssueTypes"; "getProject"] with (["listIssueTypes"] ++ ["getProject"]).
        apply calls_among_bind; [apply calls_among_await|]. intros allIssueTypes.
        change ["getProject"] with (["getProject"] ++ []).
        apply calls_among_try_catch; [|intros; apply calls_among_ret].
        apply calls_among_one. intros. apply calls_among_now.
      * eapply calls_among_weaken; [|apply calls_among_await]. simpl.
        apply sublist_skip, sublist_nil_l.
    + intros response. apply calls_among_pure. intros. apply calls_among_pure.
      intros. apply calls_among_ret.
  - unfold case_get_issues. apply calls_among_one. intros response.
    apply calls_among_pure. intros issues. change [] with (@nil string ++ []).
    apply calls_among_bind.
    + destruct issues; try apply calls_among_ret.
      apply calls_among_pure. intros. apply calls_among_ret.
    + intros. apply calls_among_ret.
  - apply update_issue_calls.
  - unfold case_get_user. apply calls_among_one. intros response.
    apply calls_among_pure. intros [].
    + apply calls_among_ret.
    + repeat (apply calls_among_pure; intros). apply calls_among_ret.
  - apply calls_among_one. intros. apply calls_among_ret.
  - unfold case_create_issue. repeat (apply calls_among_pure; intros).
    apply calls_among_one. intros. repeat (apply calls_among_pure; intros).
    apply calls_among_ret.
  - apply calls_among_one. intros. apply calls_among_ret.
  - apply calls_among_one. intros. apply calls_among_ret.
Qed.

(** X14.  A tool calls the methods of the Jira client that are written
    in its case, in the order they are written, each at most once, and no
    other: [deleteIssue] is called by [jira_delete_issue] alone,
    [updateIssue] and [transitionIssue] by [jira_update_issue] alone,
    [addNewIssue] by [jira_create_issue] alone and [issueLink] by
    [jira_create_issue_link] alone.  A call refused by validation calls
    nothing. *)
Theorem each_tool_calls_its_own_methods
    (JIRA_HOST name : string) (args : arguments) (jira : client) :
  let calls := (exec jira [] (callTool JIRA_HOST name args)).1 in
  (forall c, checked_case name args = Returns c ->
             sublist (map method_name calls) (methods_of c))
  /\ (forall e, checked_case name args = Raises e -> calls = [])
  /\ (In "deleteIssue" (map method_name calls) -> name = "jira_delete_issue")
  /\ (In "updateIssue" (map method_name calls) \/ In "transitionIssue" (map method_name calls) ->
      name = "jira_update_issue")
  /\ (In "addNewIssue" (map method_name calls) -> name = "jira_create_issue")
  /\ (In "issueLink" (map method_name calls) -> name = "jira_create_issue_link").
Proof.
  intros calls.
  assert (H : forall c, checked_case name args = Returns c ->
                sublist (map method_name calls) (methods_of c)).
  { intros c Hc. subst calls. unfold callTool. rewrite Hc.
    assert (G : calls_among jira
                  (try_catch (case_body JIRA_HOST args c)
                     (fun error => Done (mkToolResult (OperationFailed error) true)))
                  (methods_of c ++ [])).
    { apply calls_among_try_catch; [apply case_calls|]. intros. apply (calls_among_ret jira). }
    destruct (G []) as (t & E & S). rewrite E. simpl. by rewrite app_nil_r in S. }
  assert (N : forall e, checked_case name args = Raises e -> calls = []).
  { intros e He. subst calls. unfold callTool. by rewrite He. }
  assert (W : forall m, In m (map method_name calls) ->
                exists c, checked_case name args = Returns c /\ In m (methods_of c)).
  { intros m Hm. destruct (checked_case name args) as [c|e] eqn:Hc.
    - exists c. split; [done|]. apply list_elem_of_In.
      eapply elem_of_sublist; [|by apply H]. by apply list_elem_of_In.
    - rewrite (N e eq_refl) in Hm. destruct Hm. }
  assert (Name : forall c, checked_case name args = Returns c ->
            match c with
            | jira_delete_issue => name = "jira_delete_issue"
            | jira_update_issue => name = "jira_update_issue"
            | jira_create_issue => name = "jira_create_issue"
            | jira_create_issue_link => name = "jira_create_issue_link"
            | _ => True
            end).
  { intros c. unfold checked_case.
    repeat match goal with
    | |- context [(name =? ?s)%string] => destruct (String.eqb_spec name s) as [->|_]
    end; unfold and_then; repeat case_match; intros; simplify_eq; done. }
  split; [done|]. split; [done|].
  split; [|split; [|split]].
  - intros Hm. apply W in Hm as (c & Hc & Hin). specialize (Name c Hc).
    destruct c; simpl in Hin; intuition congruence.
  - intros [Hm|Hm]; apply W in Hm as (c & Hc & Hin); specialize (Name c Hc);
      destruct c; simpl in Hin; intuition congruence.
  - intros Hm. apply W in Hm as (c & Hc & Hin). specialize (Name c Hc).
    destruct c; simpl in Hin; intuition congruence.
  - intros Hm. apply W in Hm as (c & Hc & Hin). specialize (Name c Hc).
    destruct c; simpl in Hin; intuition congruence.
Qed.

(** X16.  [jira_update_issue] with an issue key and nothing to change (no
    summary, description, assignee, status or priority, or empty ones)
    calls no method of the Jira client and still answers
    [Issue updated successfully]. *)
Theorem update_without_changes_reports_success
    (JIRA_HOST : string) (args : arguments) (jira : client) :
  checked_case "jira_update_issue" args = Returns jira_update_issue ->
  truthy (arg "summary" args) = false ->
  truthy (arg "description" args) = false ->
  truthy (arg "assignee" args) = false ->
  truthy (arg "status" args) = false ->
  truthy (arg "priority" args) = false ->
  exec jira [] (callTool JIRA_HOST "jira_update_issue" args)
  = ([], Returned
           (mkToolResult
              (Stringified
                 (Object [("message", Text "Issue updated successfully");
                          ("issue",
                           Object [("key", OfArguments (arg "issueKey" args));
                                   ("url", Text ("https://" ++ JIRA_HOST ++ "/browse/"
                                                 ++ ToString (arg "issueKey" args))%string)])]))
              false)).
Proof.
  intros Hc H1 H2 H3 H4 H5. unfold callTool. rewrite Hc. simpl case_body.
  unfold case_update_issue, set_description, set_summary, set_assignee, change_status,
    set_priority, send_update.
  rewrite H1, H2, H3, H4, H5. reflexivity.
Qed.

Lemma update_without_changes_reports_success_witness :
  exec (fun _ _ => Rejects NotAnError) []
       (callTool "example.atlassian.net" "jira_update_issue"
          (ArgsObject (<["issueKey" := VStr "PP-1"]> ∅)))
  = ([], Returned
           (mkToolResult
              (Stringified
                 (Object [("message", Text "Issue updated successfully");
                          ("issue",
                           Object [("key", OfArguments (VStr "PP-1"));
                                   ("url", Text "https://example.atlassian.net/browse/PP-1")])]))
              false)).
Proof.
  refine (eq_trans
            (update_without_changes_reports_success "example.atlassian.net"
               (ArgsObject (<["issueKey" := VStr "PP-1"]> ∅)) (fun _ _ => Rejects NotAnError)
               _ _ _ _ _ _) _);
    vm_compute; reflexivity.
Defined.

Lemma jfind_none test ts :
  Forall (fun t => test t = Ok false) ts -> jfind test ts = Ok JUndefined.
Proof.
  induction 1 as [|t ts Ht _ IH]; [done|]. simpl. rewrite Ht. simpl. exact IH.
Qed.

(** X17.  When the status asked for is the name of none of the
    transitions that Jira lists for the issue, compared in lower case, no
    transition is made and nothing says so: with nothing else to change
    the only call is [listTransitions] and the answer is
    [Issue updated successfully]. *)
Theorem unknown_status_is_ignored_silently
    (JIRA_HOST : string) (args : arguments) (jira : client)
    (answer : json) (transitions : list json) :
  checked_case "jira_update_issue" args = Returns jira_update_issue ->
  truthy (arg "summary" args) = false ->
  truthy (arg "description" args) = false ->
  truthy (arg "assignee" args) = false ->
  truthy (arg "priority" args) = false ->
  truthy (arg "status" args) = true ->
  jira [] (listTransitions (arg "issueKey" args)) = Resolves answer ->
  jget "transitions" answer = Ok (JArr transitions) ->
  Forall (fun t => exists name status,
            jget "name" t = Ok (JStr name) /\ arg "status" args = VStr status
            /\ toLowerCase name <> toLowerCase status) transitions ->
  exec jira [] (callTool JIRA_HOST "jira_update_issue" args)
  = ([listTransitions (arg "issueKey" args)], Returned (updated JIRA_HOST args)).
Proof.
  intros Hc H1 H2 H3 H5 H4 Hj Ht Hn. unfold callTool. rewrite Hc. simpl case_body.
  unfold case_update_issue, set_description, set_summary, set_assignee, change_status,
    set_priority, send_update.
  rewrite H1, H2, H3, H4, H5. simpl. rewrite Hj. simpl. rewrite Ht. simpl.
  rewrite jfind_none; [reflexivity|].
  eapply Forall_impl; [exact Hn|]. intros t (name & status & En & Es & Hne).
  unfold names_status. rewrite En, Es. simpl.
  destruct (String.eqb_spec (toLowerCase name) (toLowerCase status)); [done|reflexivity].
Qed.

Lemma unknown_status_is_ignored_silently_witness :
  let args := ArgsObject (<["issueKey" := VStr "PP-1"]> (<["status" := VStr "Done"]> ∅)) in
  exec (fun _ _ => Resolves (JObj [("transitions",
                                    JArr [JObj [("id", JStr "11"); ("name", JStr "To Do")]])]))
       [] (callTool "example.atlassian.net" "jira_update_issue" args)
  = ([listTransitions (VStr "PP-1")], Returned (updated "example.atlassian.net" args)).
Proof.
  refine (eq_trans
            (unknown_status_is_ignored_silently "example.atlassian.net"
               (ArgsObject (<["issueKey" := VStr "PP-1"]> (<["status" := VStr "Done"]> ∅)))
               (fun _ _ => Resolves (JObj [("transitions",
                                            JArr [JObj [("id", JStr "11");
                                                        ("name", JStr "To Do")]])]))
               (JObj [("transitions", JArr [JObj [("id", JStr "11"); ("name", JStr "To Do")]])])
               [JObj [("id", JStr "11"); ("name", JStr "To Do")]]
               _ _ _ _ _ _ _ _ _) _); try (vm_compute; reflexivity).
  constructor; [|constructor]. exists "To Do", "Done". split; [reflexivity|].
  split; [vm_compute; reflexivity|]. discriminate.
Defined.

Lemma arg_insert_ne k k' v fields :
  k <> k' -> arg k (ArgsObject (<[k' := v]> fields)) = arg k (ArgsObject fields).
Proof. intros H. unfold arg. by rewrite lookup_insert_ne. Qed.

Lemma arg_insert_eq k v fields : arg k (ArgsObject (<[k := v]> fields)) = v.
Proof. unfold arg. by rewrite lookup_insert_eq. Qed.

Lemma toLowerCase_empty s : toLowerCase s = "" -> s = "".
Proof. by destruct s. Qed.

Lemma jfind_ext f g l : (forall x, f x = g x) -> jfind f l = jfind g l.
Proof. intros H. induction l as [|x l IH]; [done|]. simpl. by rewrite H, IH. Qed.

Section Casing.

Variable JIRA_HOST : string.
Variable fields : gmap string value.
Variables s1 s2 : string.
Hypothesis same : toLowerCase s1 = toLowerCase s2.

Let args1 := ArgsObject (<["status" := VStr s1]> fields).
Let args2 := ArgsObject (<["status" := VStr s2]> fields).

Lemma casing_truthy : truthy (arg "status" args1) = truthy (arg "status" args2).
Proof.
  unfold args1, args2. rewrite !arg_insert_eq. simpl.
  destruct (String.eqb_spec s1 ""), (String.eqb_spec s2 ""); try done; subst.
  - symmetry in same. by apply toLowerCase_empty in same.
  - by apply toLowerCase_empty in same.
Qed.

Lemma casing_names_status t : names_status args1 t = names_status args2 t.
Proof.
  unfold names_status, args1, args2. rewrite !arg_insert_eq. simpl. by rewrite same.
Qed.

Lemma casing_change_status jira made :
  exec jira made (change_status args1) = exec jira made (change_status args2).
Proof.
  unfold change_status. rewrite casing_truthy.
  destruct (truthy (arg "status" args2)); [|done].
  assert (Ek : arg "issueKey" args1 = arg "issueKey" args2).
  { unfold args1, args2. by rewrite !arg_insert_ne. }
  rewrite Ek, !exec_bind, !exec_await.
  destruct (jira made _) as [transitions|r]; [|done].
  rewrite !exec_bind, !exec_now.
  assert (Ef : (let* list := jget "transitions" transitions in
                let* list := jarray list in jfind (names_status args1) list)
               = (let* list := jget "transitions" transitions in
                  let* list := jarray list in jfind (names_status args2) list)).
  { destruct (jget "transitions" transitions) as [l| |]; simpl; try done.
    destruct (jarray l) as [l'| |]; simpl; try done.
    apply jfind_ext, casing_names_status. }
  by rewrite Ef.
Qed.

Lemma casing_case jira made :
  exec jira made (case_update_issue JIRA_HOST args1)
  = exec jira made (case_update_issue JIRA_HOST args2).
Proof.
  unfold case_update_issue.
  assert (E1 : set_summary args1 [] = set_summary args2 []).
  { unfold set_summary, args1, args2. by rewrite !arg_insert_ne. }
  assert (E2 : forall uf, set_description args1 uf = set_description args2 uf).
  { intros uf. unfold set_description, args1, args2. by rewrite !arg_insert_ne. }
  assert (E3 : forall uf, set_assignee args1 uf = set_assignee args2 uf).
  { intros uf. unfold set_assignee, args1, args2. by rewrite !arg_insert_ne. }
  assert (E4 : forall uf, set_priority args1 uf = set_priority args2 uf).
  { intros uf. unfold set_priority, args1, args2. by rewrite !arg_insert_ne. }
  assert (E5 : forall uf, send_update args1 uf = send_update args2 uf).
  { intros uf. unfold send_update, args1, args2. by rewrite !arg_insert_ne. }
  assert (E6 : updated JIRA_HOST args1 = updated JIRA_HOST args2).
  { unfold updated, args1, args2. by rewrite !arg_insert_ne. }
  rewrite E1, E2, E6. rewrite !(exec_bind jira _ (set_description args2 _)).
  destruct (exec jira made (set_description args2 (set_summary args2 []))) as [made1 [uf|t|]];
    try done.
  rewrite E3. rewrite !(exec_bind jira _ (set_assignee args2 _)).
  destruct (exec jira made1 (set_assignee args2 uf)) as [made2 [uf'|t|]]; try done.
  rewrite !(exec_bind jira _ (change_status _)), casing_change_status.
  destruct (exec jira made2 (change_status args2)) as [made3 [[]|t|]]; try done.
  by rewrite E4, E5.
Qed.

Lemma casing_checks :
  checked_case "jira_update_issue" args1 = checked_case "jira_update_issue" args2.
Proof.
  unfold checked_case, arguments_are_required, validateUpdateIssueArgs, must_be_an_object,
    and_then, args1, args2. cbn [String.eqb Ascii.eqb Bool.eqb args_truthy args_typeof_object
                                   args_is_null negb orb].
  by rewrite !arg_insert_ne.
Qed.

End Casing.

(** X18.  The status of [jira_update_issue] is matched without regard to
    case: two calls whose arguments differ only in the case of the letters
    of [status] make the same calls and end the same way, whatever the
    client answers. *)
Theorem status_is_matched_without_case
    (JIRA_HOST : string) (fields : gmap string value) (s1 s2 : string) (jira : client) :
  toLowerCase s1 = toLowerCase s2 ->
  exec jira [] (callTool JIRA_HOST "jira_update_issue"
                  (ArgsObject (<["status" := VStr s1]> fields)))
  = exec jira [] (callTool JIRA_HOST "jira_update_issue"
                    (ArgsObject (<["status" := VStr s2]> fields))).
Proof.
  intros same. unfold callTool. rewrite !exec_try_catch.
  rewrite (casing_checks fields s1 s2).
  destruct (checked_case _ _) as [c|e] eqn:Hc; [|done].
  assert (c = jira_update_issue) as ->.
  { revert Hc. unfold checked_case, and_then. simpl. repeat case_match; congruence. }
  simpl case_body. by rewrite (casing_case JIRA_HOST fields s1 s2 same).
Qed.

Lemma status_is_matched_without_case_witness :
  let jira : client :=
    fun _ _ => Resolves (JObj [("transitions",
                                JArr [JObj [("id", JStr "31"); ("name", JStr "done")]])]) in
  exec jira [] (callTool "example.atlassian.net" "jira_update_issue"
                  (ArgsObject (<["status" := VStr "Done"]> (<["issueKey" := VStr "PP-1"]> ∅))))
  = exec jira [] (callTool "example.atlassian.net" "jira_update_issue"
                    (ArgsObject (<["status" := VStr "DONE"]> (<["issueKey" := VStr "PP-1"]> ∅)))).
Proof.
  apply (status_is_matched_without_case "example.atlassian.net"
           (<["issueKey" := VStr "PP-1"]> ∅) "Done" "DONE"). reflexivity.
Defined.

Lemma jfilter_sublist test l : forall kept, jfilter test l = Ok kept -> sublist kept l.
Proof.
  induction l as [|x l IH]; intros kept; simpl.
  - by intros [= <-].
  - destruct (test x) as [keep| |]; simpl; try done.
    destruct (jfilter test l) as [rest| |]; simpl; try done.
    intros [= <-]. destruct keep; [apply sublist_skip|apply sublist_cons]; by apply IH.
Qed.

Lemma project_issue_types_sublist all project v :
  project_issue_types (JArr all) project = Ok v ->
  exists kept, v = JArr kept /\ sublist kept all.
Proof.
  unfold project_issue_types.
  destruct (jget_optional "issueTypes" project) as [issueTypes| |]; simpl; try done.
  destruct (jtruthy issueTypes).
  - destruct (jarray issueTypes) as [types| |]; simpl; try done.
    destruct (mapM (jget "id") types) as [ids| |]; simpl; try done.
    destruct (jfilter _ all) as [kept| |] eqn:E; simpl; try done.
    intros [= <-]. exists kept. split; [done|]. by eapply jfilter_sublist.
  - intros [= <-]. by exists all.
Qed.

(** X19.  When [listIssueTypes] resolves to an array, what
    [jira_list_issue_types] answers without error is the summaries
    ([id], [name], [description], [subtask]) of some of its elements, in
    their order; when a project key is given and [getProject] is
    rejected, and when no project key is given, it is the summaries of
    all of them. *)
Theorem listed_issue_types_are_among_those_of_jira
    (JIRA_HOST : string) (args : arguments) (jira : client) (all : list json) :
  checked_case "jira_list_issue_types" args = Returns jira_list_issue_types ->
  jira [] listIssueTypes = Resolves (JArr all) ->
  (forall calls result,
      exec jira [] (callTool JIRA_HOST "jira_list_issue_types" args) = (calls, Returned result) ->
      isError result = false ->
      exists kept summaries,
        sublist kept all
        /\ mapM issue_type_summary kept = Ok summaries
        /\ result = success (Items summaries))
  /\ (forall r summaries,
        truthy (arg "projectKey" args) = true ->
        jira [listIssueTypes] (getProject (arg "projectKey" args)) = Rejects r ->
        mapM issue_type_summary all = Ok summaries ->
        exec jira [] (callTool JIRA_HOST "jira_list_issue_types" args)
        = ([listIssueTypes; getProject (arg "projectKey" args)],
           Returned (success (Items summaries))))
  /\ (forall summaries,
        truthy (arg "projectKey" args) = false ->
        mapM issue_type_summary all = Ok summaries ->
        exec jira [] (callTool JIRA_HOST "jira_list_issue_types" args)
        = ([listIssueTypes], Returned (success (Items summaries)))).
Proof.
  intros Hc Hall. split; [|split].
  - intros calls result. unfold callTool. rewrite Hc. simpl case_body.
    rewrite exec_try_catch. unfold case_list_issue_types. rewrite exec_bind.
    assert (Hresp : forall made response,
              exec jira []
                (if truthy (arg "projectKey" args)
                 then allIssueTypes ← await listIssueTypes;
                      try_catch
                        (project ← await (getProject (arg "projectKey" args));
                         now (project_issue_types allIssueTypes project))
                        (fun _ => mret allIssueTypes)
                 else await listIssueTypes)
              = (made, Returned response) ->
              exists kept, response = JArr kept /\ sublist kept all).
    { intros made response. destruct (truthy (arg "projectKey" args)).
      - rewrite exec_bind, exec_await, Hall. lazy beta iota.
        rewrite exec_try_catch, exec_bind, exec_await.
        destruct (jira ([] ++ [listIssueTypes]) (getProject (arg "projectKey" args)))
          as [project|r]; lazy beta iota.
        + rewrite exec_now.
          destruct (project_issue_types (JArr all) project) as [v| |] eqn:E; simpl.
          * intros [= _ <-]. by apply project_issue_types_sublist in E.
          * intros [= _ <-]. by exists all.
          * done.
        + simpl. intros [= _ <-]. by exists all.
      - rewrite exec_await, Hall. intros [= _ <-]. by exists all. }
    destruct (exec jira [] (if truthy (arg "projectKey" args) then _ else _))
      as [made [response|t|]] eqn:E.
    + destruct (Hresp made response eq_refl) as (kept & -> & Hs).
      rewrite exec_bind, exec_now. simpl. rewrite exec_bind, exec_now.
      destruct (mapM issue_type_summary kept) as [summaries| |] eqn:Em; simpl.
      * intros [= _ <-] _. by exists kept, summaries.
      * by intros [= _ <-].
      * done.
    + simpl. by intros [= _ <-].
    + done.
  - intros r summaries Hp Hr Hm. unfold callTool. rewrite Hc. simpl case_body.
    rewrite exec_try_catch. unfold case_list_issue_types. rewrite Hp.
    rewrite exec_bind, exec_bind, exec_await, Hall, exec_try_catch, exec_bind, exec_await.
    simpl. rewrite Hr. simpl. by rewrite Hm.
  - intros summaries Hp Hm. unfold callTool. rewrite Hc. simpl case_body.
    rewrite exec_try_catch. unfold case_list_issue_types. rewrite Hp.
    rewrite exec_bind, exec_await, Hall. simpl. by rewrite Hm.
Qed.

Lemma listed_issue_types_are_among_those_of_jira_witness :
  let story := JObj [("id", JStr "1"); ("name", JStr "Story"); ("subtask", JBool false)] in
  let jira : client :=
    fun _ c => match c with
               | listIssueTypes => Resolves (JArr [story])
               | _ => Rejects NotAnError
               end in
  exec jira [] (callTool "example.atlassian.net" "jira_list_issue_types"
                  (ArgsObject (<["projectKey" := VStr "PP"]> ∅)))
  = ([listIssueTypes; getProject (VStr "PP")],
     Returned (success (Items [Object [("id", OfJira (JStr "1")); ("name", OfJira (JStr "Story"));
                                       ("description", OfJira JUndefined);
                                       ("subtask", OfJira (JBool false))]]))).
Proof.
  intros story jira.
  refine (eq_trans
            (proj1 (proj2 (listed_issue_types_are_among_those_of_jira "example.atlassian.net"
                             (ArgsObject (<["projectKey" := VStr "PP"]> ∅)) jira [story] _ _))
                   NotAnError _ _ _ _) _); vm_compute; reflexivity.
Defined.

Lemma own_assign k x members : own k (assign k x members) = x.
Proof.
  induction members as [|[k' v] ms IH]; simpl.
  - by rewrite String.eqb_refl.
  - destruct (String.eqb_spec k k') as [->|Hne]; simpl.
    + by rewrite String.eqb_refl.
    + destruct (String.eqb_spec k k'); [done|]. exact IH.
Qed.

(** What the loop does to one issue. *)
Lemma convert_description_spec issue issue' :
  convert_description issue = Ok issue' ->
  exists description,
    description_of issue = Ok description
    /\ if jtruthy description && jtypeof_object description
       then exists markdown,
              convertADFToMarkdown (to_value description) = Ok markdown
              /\ description_of issue' = Ok (JStr markdown)
       else issue' = issue.
Proof.
  unfold convert_description.
  destruct (description_of issue) as [description| |] eqn:Ed; simpl; try done.
  intros H. exists description. split; [done|].
  destruct (jtruthy description && jtypeof_object description) eqn:Eo; [|by injection H].
  destruct (convertADFToMarkdown (to_value description)) as [markdown| |]; simpl in H; try done.
  exists markdown. split; [done|].
  unfold description_of in Ed.
  destruct issue as [| | | | | |members]; simpl in Ed; try done;
    try (injection Ed as <-; by destruct s);
    try (destruct (_ =? "length")%string; injection Ed as <-; done);
    try (injection Ed as <-; done).
  destruct (own "fields" members) as [| | | | | |fields] eqn:Ef; simpl in Ed; try done;
    try (injection Ed as <-; done);
    try (destruct (_ =? "length")%string; injection Ed as <-; done).
  injection H as <-. unfold description_of, jget at 1. cbn [bind]. rewrite own_assign.
  unfold jget_optional, jget. cbn [jnullish]. by rewrite own_assign.
Qed.

Lemma mapM_Forall2 {A B} (f : A -> result B) l : forall l',
  mapM f l = Ok l' -> Forall2 (fun x y => f x = Ok y) l l'.
Proof.
  induction l as [|x l IH]; intros l'; simpl.
  - intros [= <-]. constructor.
  - destruct (f x) as [y| |] eqn:E; simpl; try done.
    destruct (mapM f l) as [ys| |]; simpl; try done.
    intros [= <-]. constructor; [done|]. by apply IH.
Qed.

Lemma own_present k ms : own k ms <> JUndefined -> In k (map fst ms).
Proof.
  induction ms as [|[k' v] ms IH]; simpl; [done|].
  destruct (String.eqb_spec k k') as [->|Hne]; [by left|]. intros H. right. by apply IH.
Qed.

Lemma assign_replaces k x ms : In k (map fst ms) -> replaces k x ms (assign k x ms).
Proof.
  intros Hin. split; [|split].
  - induction ms as [|[k' v] ms IH]; simpl in *; [done|].
    destruct (String.eqb_spec k k') as [->|Hne]; [done|]. simpl. f_equal.
    destruct Hin as [E|Hin]; [by subst|]. by apply IH.
  - induction ms as [|[k' v] ms IH]; simpl in *; [done|].
    destruct (String.eqb_spec k k') as [->|Hne]; simpl.
    + by rewrite String.eqb_refl.
    + destruct (String.eqb_spec k k'); [done|].
      destruct Hin as [E|Hin]; [by subst|]. by apply IH.
  - intros k0 Hk0. clear Hin. induction ms as [|[k' v] ms IH]; simpl.
    + by destruct (String.eqb_spec k0 k).
    + destruct (String.eqb_spec k k') as [->|Hne]; simpl.
      * by destruct (String.eqb_spec k0 k').
      * destruct (String.eqb_spec k0 k'); [done|]. exact IH.
Qed.

(** What the loop does to one issue. *)
Lemma convert_description_replaces issue issue' :
  convert_description issue = Ok issue' ->
  exists description,
    description_of issue = Ok description
    /\ if jtruthy description && jtypeof_object description
       then exists markdown members fields members' fields',
              convertADFToMarkdown (to_value description) = Ok markdown
              /\ issue = JObj members
              /\ own "fields" members = JObj fields
              /\ own "description" fields = description
              /\ issue' = JObj members'
              /\ replaces "fields" (JObj fields') members members'
              /\ replaces "description" (JStr markdown) fields fields'
              /\ description_of issue' = Ok (JStr markdown)
       else issue' = issue.
Proof.
  intros H. destruct (convert_description_spec issue issue' H) as (description & Ed & Hd).
  exists description. split; [done|].
  destruct (jtruthy description && jtypeof_object description) eqn:Eo; [|done].
  destruct Hd as (markdown & Hm & Hd'). exists markdown.
  unfold convert_description in H. rewrite Ed in H. cbn [bind] in H. rewrite Eo, Hm in H.
  cbn [bind] in H.
  assert (Ht : jtruthy description = true) by (by destruct (jtruthy description)).
  unfold description_of in Ed.
  destruct issue as [| | | | | |members]; simpl in Ed; try done;
    try (injection Ed as <-; done);
    try (destruct (_ =? "length")%string; injection Ed as <-; done).
  destruct (own "fields" members) as [| | | | | |fields] eqn:Ef; simpl in Ed; try done;
    try (injection Ed as <-; done);
    try (destruct (_ =? "length")%string; injection Ed as <-; done).
  injection Ed as Ed. injection H as <-.
  exists members, fields, (assign "fields" (JObj (assign "description" (JStr markdown) fields))
                             members),
    (assign "description" (JStr markdown) fields).
  split; [done|]. split; [done|]. split; [done|]. split; [done|]. split; [done|].
  split; [|split; [|done]].
  - apply assign_replaces, own_present. by rewrite Ef.
  - apply assign_replaces, own_present. rewrite Ed. intros ->. done.
Qed.

(** X20.  When [jira_get_issues] answers without error, the issues it
    returns are those of Jira, in order.  An issue whose description is an
    object (an ADF document) is returned with the same members in the same
    order, each as Jira sent it but [fields]; its [fields] has the same
    members in the same order, each as Jira sent it but [description],
    which is the rendering of the document as markdown.  An issue without
    such a description is returned as it is. *)
Theorem returned_descriptions_are_markdown
    (JIRA_HOST : string) (args : arguments) (jira : client)
    (calls : list jira_call) (result : tool_result) (response : json) (issues : list json) :
  checked_case "jira_get_issues" args = Returns jira_get_issues ->
  (forall jql options, jira [] (searchJira jql options) = Resolves response) ->
  jget "issues" response = Ok (JArr issues) ->
  exec jira [] (callTool JIRA_HOST "jira_get_issues" args) = (calls, Returned result) ->
  isError result = false ->
  exists converted,
    result = success (OfJira (JArr converted))
    /\ Forall2 (fun issue issue' =>
                  exists description,
                    description_of issue = Ok description
                    /\ if jtruthy description && jtypeof_object description
                       then exists markdown members fields members' fields',
                              convertADFToMarkdown (to_value description) = Ok markdown
                              /\ issue = JObj members
                              /\ own "fields" members = JObj fields
                              /\ own "description" fields = description
                              /\ issue' = JObj members'
                              /\ replaces "fields" (JObj fields') members members'
                              /\ replaces "description" (JStr markdown) fields fields'
                              /\ description_of issue' = Ok (JStr markdown)
                       else issue' = issue)
               issues converted.
Proof.
  intros Hc Hj Hi. unfold callTool. rewrite Hc. simpl case_body.
  rewrite exec_try_catch. unfold case_get_issues.
  rewrite exec_bind, exec_await, Hj. rewrite exec_bind, exec_now, Hi. simpl.
  rewrite exec_bind, exec_bind, exec_now.
  destruct (mapM convert_description issues) as [converted| |] eqn:Em; simpl.
  - intros [= _ <-] _. exists converted. split; [done|].
    apply mapM_Forall2 in Em. eapply Forall2_impl; [exact Em|].
    intros issue issue'. apply convert_description_replaces.
  - by intros [= _ <-].
  - done.
Qed.

Lemma returned_descriptions_are_markdown_witness :
  let doc := JObj [("type", JStr "doc");
                   ("content",
                    JArr [JObj [("type", JStr "paragraph");
                                ("content",
                                 JArr [JObj [("type", JStr "text"); ("text", JStr "Hello")]])]])] in
  let issue := JObj [("key", JStr "PP-1");
                     ("fields", JObj [("summary", JStr "First"); ("description", doc);
                                      ("labels", JArr [JStr "a"])]);
                     ("id", JStr "10001")] in
  let plain := JObj [("key", JStr "PP-2");
                     ("fields", JObj [("summary", JStr "Second");
                                      ("description", JStr "As it is")])] in
  exists converted,
    success (OfJira (JArr [JObj [("key", JStr "PP-1");
                                 ("fields", JObj [("summary", JStr "First");
                                                  ("description", JStr "Hello");
                                                  ("labels", JArr [JStr "a"])]);
                                 ("id", JStr "10001")];
                           plain]))
    = success (OfJira (JArr converted))
    /\ Forall2 (fun issue issue' =>
                  exists description,
                    description_of issue = Ok description
                    /\ if jtruthy description && jtypeof_object description
                       then exists markdown members fields members' fields',
                              convertADFToMarkdown (to_value description) = Ok markdown
                              /\ issue = JObj members
                              /\ own "fields" members = JObj fields
                              /\ own "description" fields = description
                              /\ issue' = JObj members'
                              /\ replaces "fields" (JObj fields') members members'
                              /\ replaces "description" (JStr markdown) fields fields'
                              /\ description_of issue' = Ok (JStr markdown)
                       else issue' = issue)
               [issue; plain] converted.
Proof.
  intros doc issue plain.
  refine (returned_descriptions_are_markdown "example.atlassian.net"
            (ArgsObject (<["projectKey" := VStr "PP"]> ∅))
            (fun _ _ => Resolves (JObj [("issues", JArr [issue; plain])]))
            [searchJira "project = PP"
               (Object [("maxResults", Number 100);
                        ("fields", FieldNames (Fields ["*navigable"; "Rank"]))])]
            _ (JObj [("issues", JArr [issue; plain])]) [issue; plain] _ _ _ _ _);
    vm_compute; reflexivity.
Defined.

Lemma filled_not_nullish v : not_a_filled_string v = false -> nullish v = false.
Proof. by destruct v. Qed.

(** X21.  A validated [jira_create_issue] makes no call or the one call
    [addNewIssue], whose fields carry the project key, summary and issue
    type of the arguments: the default project key of the configuration
    is never used.  The assignee is sent as [accountId] as it is given,
    without a lookup, and is the address of the default manager when none
    is given.  A description is sent as the document [convertToADF] makes
    of it, and as [undefined] when it is absent or empty. *)
Theorem created_issue_carries_the_given_values
    (JIRA_HOST : string) (args : arguments) (jira : client)
    (calls : list jira_call) (ending_ : ending tool_result) :
  checked_case "jira_create_issue" args = Returns jira_create_issue ->
  exec jira [] (callTool JIRA_HOST "jira_create_issue" args) = (calls, ending_) ->
  calls = []
  \/ exists fields,
       calls = [addNewIssue (Object [("fields", fields)])]
       /\ member_of "project" fields
          = Some (Object [("key", OfArguments (arg "projectKey" args))])
       /\ member_of "summary" fields = Some (OfArguments (arg "summary" args))
       /\ member_of "issuetype" fields
          = Some (Object [("name", OfArguments (arg "issueType" args))])
       /\ member_of "assignee" fields
          = Some (Object [("accountId",
                           OfArguments (if nullish (arg "assignee" args)
                                        then VStr DEFAULT_MANAGER_EMAIL
                                        else arg "assignee" args))])
       /\ (truthy (arg "description" args) = false ->
           member_of "description" fields = Some (OfArguments VUndefined))
       /\ (forall text, arg "description" args = VStr text -> text <> "" ->
           exists doc, convertToADF text = Ok doc
                       /\ member_of "description" fields = Some (OfArguments doc)).
Proof.
  intros Hc. unfold callTool. rewrite Hc. simpl case_body. rewrite exec_try_catch.
  assert (Hp : nullish (arg "projectKey" args) = false).
  { revert Hc. unfold_checks. simpl. repeat case_match; intros; simplify_eq.
    by apply filled_not_nullish. }
  unfold case_create_issue, coalesce. rewrite Hp.
  rewrite exec_bind, exec_now.
  destruct (if truthy (arg "description" args) then _ else _) as [description| |] eqn:Ed;
    [|intros [= <- _]; by left..].
  rewrite exec_bind, exec_now.
  destruct (components_of (arg "components" args)) as [components| |];
    [|intros [= <- _]; by left..].
  rewrite exec_bind, exec_await.
  intros H. right. eexists. split.
  { destruct (jira [] _) as [response|r]; [|by injection H as <- _].
    rewrite exec_bind, exec_now in H. destruct (jget "id" response); [|by injection H as <- _..].
    rewrite exec_bind, exec_now in H. destruct (jget "key" response); by injection H as <- _. }
  repeat split; try reflexivity.
  - intros Hf. rewrite Hf in Ed. by injection Ed as <-.
  - intros text Ht Hne. rewrite Ht in Ed. simpl in Ed.
    destruct (String.eqb_spec text ""); [done|]. simpl in Ed.
    destruct (convertToADF text) as [doc| |]; simpl in Ed; try done.
    injection Ed as <-. by exists doc.
Qed.

Lemma created_issue_carries_the_given_values_witness :
  let args := ArgsObject (<["projectKey" := VStr "PP"]>
                          (<["summary" := VStr "S"]> (<["issueType" := VStr "Task"]> ∅))) in
  let jira : client := fun _ _ => Rejects NotAnError in
  (exec jira [] (callTool "example.atlassian.net" "jira_create_issue" args)).1 = []
  \/ exists fields,
       (exec jira [] (callTool "example.atlassian.net" "jira_create_issue" args)).1
       = [addNewIssue (Object [("fields", fields)])]
       /\ member_of "project" fields
          = Some (Object [("key", OfArguments (arg "projectKey" args))])
       /\ member_of "summary" fields = Some (OfArguments (arg "summary" args))
       /\ member_of "issuetype" fields
          = Some (Object [("name", OfArguments (arg "issueType" args))])
       /\ member_of "assignee" fields
          = Some (Object [("accountId",
                           OfArguments (if nullish (arg "assignee" args)
                                        then VStr DEFAULT_MANAGER_EMAIL
                                        else arg "assignee" args))])
       /\ (truthy (arg "description" args) = false ->
           member_of "description" fields = Some (OfArguments VUndefined))
       /\ (forall text, arg "description" args = VStr text -> text <> "" ->
           exists doc, convertToADF text = Ok doc
                       /\ member_of "description" fields = Some (OfArguments doc)).
Proof.
  intros args jira.
  refine (created_issue_carries_the_given_values "example.atlassian.net" args jira
            (exec jira [] (callTool "example.atlassian.net" "jira_create_issue" args)).1
            (exec jira [] (callTool "example.atlassian.net" "jira_create_issue" args)).2
            _ _).
  - vm_compute. reflexivity.
  - vm_compute. reflexivity.
Defined.

(** X22.  When the search of [jira_get_user] resolves to nothing (a falsy
    value or an empty array), the result is an error result that names
    the address searched for, after the one call [searchUsers]. *)
Theorem user_that_is_not_found_is_an_error_result
    (JIRA_HOST : string) (args : arguments) (jira : client) (users : json) :
  checked_case "jira_get_user" args = Returns jira_get_user ->
  (forall options, jira [] (searchUsers options) = Resolves users) ->
  jtruthy users = false \/ users = JArr [] ->
  exec jira [] (callTool JIRA_HOST "jira_get_user" args)
  = ([searchUsers (Object [("query", OfArguments (arg "email" args));
                           ("includeActive", Flag true); ("maxResults", Number 1)])],
     Returned (mkToolResult
                 (Plain ("No user found with email: " ++ ToString (arg "email" args))%string)
                 true)).
Proof.
  intros Hc Hj Hu. unfold callTool. rewrite Hc. simpl case_body. rewrite exec_try_catch.
  unfold case_get_user. rewrite exec_bind, exec_await, Hj. lazy beta iota.
  rewrite exec_bind, exec_now.
  destruct Hu as [Hu| ->]; [rewrite Hu|]; reflexivity.
Qed.

Lemma user_that_is_not_found_is_an_error_result_witness :
  exec (fun _ _ => Resolves (JArr [])) []
       (callTool "example.atlassian.net" "jira_get_user"
          (ArgsObject (<["email" := VStr "a@b.c"]> ∅)))
  = ([searchUsers (Object [("query", OfArguments (VStr "a@b.c"));
                           ("includeActive", Flag true); ("maxResults", Number 1)])],
     Returned (mkToolResult (Plain "No user found with email: a@b.c") true)).
Proof.
  refine (eq_trans
            (user_that_is_not_found_is_an_error_result "example.atlassian.net"
               (ArgsObject (<["email" := VStr "a@b.c"]> ∅))
               (fun _ _ => Resolves (JArr [])) (JArr []) _ _ _) _).
  - vm_compute. reflexivity.
  - reflexivity.
  - right. reflexivity.
  - vm_compute. reflexivity.
Defined.

(** ** Further properties: what an update leaves undone or half done *)

(** X24.  When the search for the assignee of [jira_update_issue]
    resolves to nothing (a falsy value or an empty array), the assignee is
    left out and nothing says so: with nothing else to change the only
    call is [searchUsers] and the answer is [Issue updated successfully]. *)
Theorem assignee_that_is_not_found_is_dropped
    (JIRA_HOST : string) (args : arguments) (jira : client) (users : json) :
  checked_case "jira_update_issue" args = Returns jira_update_issue ->
  truthy (arg "summary" args) = false ->
  truthy (arg "description" args) = false ->
  truthy (arg "status" args) = false ->
  truthy (arg "priority" args) = false ->
  truthy (arg "assignee" args) = true ->
  (forall options, jira [] (searchUsers options) = Resolves users) ->
  jtruthy users = false \/ users = JArr [] ->
  exec jira [] (callTool JIRA_HOST "jira_update_issue" args)
  = ([searchUsers (Object [("query", OfArguments (arg "assignee" args));
                           ("includeActive", Flag true); ("maxResults", Number 1)])],
     Returned (updated JIRA_HOST args)).
Proof.
  intros Hc H1 H2 H4 H5 H3 Hj Hu. unfold callTool. rewrite Hc. simpl case_body.
  unfold case_update_issue, set_description, set_summary, set_assignee, change_status,
    set_priority, send_update.
  rewrite H1, H2, H3, H4, H5. simpl. rewrite Hj. simpl.
  destruct Hu as [Hu| ->]; [rewrite Hu|]; reflexivity.
Qed.

Lemma assignee_that_is_not_found_is_dropped_witness :
  let args := ArgsObject (<["issueKey" := VStr "PP-1"]> (<["assignee" := VStr "a@b.c"]> ∅)) in
  exec (fun _ _ => Resolves (JArr [])) []
       (callTool "example.atlassian.net" "jira_update_issue" args)
  = ([searchUsers (Object [("query", OfArguments (VStr "a@b.c"));
                           ("includeActive", Flag true); ("maxResults", Number 1)])],
     Returned (updated "example.atlassian.net" args)).
Proof.
  intros args.
  refine (eq_trans
            (assignee_that_is_not_found_is_dropped "example.atlassian.net" args
               (fun _ _ => Resolves (JArr [])) (JArr []) _ _ _ _ _ _ _ _) _);
    try (vm_compute; reflexivity).
  right. reflexivity.
Defined.

(** X25.  [jira_update_issue] changes the status before it updates the
    fields, and does not undo it: when the transition is made and
    [updateIssue] is then rejected, the result is an error result, after
    the calls [listTransitions], [transitionIssue] and [updateIssue]. *)
Theorem status_change_is_kept_when_the_update_fails
    (JIRA_HOST : string) (args : arguments) (jira : client)
    (answer transition id settled : json) (others : list json) (r : reason) :
  let issueKey := arg "issueKey" args in
  let change := transitionIssue issueKey (Object [("transition", Object [("id", OfJira id)])]) in
  let update :=
    updateIssue issueKey
      (Object [("fields", Object [("summary", OfArguments (arg "summary" args))])]) in
  checked_case "jira_update_issue" args = Returns jira_update_issue ->
  truthy (arg "summary" args) = true ->
  truthy (arg "description" args) = false ->
  truthy (arg "assignee" args) = false ->
  truthy (arg "priority" args) = false ->
  truthy (arg "status" args) = true ->
  jira [] (listTransitions issueKey) = Resolves answer ->
  jget "transitions" answer = Ok (JArr (transition :: others)) ->
  names_status args transition = Ok true ->
  jget "id" transition = Ok id ->
  jira [listTransitions issueKey] change = Resolves settled ->
  jira [listTransitions issueKey; change] update = Rejects r ->
  exec jira [] (callTool JIRA_HOST "jira_update_issue" args)
  = ([listTransitions issueKey; change; update],
     Returned (mkToolResult (OperationFailed (Rejection r)) true)).
Proof.
  intros issueKey change update Hc H1 H2 H3 H5 H4 Hl Ht Hn Hi Hd Hu.
  assert (Htr : jtruthy transition = true).
  { unfold names_status in Hn. destruct transition; simpl in *; try done;
      repeat case_match; simplify_eq; done. }
  unfold callTool. rewrite Hc. simpl case_body.
  unfold case_update_issue, set_description, set_summary, set_assignee, change_status,
    set_priority, send_update.
  rewrite H1, H2, H3, H4, H5. simpl. fold issueKey. rewrite Hl. simpl. rewrite Ht. simpl.
  rewrite Hn. simpl. rewrite Htr. simpl. rewrite Hi. simpl. fold change. rewrite Hd. simpl.
  fold update. rewrite Hu. reflexivity.
Qed.

Lemma status_change_is_kept_when_the_update_fails_witness :
  let args := ArgsObject (<["issueKey" := VStr "PP-1"]>
                          (<["summary" := VStr "S"]> (<["status" := VStr "Done"]> ∅))) in
  let jira : client :=
    fun _ c => match c with
               | listTransitions _ =>
                   Resolves (JObj [("transitions",
                                    JArr [JObj [("id", JStr "31"); ("name", JStr "done")]])])
               | transitionIssue _ _ => Resolves JUndefined
               | _ => Rejects (AnError "no")
               end in
  exec jira [] (callTool "example.atlassian.net" "jira_update_issue" args)
  = ([listTransitions (VStr "PP-1");
      transitionIssue (VStr "PP-1") (Object [("transition", Object [("id", OfJira (JStr "31"))])]);
      updateIssue (VStr "PP-1")
        (Object [("fields", Object [("summary", OfArguments (VStr "S"))])])],
     Returned (mkToolResult (OperationFailed (Rejection (AnError "no"))) true)).
Proof.
  intros args jira.
  refine (eq_trans
            (status_change_is_kept_when_the_update_fails "example.atlassian.net" args jira
               (JObj [("transitions", JArr [JObj [("id", JStr "31"); ("name", JStr "done")]])])
               (JObj [("id", JStr "31"); ("name", JStr "done")]) (JStr "31") JUndefined []
               (AnError "no") _ _ _ _ _ _ _ _ _ _ _ _) _);
    vm_compute; reflexivity.
Defined.
